(** * Descriptor-set pooling and bind-state tracking of the Vulkan backend

    A shallow embedding of [VulkanDescriptorSetManager.cpp]: the fixed
    capacity [DescriptorPool], the growing [DescriptorInfinitePool], the
    per-set [DescriptorSetHistory] and the orchestrating
    [VulkanDescriptorSetManager::Impl], followed by the properties the
    design document states about them. The development goes on with
    [VulkanSwapChain], the engine's table of descriptor names
    ([getDescriptorName]) and [SamplerBindingMap], and with properties
    read off their code.

    Conventions.
    - Machine integers are [Z]; where the C++ type can wrap the wrap-around
      is written out with [uint16] / [uint64].
    - [std::unordered_map] is a [gmap]; [std::vector] and [std::array] are
      lists (an array of [N] elements is a list of length [N]).
    - A C++ method that mutates [this] takes the object and returns the
      new one. Calls into the Vulkan driver are recorded, in order, in
      [issued]; what the driver answers is an input of the model
      ([pending]).
    - A call that stops the process ([FILAMENT_CHECK_POSTCONDITION],
      [assert_invariant] in a checked build) or leaves defined behaviour
      (a shift by 64 or more, a capacity that does not fit its type, a
      null dereference) yields [Abort]. *)

From Stdlib Require Import ZArith QArith Qround Lia List Sorted.
From stdpp Require Import base decidable option list strings gmap fin_maps.

Open Scope Z_scope.

(* ===================================================================== *)
(** ** Handles, integers, outcomes *)

Abbreviation VkDescriptorSet := Z (only parsing).
Abbreviation VkDescriptorSetLayout := Z (only parsing).
Abbreviation VkPipelineLayout := Z (only parsing).
Abbreviation VkCommandBuffer := Z (only parsing).
Abbreviation VkBuffer := Z (only parsing).
Abbreviation VkSampler := Z (only parsing).
Abbreviation VkImageView := Z (only parsing).
Abbreviation VkDeviceSize := Z (only parsing).

Definition VK_NULL_HANDLE : Z := 0.

Definition uint16 (x : Z) : Z := x mod 2 ^ 16.
Definition uint64 (x : Z) : Z := x mod 2 ^ 64.
Definition UINT16_MAX : Z := 65535.

Inductive failure : Type :=
| PostconditionPanic   (* FILAMENT_CHECK_POSTCONDITION failed *)
| InvariantPanic       (* assert_invariant failed *)
| UndefinedBehaviour.  (* out-of-range access, null dereference, ... *)

Inductive outcome (A : Type) : Type :=
| Done (a : A)
| Abort (f : failure).

Arguments Done {A} a.
Arguments Abort {A} f.

#[global] Instance outcome_ret : MRet outcome := λ A a, Done a.

#[global] Instance outcome_bind : MBind outcome := λ A B k m,
  match m with
  | Done a => k a
  | Abort f => Abort f
  end.

Definition assert_invariant (b : bool) : outcome unit :=
  if b then Done tt else Abort InvariantPanic.

(* ===================================================================== *)
(** ** Layout masks and resource counts *)

Module Bitmask.
(** [VulkanDescriptorSetLayout::Bitmask]: one bit field per resource
    kind. *)
Record t : Type := mk {
  ubo : Z;
  dynamicUbo : Z;
  sampler : Z;
  inputAttachment : Z;
}.

Definition to_tuple (m : t) : Z * Z * Z * Z :=
  (ubo m, dynamicUbo m, sampler m, inputAttachment m).
Definition of_tuple (p : Z * Z * Z * Z) : t :=
  let '(a, b, c, d) := p in mk a b c d.
End Bitmask.

#[global] Instance Bitmask_eq_dec : EqDecision Bitmask.t.
Proof. solve_decision. Defined.

#[global] Instance Bitmask_countable : Countable Bitmask.t.
Proof.
  apply (inj_countable' Bitmask.to_tuple Bitmask.of_tuple).
  by intros [].
Defined.

Module DescriptorCount.
(** [VulkanDescriptorSetLayout::Count]. *)
Record t : Type := mk {
  ubo : Z;
  dynamicUbo : Z;
  sampler : Z;
  inputAttachment : Z;
}.

(** [operator==]: component-wise. *)
Definition eqb (a b : t) : bool :=
  (ubo a =? ubo b) && (dynamicUbo a =? dynamicUbo b)
  && (sampler a =? sampler b) && (inputAttachment a =? inputAttachment b).

(** Modelled from the spec: [Count::operator*] is declared in a header
    that is not part of the sources; "multiplying by an integer capacity
    yields the totals a Sub-Pool must provision". *)
Definition mul (a : t) (n : Z) : t :=
  mk (ubo a * n) (dynamicUbo a * n) (sampler a * n) (inputAttachment a * n).

(** Modelled from the spec: [Count::total] is declared in the same
    header; the sum of the four tallies. *)
Definition total (a : t) : Z :=
  ubo a + dynamicUbo a + sampler a + inputAttachment a.
End DescriptorCount.

Record VulkanDescriptorSetLayout : Type := {
  bitmask : Bitmask.t;
  count : DescriptorCount.t;
  vklayout : VkDescriptorSetLayout;
}.

(* ===================================================================== *)
(** ** The driver *)

Inductive VkResult : Type :=
| VK_SUCCESS
| VK_ERROR_OUT_OF_HOST_MEMORY
| VK_ERROR_OUT_OF_DEVICE_MEMORY
| VK_ERROR_FRAGMENTED_POOL
| VK_ERROR_OUT_OF_POOL_MEMORY.

Inductive VkDescriptorType : Type :=
| VK_DESCRIPTOR_TYPE_UNIFORM_BUFFER
| VK_DESCRIPTOR_TYPE_UNIFORM_BUFFER_DYNAMIC
| VK_DESCRIPTOR_TYPE_COMBINED_IMAGE_SAMPLER
| VK_DESCRIPTOR_TYPE_INPUT_ATTACHMENT.

Record VkDescriptorPoolSize : Type := {
  pool_type : VkDescriptorType;
  pool_descriptorCount : Z;
}.

Record VkDescriptorBufferInfo : Type := {
  info_buffer : VkBuffer;
  info_offset : VkDeviceSize;
  info_range : VkDeviceSize;
}.

Record VkDescriptorImageInfo : Type := {
  info_sampler : VkSampler;
  info_imageView : VkImageView;
  info_imageLayout : Z;
}.

Record VkWriteDescriptorSet : Type := {
  dstSet : VkDescriptorSet;
  dstBinding : Z;
  descriptorType : VkDescriptorType;
  pBufferInfo : option VkDescriptorBufferInfo;
  pImageInfo : option VkDescriptorImageInfo;
}.

(** The calls made into the driver. *)
Inductive VkCall : Type :=
| vkCreateDescriptorPool (maxSets : Z) (pPoolSizes : list VkDescriptorPoolSize)
| vkAllocateDescriptorSets (pSetLayout : VkDescriptorSetLayout)
| vkUpdateDescriptorSets (write : VkWriteDescriptorSet)
| vkCmdBindDescriptorSets (cmdbuffer : VkCommandBuffer)
    (layout : VkPipelineLayout) (firstSet : Z) (set : VkDescriptorSet)
    (dynamicOffsetCount : Z) (pDynamicOffsets : list Z).

(** Modelled from the spec: the Vulkan driver is an external collaborator.
    [pending] lists what it will answer to the coming
    [vkAllocateDescriptorSets] calls (every finite behaviour of a driver is
    such a list; a driver left without an answer reports an exhausted
    pool); [issued] is the trace of the calls received so far. *)
Record Gpu : Type := {
  pending : list (VkResult * VkDescriptorSet);
  issued : list VkCall;
}.

Definition record_call (c : VkCall) (g : Gpu) : Gpu :=
  {| pending := pending g; issued := issued g ++ [c] |}.

Definition allocate_descriptor_set (pSetLayout : VkDescriptorSetLayout) (g : Gpu)
  : VkResult * VkDescriptorSet * Gpu :=
  let call := vkAllocateDescriptorSets pSetLayout in
  match pending g with
  | [] => (VK_ERROR_OUT_OF_POOL_MEMORY, VK_NULL_HANDLE, record_call call g)
  | (result, vkSet) :: rest =>
      (result, vkSet, {| pending := rest; issued := issued g ++ [call] |})
  end.

(* ===================================================================== *)
(** ** [DescriptorPool]: one fixed-capacity pool *)

Module DescriptorPool.

Record t : Type := mk {
  mCount : DescriptorCount.t;
  mCapacity : Z;                               (* uint16_t const *)
  mSize : Z;                                   (* uint16_t *)
  mUnusedCount : Z;                            (* uint16_t *)
  mUnused : gmap Bitmask.t (list VkDescriptorSet);
}.

Definition set_mSize (v : Z) (p : t) : t :=
  mk (mCount p) (mCapacity p) v (mUnusedCount p) (mUnused p).
Definition set_mUnusedCount (v : Z) (p : t) : t :=
  mk (mCount p) (mCapacity p) (mSize p) v (mUnused p).
Definition set_mUnused (v : gmap Bitmask.t (list VkDescriptorSet)) (p : t) : t :=
  mk (mCount p) (mCapacity p) (mSize p) (mUnusedCount p) v.

(** The [VkDescriptorPoolSize] entries the constructor fills in. *)
Definition pool_sizes (actual : DescriptorCount.t) : list VkDescriptorPoolSize :=
  (if DescriptorCount.ubo actual =? 0 then []
   else [ Build_VkDescriptorPoolSize VK_DESCRIPTOR_TYPE_UNIFORM_BUFFER
            (DescriptorCount.ubo actual) ])
  ++ (if DescriptorCount.dynamicUbo actual =? 0 then []
      else [ Build_VkDescriptorPoolSize VK_DESCRIPTOR_TYPE_UNIFORM_BUFFER_DYNAMIC
               (DescriptorCount.dynamicUbo actual) ])
  ++ (if DescriptorCount.sampler actual =? 0 then []
      else [ Build_VkDescriptorPoolSize VK_DESCRIPTOR_TYPE_COMBINED_IMAGE_SAMPLER
               (DescriptorCount.sampler actual) ])
  ++ (if DescriptorCount.inputAttachment actual =? 0 then []
      else [ Build_VkDescriptorPoolSize VK_DESCRIPTOR_TYPE_INPUT_ATTACHMENT
               (DescriptorCount.inputAttachment actual) ]).

(** The constructor. The native pool handle [mPool] is only ever handed
    back to the driver and is not represented. *)
Definition create (count : DescriptorCount.t) (capacity : Z) (g : Gpu) : t * Gpu :=
  let actual := DescriptorCount.mul count capacity in
  (mk count capacity 0 0 ∅,
   record_call (vkCreateDescriptorPool capacity (pool_sizes actual)) g).

Definition capacity (p : t) : Z := mCapacity p.

Definition canAllocate (count : DescriptorCount.t) (p : t) : bool :=
  DescriptorCount.eqb count (mCount p).

Definition obtainSet (layout : VulkanDescriptorSetLayout) (p : t) (g : Gpu)
  : outcome (VkDescriptorSet * t * Gpu) :=
  match mUnused p !! bitmask layout with
  | Some sets =>
      match sets with
      | [] => Done (VK_NULL_HANDLE, p, g)
      | _ :: _ =>
          let set := List.last sets VK_NULL_HANDLE in
          let p := set_mUnused (<[bitmask layout := removelast sets]> (mUnused p)) p in
          let p := set_mUnusedCount (uint16 (mUnusedCount p - 1)) p in
          Done (set, p, g)
      end
  | None =>
      if mSize p + 1 >? mCapacity p then Done (VK_NULL_HANDLE, p, g)
      else
        let '(result, vkSet, g) := allocate_descriptor_set (vklayout layout) g in
        match result with
        | VK_SUCCESS => Done (vkSet, set_mSize (uint16 (mSize p + 1)) p, g)
        | _ => Abort PostconditionPanic
        end
  end.

Definition recycle (layoutMask : Bitmask.t) (vkSet : VkDescriptorSet) (p : t) : t :=
  let p :=
    match mUnused p !! layoutMask with
    | Some sets => set_mUnused (<[layoutMask := sets ++ [vkSet]]> (mUnused p)) p
    | None => set_mUnused (<[layoutMask := [vkSet]]> (mUnused p)) p
    end in
  set_mUnusedCount (uint16 (mUnusedCount p + 1)) p.

End DescriptorPool.

(* ===================================================================== *)
(** ** [DescriptorInfinitePool]: the growing collection of pools *)

Module DescriptorInfinitePool.

Definition EXPECTED_SET_COUNT : Z := 10.
Definition SET_COUNT_GROWTH_FACTOR : Q := 3 # 2.

(** [std::ceil(capacity * SET_COUNT_GROWTH_FACTOR)] stored into a
    [uint16_t]. The product of a 16-bit integer and 1.5 is exact in single
    precision, so it is computed over the rationals. Converting a value
    above 65535 to [uint16_t] is undefined. *)
Definition grown_capacity (capacity : Z) : outcome Z :=
  let c := Qceiling (inject_Z capacity * SET_COUNT_GROWTH_FACTOR) in
  if c <=? UINT16_MAX then Done c else Abort UndefinedBehaviour.

(** What the loop over [mPools] leaves behind: the set it returned early
    with, if any, the pools as they are now, and [sameTypePool]. The
    pointer [sameTypePool] is only read for its constant capacity, so the
    pool it points to is kept by value. *)
Record scanned : Type := {
  found : option VkDescriptorSet;
  pools_after : list DescriptorPool.t;
  sameTypePool : option DescriptorPool.t;
  gpu_after : Gpu;
}.

Definition better (sameTypePool : option DescriptorPool.t) (pool : DescriptorPool.t)
  : option DescriptorPool.t :=
  match sameTypePool with
  | None => Some pool
  | Some same =>
      if DescriptorPool.capacity same <? DescriptorPool.capacity pool
      then Some pool else sameTypePool
  end.

Fixpoint scan (layout : VulkanDescriptorSetLayout) (pools : list DescriptorPool.t)
    (same : option DescriptorPool.t) (g : Gpu) : outcome scanned :=
  match pools with
  | [] => Done {| found := None; pools_after := []; sameTypePool := same; gpu_after := g |}
  | pool :: rest =>
      if negb (DescriptorPool.canAllocate (count layout) pool) then
        r ← scan layout rest same g;
        Done {| found := found r; pools_after := pool :: pools_after r;
                sameTypePool := sameTypePool r; gpu_after := gpu_after r |}
      else
        '(set, pool, g) ← DescriptorPool.obtainSet layout pool g;
        if negb (set =? VK_NULL_HANDLE) then
          Done {| found := Some set; pools_after := pool :: rest;
                  sameTypePool := same; gpu_after := g |}
        else
          r ← scan layout rest (better same pool) g;
          Done {| found := found r; pools_after := pool :: pools_after r;
                  sameTypePool := sameTypePool r; gpu_after := gpu_after r |}
  end.

Section WithLayoutCount.

(** [DescriptorCount::fromLayoutBitmask] is declared in a header that is
    not part of the sources; it is a parameter. *)
Context (fromLayoutBitmask : Bitmask.t → DescriptorCount.t).

Definition obtainSet (layout : VulkanDescriptorSetLayout) (mPools : list DescriptorPool.t)
    (g : Gpu) : outcome (VkDescriptorSet * list DescriptorPool.t * Gpu) :=
  r ← scan layout mPools None g;
  match found r with
  | Some set => Done (set, pools_after r, gpu_after r)
  | None =>
      capacity ←
        match sameTypePool r with
        | Some same => grown_capacity (DescriptorPool.capacity same)
        | None => Done EXPECTED_SET_COUNT
        end;
      let '(pool, g) :=
        DescriptorPool.create (fromLayoutBitmask (bitmask layout)) capacity (gpu_after r) in
      '(ret, pool, g) ← DescriptorPool.obtainSet layout pool g;
      _ ← assert_invariant (negb (ret =? VK_NULL_HANDLE));
      Done (ret, pools_after r ++ [pool], g)
  end.

End WithLayoutCount.

Fixpoint recycle (count : DescriptorCount.t) (layoutMask : Bitmask.t)
    (vkSet : VkDescriptorSet) (mPools : list DescriptorPool.t) : list DescriptorPool.t :=
  match mPools with
  | [] => []
  | pool :: rest =>
      if negb (DescriptorPool.canAllocate count pool)
      then pool :: recycle count layoutMask vkSet rest
      else DescriptorPool.recycle layoutMask vkSet pool :: rest
  end.

End DescriptorInfinitePool.

(* ===================================================================== *)
(** ** Collaborators of the set manager *)

(** The wrapper object owned by the resource allocator; the manager reads
    its native handle. *)
Record VulkanDescriptorSet : Type := { vkSet : VkDescriptorSet }.

#[global] Instance VulkanDescriptorSet_eq_dec : EqDecision VulkanDescriptorSet.
Proof. solve_decision. Defined.

(** Modelled from the spec: [VulkanCommandBuffer] is an external
    collaborator offering [buffer()] and [acquire(resource)], which
    extends the life of the resource to that of the command stream. *)
Record VulkanCommandBuffer : Type := {
  buffer : VkCommandBuffer;
  acquired : list VulkanDescriptorSet;
}.

Definition acquire (set : VulkanDescriptorSet) (commands : VulkanCommandBuffer)
  : VulkanCommandBuffer :=
  {| buffer := buffer commands; acquired := acquired commands ++ [set] |}.

Record VkImageSubresourceRange : Type := {
  aspectMask : Z;
  baseMipLevel : Z;
  levelCount : Z;
  baseArrayLayer : Z;
  layerCount : Z;
}.

#[global] Instance VkImageSubresourceRange_eq_dec : EqDecision VkImageSubresourceRange.
Proof. solve_decision. Defined.

(** Modelled from the spec: [VulkanTexture] is an external collaborator
    "exposing: primary sub-resource range, view-for-type, current layout,
    usage flags". The record holds what its accessors answer; [address]
    stands for the identity of the object. *)
Record VulkanTexture : Type := {
  address : Z;
  usageDepthAttachment : bool;       (* any(usage & DEPTH_ATTACHMENT) *)
  getPrimaryViewRange : VkImageSubresourceRange;
  getViewType : Z;
  getAttachmentView : VkImageView;   (* for the primary range *)
  getViewForType : VkImageView;      (* for the primary range and view type *)
  getPrimaryVkLayout : Z;            (* imgutil::getVkLayout(getPrimaryImageLayout()) *)
}.

Definition VK_IMAGE_VIEW_TYPE_2D : Z := 1.

Record VulkanBufferObject : Type := { getGpuBuffer : VkBuffer }.

(* ===================================================================== *)
(** ** [DescriptorSetHistory]: the bind state of one set *)

Module DescriptorSetHistory.

Abbreviation TextureBundle := (Z * VkImageSubresourceRange)%type (only parsing).

Record t : Type := mk {
  (** Modelled from the spec: [FixedSizeVulkanResourceManager<1>] is not
      part of the sources; the flag tells whether the history holds its
      own reference to [mSet] ([acquire]) or has dropped it ([clear]). *)
  mResources : bool;
  mSet : option VulkanDescriptorSet;            (* [None] is [nullptr] *)
  mTextures : list TextureBundle;
  mOffsets : list Z;
  mMask : Bitmask.t;
  mLayout : VkDescriptorSetLayout;
  mCount : DescriptorCount.t;
  mMaxIndex : Z;
  mWritten : Z;                                 (* uint64_t *)
  mBound : bool;
}.

Definition zero_mask : Bitmask.t := Bitmask.mk 0 0 0 0.
Definition zero_count : DescriptorCount.t := DescriptorCount.mk 0 0 0 0.

(** The default constructor, as run by [operator[]] of the history map. *)
Definition default : t :=
  mk false None [] [] zero_mask VK_NULL_HANDLE zero_count 0 0 false.

Definition setOffsets (offsets : list Z) (h : t) : t :=
  mk (mResources h) (mSet h) (mTextures h) offsets (mMask h) (mLayout h)
     (mCount h) (mMaxIndex h) (mWritten h) false.

(** [1LL << binding], for a [binding] of type [uint8_t]: the shift of a
    64-bit integer is defined for a count below 64 only. *)
Definition shift_one (binding : Z) : outcome Z :=
  if bool_decide (0 ≤ binding < 64) then Done (Z.shiftl 1 binding)
  else Abort UndefinedBehaviour.

Definition write (binding : Z) (h : t) : outcome t :=
  bit ← shift_one binding;
  Done (mk (mResources h) (mSet h) (mTextures h) (mOffsets h) (mMask h) (mLayout h)
          (mCount h) (mMaxIndex h)
          (uint64 (Z.lor (mWritten h) bit)) false).

(** Modelled from the spec: [CappedArray] is not part of the sources; the
    design speaks of the "set of (texture, sub-resource-range) pairs". *)
Definition insert_texture (b : TextureBundle) (l : list TextureBundle)
  : list TextureBundle :=
  if decide (b ∈ l) then l else l ++ [b].

Definition write_texture (binding : Z) (range : VkImageSubresourceRange)
    (texture : VulkanTexture) (h : t) : outcome t :=
  h ← write binding h;
  Done (mk (mResources h) (mSet h)
          (insert_texture (address texture, range) (mTextures h))
          (mOffsets h) (mMask h) (mLayout h) (mCount h) (mMaxIndex h) (mWritten h)
          (mBound h)).

(** [bind]: the one operation that records a command. Reading
    [mSet->vkSet] through a null [mSet] is undefined. *)
Definition bind (commands : VulkanCommandBuffer) (pipelineLayout : VkPipelineLayout)
    (index : Z) (h : t) (g : Gpu) : outcome (t * VulkanCommandBuffer * Gpu) :=
  let cmdbuffer := buffer commands in
  match mSet h with
  | None => Abort UndefinedBehaviour
  | Some set =>
      let g := record_call
                 (vkCmdBindDescriptorSets cmdbuffer pipelineLayout index (vkSet set)
                    (DescriptorCount.dynamicUbo (mCount h)) (mOffsets h)) g in
      let commands := acquire set commands in
      Done (mk false (mSet h) (mTextures h) (mOffsets h) (mMask h) (mLayout h)
              (mCount h) (mMaxIndex h) (mWritten h) true,
            commands, g)
  end.

Definition unbind (h : t) : t :=
  mk true (mSet h) (mTextures h) (mOffsets h) (mMask h) (mLayout h)
     (mCount h) (mMaxIndex h) (mWritten h) false.

Definition bound (h : t) : bool := mBound h.
Definition written (binding : Z) (h : t) : outcome bool :=
  bit ← shift_one binding;
  Done (negb (Z.land (mWritten h) bit =? 0)).
Definition mask (h : t) : Bitmask.t := mMask h.
Definition maxIndex (h : t) : Z := mMaxIndex h.

(** The loop of the constructor: the test is written [1LL < i], a
    comparison, and is kept as it is. *)
Definition max_index (m : Bitmask.t) : Z :=
  fold_left
    (λ mMaxIndex i,
       let all := Z.lor (Z.lor (Z.lor (Bitmask.ubo m) (Bitmask.dynamicUbo m))
                           (Bitmask.sampler m)) (Bitmask.inputAttachment m) in
       if Z.land all (if 1 <? i then 1 else 0) =? 0 then mMaxIndex else i)
    (Z.of_nat <$> seq 0 32) 0.

Definition create (m : Bitmask.t) (count : DescriptorCount.t)
    (layout : VkDescriptorSetLayout) (set : VulkanDescriptorSet) : outcome t :=
  _ ← assert_invariant (DescriptorCount.total count <? 64);
  let h := unbind (mk false (Some set) [] [] m layout count 0 0 false) in
  Done (mk (mResources h) (mSet h) (mTextures h) (mOffsets h) (mMask h) (mLayout h)
           (mCount h) (max_index m) (mWritten h) (mBound h)).

End DescriptorSetHistory.

(* ===================================================================== *)
(** ** [BoundInfo]: what the last commit bound *)

(** Reading [a[i]] in a [std::array]; every use below has [i] within the
    array. *)
Definition at_index (a : list VkDescriptorSet) (i : nat) : VkDescriptorSet :=
  default VK_NULL_HANDLE (a !! i).

(** [(bool) (setMask & (1LL << i))]. *)
Definition mask_bit (setMask : Z) (i : nat) : bool :=
  negb (Z.land setMask (Z.shiftl 1 (Z.of_nat i)) =? 0).

Module BoundInfo.

Record t : Type := mk {
  pipelineLayout : VkPipelineLayout;
  setMask : Z;                                  (* uint8_t *)
  boundSets : list VkDescriptorSet;             (* DescriptorSetArray *)
}.

Section WithSetCount.
Context (UNIQUE_DESCRIPTOR_SET_COUNT : nat).

(** [operator==]. *)
Definition eqb (self info : t) : bool :=
  if negb (pipelineLayout self =? pipelineLayout info)
     || negb (setMask self =? setMask info)
  then false
  else
    forallb
      (λ i, negb (mask_bit (setMask self) i
                  && negb (at_index (boundSets self) i =? at_index (boundSets info) i)))
      (seq 0 UNIQUE_DESCRIPTOR_SET_COUNT).

End WithSetCount.
End BoundInfo.

(* ===================================================================== *)
(** ** [VulkanDescriptorSetManager::Impl] *)

Module Impl.

(** [mDevice] and [mResourceAllocator] are handles to collaborators;
    [mInputAttachment] and the two place holders are written by
    [setPlaceHolders] only and read nowhere. *)
Record t : Type := mk {
  mDescriptorPool : list DescriptorPool.t;      (* DescriptorInfinitePool::mPools *)
  mHistory : gmap VkDescriptorSet DescriptorSetHistory.t;
  mStashedSets : list VkDescriptorSet;          (* DescriptorSetArray *)
  mLastBoundInfo : BoundInfo.t;
}.

Definition set_mHistory (v : gmap VkDescriptorSet DescriptorSetHistory.t) (s : t) : t :=
  mk (mDescriptorPool s) v (mStashedSets s) (mLastBoundInfo s).
Definition set_mStashedSets (v : list VkDescriptorSet) (s : t) : t :=
  mk (mDescriptorPool s) (mHistory s) v (mLastBoundInfo s).

(** [mHistory[key]]: a missing entry is default-constructed in place. *)
Definition subscript (key : VkDescriptorSet)
    (m : gmap VkDescriptorSet DescriptorSetHistory.t)
  : DescriptorSetHistory.t * gmap VkDescriptorSet DescriptorSetHistory.t :=
  match m !! key with
  | Some h => (h, m)
  | None => (DescriptorSetHistory.default, <[key := DescriptorSetHistory.default]> m)
  end.

Section WithConstants.

(** [UNIQUE_DESCRIPTOR_SET_COUNT] and [fromLayoutBitmask] are declared in
    headers that are not part of the sources; they are parameters. *)
Context (UNIQUE_DESCRIPTOR_SET_COUNT : nat).
Context (fromLayoutBitmask : Bitmask.t → DescriptorCount.t).

Definition init : t :=
  mk [] ∅ (replicate UNIQUE_DESCRIPTOR_SET_COUNT VK_NULL_HANDLE)
     (BoundInfo.mk VK_NULL_HANDLE 0
        (replicate UNIQUE_DESCRIPTOR_SET_COUNT VK_NULL_HANDLE)).

(** [bind] stashes the set; nothing is sent to the driver. An index
    outside the array is undefined. *)
Definition bind (setIndex : nat) (set : VulkanDescriptorSet) (offsets : list Z)
    (s : t) (g : Gpu) : outcome (t * Gpu) :=
  let '(history, hist) := subscript (vkSet set) (mHistory s) in
  let hist := <[vkSet set := DescriptorSetHistory.setOffsets offsets history]> hist in
  match mStashedSets s !! setIndex with
  | None => Abort UndefinedBehaviour
  | Some lastSet =>
      hist ←
        (if negb (lastSet =? VK_NULL_HANDLE) then
           _ ← assert_invariant (bool_decide (is_Some (hist !! lastSet)));
           let '(last, hist) := subscript lastSet hist in
           Done (<[lastSet := DescriptorSetHistory.unbind last]> hist)
         else Done hist);
      Done (mk (mDescriptorPool s) hist (<[setIndex := vkSet set]> (mStashedSets s))
               (mLastBoundInfo s), g)
  end.

(** The first loop of [commit]. An iterator into [mHistory] is the key it
    points at, [None] for [end()]. The array is written
    [iterators = {mHistory.end()}]: the elements after the first are
    value-initialised iterators, which the standard libraries in use
    represent like [end()]. *)
Definition collect (setMask : Z) (s : t) : list (option VkDescriptorSet) * bool :=
  fold_left
    (λ (acc : list (option VkDescriptorSet) * bool) i,
       let '(iterators, allBound) := acc in
       if Z.land setMask (Z.shiftl 1 (Z.of_nat i)) =? 0 then acc
       else
         let vkset := at_index (mStashedSets s) i in
         match mHistory s !! vkset with
         | Some h =>
             if negb (DescriptorSetHistory.bound h)
             then (<[i := Some vkset]> iterators, false)
             else acc
         | None => acc
         end)
    (seq 0 UNIQUE_DESCRIPTOR_SET_COUNT)
    (replicate UNIQUE_DESCRIPTOR_SET_COUNT None, true).

(** The second loop of [commit], over the slots still to visit. *)
Fixpoint bind_all (iterators : list (option VkDescriptorSet))
    (pipelineLayout : VkPipelineLayout) (slots : list nat)
    (hist : gmap VkDescriptorSet DescriptorSetHistory.t)
    (commands : VulkanCommandBuffer) (g : Gpu)
  : outcome (gmap VkDescriptorSet DescriptorSetHistory.t * VulkanCommandBuffer * Gpu) :=
  match slots with
  | [] => Done (hist, commands, g)
  | i :: rest =>
      match default None (iterators !! i) with
      | None => bind_all iterators pipelineLayout rest hist commands g
      | Some key =>
          match hist !! key with
          | None => Abort UndefinedBehaviour
          | Some h =>
              '(h, commands, g) ←
                DescriptorSetHistory.bind commands pipelineLayout (Z.of_nat i) h g;
              bind_all iterators pipelineLayout rest (<[key := h]> hist) commands g
          end
      end
  end.

Definition commit (commands : VulkanCommandBuffer) (pipelineLayout : VkPipelineLayout)
    (setMask : Z) (s : t) (g : Gpu) : outcome (t * VulkanCommandBuffer * Gpu) :=
  let '(iterators, allBound) := collect setMask s in
  let nextInfo := BoundInfo.mk pipelineLayout setMask (mStashedSets s) in
  if allBound && BoundInfo.eqb UNIQUE_DESCRIPTOR_SET_COUNT (mLastBoundInfo s) nextInfo
  then Done (s, commands, g)
  else
    '(hist, commands, g) ←
      bind_all iterators pipelineLayout (seq 0 UNIQUE_DESCRIPTOR_SET_COUNT)
        (mHistory s) commands g;
    Done (mk (mDescriptorPool s) hist (mStashedSets s) nextInfo, commands, g).

(** [set->acquire(...)] in the two updates below changes the wrapper,
    which the resource allocator owns; it has no part in the manager's
    state. *)
Definition updateBuffer (set : VulkanDescriptorSet) (binding : Z)
    (bufferObject : VulkanBufferObject) (offset size : VkDeviceSize)
    (s : t) (g : Gpu) : outcome (t * Gpu) :=
  let info := {| info_buffer := getGpuBuffer bufferObject;
                 info_offset := offset; info_range := size |} in
  let '(history, hist) := subscript (vkSet set) (mHistory s) in
  bit ← DescriptorSetHistory.shift_one binding;
  let type :=
    if negb (Z.land (Bitmask.dynamicUbo (DescriptorSetHistory.mask history)) bit =? 0)
    then VK_DESCRIPTOR_TYPE_UNIFORM_BUFFER_DYNAMIC
    else VK_DESCRIPTOR_TYPE_UNIFORM_BUFFER in
  let descriptorWrite :=
    {| dstSet := vkSet set; dstBinding := binding; descriptorType := type;
       pBufferInfo := Some info; pImageInfo := None |} in
  let g := record_call (vkUpdateDescriptorSets descriptorWrite) g in
  history ← DescriptorSetHistory.write binding history;
  Done (set_mHistory (<[vkSet set := history]> hist) s, g).

Definition updateSampler (set : VulkanDescriptorSet) (binding : Z)
    (texture : VulkanTexture) (sampler : VkSampler)
    (s : t) (g : Gpu) : outcome (t * Gpu) :=
  let range := getPrimaryViewRange texture in
  let expectedType := getViewType texture in
  let imageView :=
    if usageDepthAttachment texture && (expectedType =? VK_IMAGE_VIEW_TYPE_2D)
    then getAttachmentView texture
    else getViewForType texture in
  let info := {| info_sampler := sampler; info_imageView := imageView;
                 info_imageLayout := getPrimaryVkLayout texture |} in
  let descriptorWrite :=
    {| dstSet := vkSet set; dstBinding := binding;
       descriptorType := VK_DESCRIPTOR_TYPE_COMBINED_IMAGE_SAMPLER;
       pBufferInfo := None; pImageInfo := Some info |} in
  let g := record_call (vkUpdateDescriptorSets descriptorWrite) g in
  let '(history, hist) := subscript (vkSet set) (mHistory s) in
  history ← DescriptorSetHistory.write_texture binding range texture history;
  Done (set_mHistory (<[vkSet set := history]> hist) s, g).

(** The closure handed to the resource allocator by [createSet]. *)
Definition destructionCallback (vkSet : VkDescriptorSet) (count : DescriptorCount.t)
    (layoutMask : Bitmask.t) (s : t) : t :=
  mk (DescriptorInfinitePool.recycle count layoutMask vkSet (mDescriptorPool s))
     (delete vkSet (mHistory s)) (mStashedSets s) (mLastBoundInfo s).

(** [createSet] returns the wrapper that the resource allocator
    constructs for the handle. [emplace] keeps an entry already there. *)
Definition createSet (layout : VulkanDescriptorSetLayout) (s : t) (g : Gpu)
  : outcome (VulkanDescriptorSet * t * Gpu) :=
  '(vkSet, pools, g) ←
    DescriptorInfinitePool.obtainSet fromLayoutBitmask layout (mDescriptorPool s) g;
  let set := {| vkSet := vkSet |} in
  h ← DescriptorSetHistory.create (bitmask layout) (count layout) (vklayout layout) set;
  let hist :=
    match mHistory s !! vkSet with
    | Some _ => mHistory s
    | None => <[vkSet := h]> (mHistory s)
    end in
  Done (set, mk pools hist (mStashedSets s) (mLastBoundInfo s), g).

(** [destroySet] receives the wrapper that [handle_cast] finds for the
    handle. *)
Definition destroySet (set : VulkanDescriptorSet) (s : t) (g : Gpu) : outcome (t * Gpu) :=
  let hist := delete (vkSet set) (mHistory s) in
  let stashed :=
    fold_left
      (λ (stashed : list VkDescriptorSet) i,
         if at_index stashed i =? vkSet set then <[i := VK_NULL_HANDLE]> stashed
         else stashed)
      (seq 0 (length (mStashedSets s))) (mStashedSets s) in
  Done (mk (mDescriptorPool s) hist stashed (mLastBoundInfo s), g).

End WithConstants.
End Impl.

(* ===================================================================== *)
(** ** Sample data *)

Module Sample.

Definition UNIQUE_DESCRIPTOR_SET_COUNT : nat := 4.

(** A layout with one uniform buffer at binding 0. *)
Definition mask_ubo : Bitmask.t := Bitmask.mk 1 0 0 0.
Definition count_ubo : DescriptorCount.t := DescriptorCount.mk 1 0 0 0.
Definition layout_ubo : VulkanDescriptorSetLayout :=
  {| bitmask := mask_ubo; count := count_ubo; vklayout := 100 |}.

(** A layout with one sampler at binding 0. *)
Definition mask_sampler : Bitmask.t := Bitmask.mk 0 0 1 0.
Definition count_sampler : DescriptorCount.t := DescriptorCount.mk 0 0 1 0.
Definition layout_sampler : VulkanDescriptorSetLayout :=
  {| bitmask := mask_sampler; count := count_sampler; vklayout := 101 |}.

(** One tally per bit 0 of each field: enough for the two layouts above. *)
Definition fromLayoutBitmask (m : Bitmask.t) : DescriptorCount.t :=
  DescriptorCount.mk (Z.land (Bitmask.ubo m) 1) (Z.land (Bitmask.dynamicUbo m) 1)
    (Z.land (Bitmask.sampler m) 1) (Z.land (Bitmask.inputAttachment m) 1).

Definition quiet_gpu : Gpu := {| pending := []; issued := [] |}.
Definition gpu_with (answers : list (VkResult * VkDescriptorSet)) : Gpu :=
  {| pending := answers; issued := [] |}.

(** A pool of two sets, one handed out, nothing recycled yet. *)
Definition pool_fresh : DescriptorPool.t :=
  DescriptorPool.mk count_ubo 2 1 0 ∅.
(** The same pool once both sets are out. *)
Definition pool_full : DescriptorPool.t :=
  DescriptorPool.mk count_ubo 2 2 0 ∅.
(** A pool whose free list for [mask_ubo] was filled and emptied again. *)
Definition pool_drained : DescriptorPool.t :=
  DescriptorPool.mk count_ubo 2 1 0 {[ mask_ubo := [] ]}.
(** A pool with two recycled sets. *)
Definition pool_recycled : DescriptorPool.t :=
  DescriptorPool.mk count_ubo 2 2 2 {[ mask_ubo := [41; 42] ]}.
(** A full pool of the initial capacity. *)
Definition pool_ten : DescriptorPool.t :=
  DescriptorPool.mk count_ubo 10 10 0 ∅.

(** A pool grown once, now full too. *)
Definition pool_fifteen : DescriptorPool.t :=
  DescriptorPool.mk count_ubo 15 15 0 ∅.
(** A pool of another shape. *)
Definition pool_other : DescriptorPool.t :=
  DescriptorPool.mk count_sampler 40 3 0 ∅.

(** The history [createSet] makes for a set of [layout_ubo]. *)
Definition history_of (key : Z) : DescriptorSetHistory.t :=
  DescriptorSetHistory.mk true (Some {| vkSet := key |}) [] [] mask_ubo 100 count_ubo
    31 0 false.

Definition no_commit_yet : BoundInfo.t := BoundInfo.mk VK_NULL_HANDLE 0 [0; 0; 0; 0].

(** Set 7 is tracked and stashed at slot 0, set 8 at slot 2; neither is
    bound. *)
Definition two_staged : Impl.t :=
  Impl.mk [] {[ 7 := history_of 7; 8 := history_of 8 ]} [7; 0; 8; 0] no_commit_yet.

(** The state after a commit of [two_staged] with pipeline layout 9 and
    mask 5: both sets are bound. *)
Definition history_bound (key : Z) : DescriptorSetHistory.t :=
  DescriptorSetHistory.mk false (Some {| vkSet := key |}) [] [] mask_ubo 100 count_ubo
    31 0 true.

Definition two_bound : Impl.t :=
  Impl.mk [] {[ 7 := history_bound 7; 8 := history_bound 8 ]} [7; 0; 8; 0]
    (BoundInfo.mk 9 5 [7; 0; 8; 0]).

(** Set 7 is tracked, nothing is stashed. *)
Definition one_tracked : Impl.t :=
  Impl.mk [] {[ 7 := history_of 7 ]} [0; 0; 0; 0] no_commit_yet.

Definition stream : VulkanCommandBuffer := {| buffer := 500; acquired := [] |}.

(** The scenario of the design document: create a set, write binding 0,
    stash it at slot 0, commit, commit again, write again, commit. The
    result is the trace of the calls that reached the driver. *)
Definition scenario : outcome (list VkCall) :=
  '(setA, s, g) ← Impl.createSet fromLayoutBitmask layout_ubo
                    (Impl.init UNIQUE_DESCRIPTOR_SET_COUNT) (gpu_with [(VK_SUCCESS, 7)]);
  '(s, g) ← Impl.updateBuffer setA 0 {| getGpuBuffer := 3 |} 0 64 s g;
  '(s, g) ← Impl.bind 0 setA [] s g;
  '(s, commands, g) ← Impl.commit UNIQUE_DESCRIPTOR_SET_COUNT stream 9 1 s g;
  '(s, commands, g) ← Impl.commit UNIQUE_DESCRIPTOR_SET_COUNT commands 9 1 s g;
  '(s, g) ← Impl.updateBuffer setA 0 {| getGpuBuffer := 3 |} 0 64 s g;
  '(s, commands, g) ← Impl.commit UNIQUE_DESCRIPTOR_SET_COUNT commands 9 1 s g;
  Done (issued g).

(** Create a set, destroy it, let the allocator run the destruction
    callback, create a set of the same layout: the handles of the two
    sets and the number of calls that reached the driver. *)
Definition recycling : outcome (Z * Z * nat) :=
  '(setA, s, g) ← Impl.createSet fromLayoutBitmask layout_ubo
                    (Impl.init UNIQUE_DESCRIPTOR_SET_COUNT) (gpu_with [(VK_SUCCESS, 7)]);
  '(s, g) ← Impl.destroySet setA s g;
  let s := Impl.destructionCallback (vkSet setA) count_ubo mask_ubo s in
  '(setB, s, g) ← Impl.createSet fromLayoutBitmask layout_ubo s g;
  Done (vkSet setA, vkSet setB, length (issued g)).

(** A full pool of the capacity reached after 21 growths. *)
Definition pool_huge : DescriptorPool.t :=
  DescriptorPool.mk count_ubo 52596 52596 0 ∅.

(** The capacities of the pools of one shape as [obtainSet] makes them:
    the initial 10, then each time one and a half times the largest. *)
Definition grown_capacities : list Z :=
  [10; 15; 23; 35; 53; 80; 120; 180; 270; 405; 608; 912; 1368; 2052; 3078; 4617;
   6926; 10389; 15584; 23376; 35064; 52596].

(** The pools of [layout_ubo] once 157761 sets have been obtained and
    none recycled: each pool has handed out all its sets. *)
Definition grown_pools : list DescriptorPool.t :=
  (λ capacity, DescriptorPool.mk count_ubo capacity capacity 0 ∅) <$> grown_capacities.

End Sample.

(* ===================================================================== *)
(** ** Vocabulary of the statements *)

(** The pool has nothing to give for this layout: its free list for the
    mask is there but empty, or there is none and every set is out. *)
Definition exhausted (layout : VulkanDescriptorSetLayout) (p : DescriptorPool.t) : bool :=
  match DescriptorPool.mUnused p !! bitmask layout with
  | Some sets => bool_decide (sets = [])
  | None => DescriptorPool.mCapacity p <=? DescriptorPool.mSize p
  end.

(** The largest capacity among the pools of a shape, if there is one. *)
Definition largest_capacity (count : DescriptorCount.t) (pools : list DescriptorPool.t)
  : option Z :=
  match DescriptorPool.capacity <$> List.filter (DescriptorPool.canAllocate count) pools with
  | [] => None
  | c :: cs => Some (fold_left Z.max cs c)
  end.

(** [ceil(capacity * 1.5)]. *)
Definition ceil_grow (capacity : Z) : Z :=
  Qceiling (inject_Z capacity * DescriptorInfinitePool.SET_COUNT_GROWTH_FACTOR).

(** The counters of a pool are within their 16 bits and the allocated
    count within the capacity. *)
Definition pool_in_range (p : DescriptorPool.t) : Prop :=
  0 ≤ DescriptorPool.mSize p ≤ DescriptorPool.mCapacity p
  ∧ DescriptorPool.mCapacity p ≤ UINT16_MAX.

(** What [DescriptorSetHistory::bind] leaves of a history. *)
Definition mark_bound (h : DescriptorSetHistory.t) : DescriptorSetHistory.t :=
  DescriptorSetHistory.mk false (DescriptorSetHistory.mSet h)
    (DescriptorSetHistory.mTextures h) (DescriptorSetHistory.mOffsets h)
    (DescriptorSetHistory.mMask h) (DescriptorSetHistory.mLayout h)
    (DescriptorSetHistory.mCount h) (DescriptorSetHistory.mMaxIndex h)
    (DescriptorSetHistory.mWritten h) true.

(** What a bind command reads of the history under a key: the wrapper,
    the number of dynamic buffers and the offsets. *)
Definition bind_view (hist : gmap Z DescriptorSetHistory.t) (key : Z)
  : option (option VulkanDescriptorSet * Z * list Z) :=
  (λ h, (DescriptorSetHistory.mSet h,
         DescriptorCount.dynamicUbo (DescriptorSetHistory.mCount h),
         DescriptorSetHistory.mOffsets h)) <$> hist !! key.

(** The history under the key can be bound: it is there and its wrapper
    is not null. *)
Definition bindable (hist : gmap Z DescriptorSetHistory.t) (key : Z) : bool :=
  match bind_view hist key with
  | Some (Some _, _, _) => true
  | _ => false
  end.

(** The command that binds, at slot [i], the set tracked under [key]. *)
Definition bind_call (cmdbuffer : Z) (pipelineLayout : Z)
    (hist : gmap Z DescriptorSetHistory.t) (target : nat * Z) : VkCall :=
  match bind_view hist target.2 with
  | Some (Some set, dynamicUbo, offsets) =>
      vkCmdBindDescriptorSets cmdbuffer pipelineLayout (Z.of_nat target.1)
        (vkSet set) dynamicUbo offsets
  | _ =>
      vkCmdBindDescriptorSets cmdbuffer pipelineLayout (Z.of_nat target.1)
        VK_NULL_HANDLE 0 []
  end.

(** The wrapper acquired by the command stream with that command. *)
Definition bind_acquired (hist : gmap Z DescriptorSetHistory.t) (target : nat * Z)
  : VulkanDescriptorSet :=
  match bind_view hist target.2 with
  | Some (Some set, _, _) => set
  | _ => {| vkSet := VK_NULL_HANDLE |}
  end.

(** The slots of [slots] that hold an iterator, each with its key. *)
Definition targets (iterators : list (option Z)) (slots : list nat) : list (nat * Z) :=
  omap (λ i, (λ key, (i, key)) <$> default None (iterators !! i)) slots.

(** The histories after binding the targets. *)
Definition bound_after (tgts : list (nat * Z)) (hist : gmap Z DescriptorSetHistory.t)
  : gmap Z DescriptorSetHistory.t :=
  foldl (λ m target, alter mark_bound target.2 m) hist tgts.

(** Every tracked history belongs to the wrapper of its key, as
    [createSet] makes them. *)
Definition wired (s : Impl.t) : Prop :=
  map_Forall (λ key h, DescriptorSetHistory.mSet h = Some {| vkSet := key |})
    (Impl.mHistory s).

(** The set stashed at slot [i]. *)
Definition staged (s : Impl.t) (i : nat) : Z := at_index (Impl.mStashedSets s) i.

(** Slot [i] is active in the mask and the history of its staged set
    reports [bound == false]. *)
Definition needs_bind (setMask : Z) (s : Impl.t) (i : nat) : bool :=
  mask_bit setMask i
  && match Impl.mHistory s !! staged s i with
     | Some h => negb (DescriptorSetHistory.bound h)
     | None => false
     end.

(** The command that binds, at slot [i], the set stashed there, with the
    dynamic-buffer count and the offsets of its history. *)
Definition slot_bind (cmdbuffer : Z) (pipelineLayout : Z) (s : Impl.t) (i : nat)
  : VkCall :=
  let h := default DescriptorSetHistory.default (Impl.mHistory s !! staged s i) in
  vkCmdBindDescriptorSets cmdbuffer pipelineLayout (Z.of_nat i) (staged s i)
    (DescriptorCount.dynamicUbo (DescriptorSetHistory.mCount h))
    (DescriptorSetHistory.mOffsets h).

(** The descriptor write of [updateBuffer], for the history [h] found
    under the handle of the set and a binding below 64. *)
Definition buffer_write (set : VulkanDescriptorSet) (binding : Z)
    (bufferObject : VulkanBufferObject) (offset size : Z)
    (h : DescriptorSetHistory.t) : VkWriteDescriptorSet :=
  {| dstSet := vkSet set; dstBinding := binding;
     descriptorType :=
       if negb (Z.land (Bitmask.dynamicUbo (DescriptorSetHistory.mask h))
                  (Z.shiftl 1 binding) =? 0)
       then VK_DESCRIPTOR_TYPE_UNIFORM_BUFFER_DYNAMIC
       else VK_DESCRIPTOR_TYPE_UNIFORM_BUFFER;
     pBufferInfo := Some {| info_buffer := getGpuBuffer bufferObject;
                            info_offset := offset; info_range := size |};
     pImageInfo := None |}.

(** What [destroySet] makes of a stashed handle. *)
Definition clear_slot (destroyed : Z) (stashed : Z) : Z :=
  if stashed =? destroyed then VK_NULL_HANDLE else stashed.

(** The calls of the manager that change what a set shows: a write of a
    binding, or new dynamic offsets, which reach the history through
    [bind]. *)
Inductive mutation : Type :=
| UpdateBuffer (binding : Z) (bufferObject : VulkanBufferObject) (offset size : Z)
| UpdateSampler (binding : Z) (texture : VulkanTexture) (sampler : Z)
| SetOffsets (setIndex : nat) (offsets : list Z).

Definition mutate (m : mutation) (set : VulkanDescriptorSet) (s : Impl.t) (g : Gpu)
  : outcome (Impl.t * Gpu) :=
  match m with
  | UpdateBuffer binding bufferObject offset size =>
      Impl.updateBuffer set binding bufferObject offset size s g
  | UpdateSampler binding texture sampler =>
      Impl.updateSampler set binding texture sampler s g
  | SetOffsets setIndex offsets => Impl.bind setIndex set offsets s g
  end.

Section WithSetCount.
Context (UNIQUE_DESCRIPTOR_SET_COUNT : nat).

(** The slots a commit has to bind, in increasing order. *)
Definition dirty_slots (setMask : Z) (s : Impl.t) : list nat :=
  List.filter (needs_bind setMask s) (seq 0 UNIQUE_DESCRIPTOR_SET_COUNT).

(** The commit is skipped: no active slot needs a bind and pipeline
    layout, mask and stashed sets are those of the last commit. *)
Definition is_noop (pipelineLayout : Z) (setMask : Z) (s : Impl.t) : bool :=
  forallb (λ i, negb (needs_bind setMask s i)) (seq 0 UNIQUE_DESCRIPTOR_SET_COUNT)
  && BoundInfo.eqb UNIQUE_DESCRIPTOR_SET_COUNT (Impl.mLastBoundInfo s)
       (BoundInfo.mk pipelineLayout setMask (Impl.mStashedSets s)).

End WithSetCount.

#[global] Instance wired_dec (s : Impl.t) : Decision (wired s).
Proof. unfold wired. apply _. Defined.

(** Closing a closed decidable goal by evaluation. *)
Ltac by_decision :=
  match goal with |- ?P => apply (bool_decide_unpack P); vm_compute; exact I end.

(** Closing a closed goal by evaluation. *)
Ltac by_computation :=
  vm_compute; intros; first [ reflexivity | discriminate | lia ].

(* ===================================================================== *)
(** ** Further vocabulary *)

(** The number of handles waiting in the free lists of a pool. *)
Definition free_total (m : gmap Bitmask.t (list Z)) : Z :=
  map_fold (λ _ (sets : list Z) acc, Z.of_nat (length sets) + acc) 0 m.

(** [mUnusedCount] counts the handles of the free lists. *)
Definition counted (p : DescriptorPool.t) : Prop :=
  DescriptorPool.mUnusedCount p = free_total (DescriptorPool.mUnused p).

(** The capacity of a pool is at least the initial one and fits its 16
    bits, and the allocated count is within the capacity. *)
Definition pool_sound (p : DescriptorPool.t) : Prop :=
  DescriptorInfinitePool.EXPECTED_SET_COUNT ≤ DescriptorPool.mCapacity p
  ∧ pool_in_range p.

(** The pool [p'] is the pool [p] later on: same shape, same capacity. *)
Definition same_pool (p p' : DescriptorPool.t) : Prop :=
  DescriptorPool.mCount p' = DescriptorPool.mCount p
  ∧ DescriptorPool.mCapacity p' = DescriptorPool.mCapacity p.

(** Every handle stashed in a slot is null or tracked. *)
Definition stash_tracked (s : Impl.t) : Prop :=
  ∀ (i : nat) (x : Z),
    Impl.mStashedSets s !! i = Some x → x ≠ VK_NULL_HANDLE →
    is_Some (Impl.mHistory s !! x).

(** The call is a bind command. *)
Definition is_bind_call (c : VkCall) : Prop :=
  match c with
  | vkCmdBindDescriptorSets _ _ _ _ _ _ => True
  | _ => False
  end.

(* ===================================================================== *)
(** ** [VulkanSwapChain] *)

Module VulkanSwapChain.

(** The results the platform can answer to the swap chain. *)
Inductive VkResult : Type :=
| VK_SUCCESS
| VK_NOT_READY
| VK_TIMEOUT
| VK_SUBOPTIMAL_KHR
| VK_ERROR_OUT_OF_DATE_KHR
| VK_ERROR_SURFACE_LOST_KHR
| VK_ERROR_DEVICE_LOST.

Inductive TextureUsage : Type := COLOR_ATTACHMENT | DEPTH_ATTACHMENT.

(** [VulkanPlatform::SwapChainBundle]: what the platform provides for a
    swap chain. *)
Record SwapChainBundle : Type := {
  colors : list Z;
  depth : Z;
  colorFormat : Z;
  depthFormat : Z;
  extent : Z * Z;
}.

(** The calls the swap chain makes on its collaborators. *)
Inductive Call : Type :=
| PlatformCreateSwapChain (nativeWindow flags : Z) (extent : Z * Z)
| VkCreateSemaphore
| PlatformGetSwapChainBundle (swapChain : Z)
| NewTexture (image format width height : Z) (usage : TextureUsage)
| CommandsFlush
| CommandsWait
| PlatformDestroy (swapChain : Z)
| VkDestroySemaphore (semaphore : Z)
| TransitionLayoutPresent (image : Z)
| CommandsAcquireFinishedSignal
| PlatformPresent (swapChain : Z) (index : nat) (finishedDrawing : Z)
| PlatformHasResized (swapChain : Z)
| PlatformRecreate (swapChain : Z)
| PlatformAcquire (swapChain : Z) (imageReady : Z)
| CommandsInjectDependency (semaphore : Z).

(** Modelled from the spec: the platform, the driver and the command
    queue are external collaborators ("window/swapchain acquisition and
    presentation"). Each list holds what they will answer to the coming
    calls of one kind; [calls] is the trace of the calls made so far. *)
Record World : Type := {
  swapChains : list Z;
  semaphores : list (VkResult * Z);
  bundles : list SwapChainBundle;
  resizes : list bool;
  acquires : list (VkResult * nat);
  presents : list VkResult;
  signals : list Z;
  calls : list Call;
}.

Definition emit (c : Call) (w : World) : World :=
  {| swapChains := swapChains w; semaphores := semaphores w; bundles := bundles w;
     resizes := resizes w; acquires := acquires w; presents := presents w;
     signals := signals w; calls := calls w ++ [c] |}.

Definition empty_bundle : SwapChainBundle :=
  {| colors := []; depth := 0; colorFormat := 0; depthFormat := 0; extent := (0, 0) |}.

Definition createSwapChain (nativeWindow flags : Z) (extent : Z * Z) (w : World)
  : Z * World :=
  let w := emit (PlatformCreateSwapChain nativeWindow flags extent) w in
  (hd 0 (swapChains w),
   {| swapChains := tl (swapChains w); semaphores := semaphores w; bundles := bundles w;
      resizes := resizes w; acquires := acquires w; presents := presents w;
      signals := signals w; calls := calls w |}).

Definition vkCreateSemaphore (w : World) : VkResult * Z * World :=
  let w := emit VkCreateSemaphore w in
  (hd (VK_ERROR_DEVICE_LOST, 0) (semaphores w),
   {| swapChains := swapChains w; semaphores := tl (semaphores w); bundles := bundles w;
      resizes := resizes w; acquires := acquires w; presents := presents w;
      signals := signals w; calls := calls w |}).

Definition getSwapChainBundle (swapChain : Z) (w : World) : SwapChainBundle * World :=
  let w := emit (PlatformGetSwapChainBundle swapChain) w in
  (hd empty_bundle (bundles w),
   {| swapChains := swapChains w; semaphores := semaphores w; bundles := tl (bundles w);
      resizes := resizes w; acquires := acquires w; presents := presents w;
      signals := signals w; calls := calls w |}).

Definition hasResized (swapChain : Z) (w : World) : bool * World :=
  let w := emit (PlatformHasResized swapChain) w in
  (hd false (resizes w),
   {| swapChains := swapChains w; semaphores := semaphores w; bundles := bundles w;
      resizes := tl (resizes w); acquires := acquires w; presents := presents w;
      signals := signals w; calls := calls w |}).

Definition platform_acquire (swapChain imageReady : Z) (w : World)
  : VkResult * nat * World :=
  let w := emit (PlatformAcquire swapChain imageReady) w in
  (hd (VK_ERROR_DEVICE_LOST, 0%nat) (acquires w),
   {| swapChains := swapChains w; semaphores := semaphores w; bundles := bundles w;
      resizes := resizes w; acquires := tl (acquires w); presents := presents w;
      signals := signals w; calls := calls w |}).

Definition platform_present (swapChain : Z) (index : nat) (finishedDrawing : Z)
    (w : World) : VkResult * World :=
  let w := emit (PlatformPresent swapChain index finishedDrawing) w in
  (hd VK_ERROR_DEVICE_LOST (presents w),
   {| swapChains := swapChains w; semaphores := semaphores w; bundles := bundles w;
      resizes := resizes w; acquires := acquires w; presents := tl (presents w);
      signals := signals w; calls := calls w |}).

Definition acquireFinishedSignal (w : World) : Z * World :=
  let w := emit CommandsAcquireFinishedSignal w in
  (hd 0 (signals w),
   {| swapChains := swapChains w; semaphores := semaphores w; bundles := bundles w;
      resizes := resizes w; acquires := acquires w; presents := presents w;
      signals := tl (signals w); calls := calls w |}).

Record t : Type := mk {
  mHeadless : bool;
  mFlushAndWaitOnResize : bool;
  mCurrentImageReadyIndex : nat;
  mAcquired : bool;
  mIsFirstRenderPass : bool;
  swapChain : Z;
  mImageReady : list Z;                         (* VkSemaphore[COUNT] *)
  mColors : list Z;                             (* the image of each texture *)
  mDepth : Z;
  mExtent : Z * Z;
  mCurrentSwapIndex : nat;
}.

(** [update()]: the textures are made anew from the bundle. *)
Definition update (sc : t) (w : World) : t * World :=
  let '(bundle, w) := getSwapChainBundle (swapChain sc) w in
  let w :=
    fold_left
      (λ w color,
         emit (NewTexture color (colorFormat bundle) (extent bundle).1 (extent bundle).2
                 COLOR_ATTACHMENT) w)
      (colors bundle) w in
  let w := emit (NewTexture (depth bundle) (depthFormat bundle) (extent bundle).1
                   (extent bundle).2 DEPTH_ATTACHMENT) w in
  (mk (mHeadless sc) (mFlushAndWaitOnResize sc) (mCurrentImageReadyIndex sc)
      (mAcquired sc) (mIsFirstRenderPass sc) (swapChain sc) (mImageReady sc)
      (colors bundle) (depth bundle) (extent bundle) (mCurrentSwapIndex sc),
   w).

Section WithSemaphoreCount.

(** [IMAGE_READY_SEMAPHORE_COUNT] is declared in a header that is not
    part of the sources; it is a parameter. *)
Context (IMAGE_READY_SEMAPHORE_COUNT : nat).

(** The loop of the constructor that creates the semaphores. *)
Fixpoint create_semaphores (n : nat) (w : World) : outcome (list Z * World) :=
  match n with
  | O => Done ([], w)
  | S n =>
      let '(result, semaphore, w) := vkCreateSemaphore w in
      match result with
      | VK_SUCCESS =>
          '(rest, w) ← create_semaphores n w;
          Done (semaphore :: rest, w)
      | _ => Abort PostconditionPanic
      end
  end.

(** The constructor. [mCurrentSwapIndex] has no initialiser; it is taken
    as 0. *)
Definition create (flushAndWaitOnWindowResize : bool) (nativeWindow flags : Z)
    (extent : Z * Z) (w : World) : outcome (t * World) :=
  let headless :=
    negb (extent.1 =? 0) && negb (extent.2 =? 0) && (nativeWindow =? 0) in
  let '(handle, w) := createSwapChain nativeWindow flags extent w in
  if handle =? 0 then Abort PostconditionPanic
  else
    '(ready, w) ←
      (if headless then Done (replicate IMAGE_READY_SEMAPHORE_COUNT VK_NULL_HANDLE, w)
       else create_semaphores IMAGE_READY_SEMAPHORE_COUNT w);
    Done (update (mk headless flushAndWaitOnWindowResize 0 false true handle ready
                    [] 0 (0, 0) 0) w).

(** The destructor: what it asks of its collaborators. *)
Definition destroy (sc : t) (w : World) : World :=
  let w := emit CommandsFlush w in
  let w := emit CommandsWait w in
  let w := emit (PlatformDestroy (swapChain sc)) w in
  fold_left
    (λ w semaphore,
       if semaphore =? VK_NULL_HANDLE then w else emit (VkDestroySemaphore semaphore) w)
    (take IMAGE_READY_SEMAPHORE_COUNT (mImageReady sc)) w.

Definition present (sc : t) (w : World) : outcome (t * World) :=
  w ←
    (if negb (mHeadless sc) then
       match mColors sc !! mCurrentSwapIndex sc with
       | Some image => Done (emit (TransitionLayoutPresent image) w)
       | None => Abort UndefinedBehaviour
       end
     else Done w);
  let w := emit CommandsFlush w in
  w ←
    (if negb (mHeadless sc) then
       let '(finishedDrawing, w) := acquireFinishedSignal w in
       let '(result, w) :=
         platform_present (swapChain sc) (mCurrentSwapIndex sc) finishedDrawing w in
       match result with
       | VK_SUCCESS | VK_SUBOPTIMAL_KHR | VK_ERROR_OUT_OF_DATE_KHR => Done w
       | _ => Abort PostconditionPanic
       end
     else Done w);
  Done (mk (mHeadless sc) (mFlushAndWaitOnResize sc) (mCurrentImageReadyIndex sc)
           false true (swapChain sc) (mImageReady sc) (mColors sc) (mDepth sc)
           (mExtent sc) (mCurrentSwapIndex sc), w).

(** [acquire(bool& resized)]: the caller's [resized] goes in and comes
    out. *)
Definition acquire (resized : bool) (sc : t) (w : World) : outcome (t * bool * World) :=
  if mAcquired sc then Done (sc, resized, w)
  else
    let '(resized, w) := hasResized (swapChain sc) w in
    let '(sc, w) :=
      if resized then
        let w :=
          if mFlushAndWaitOnResize sc then emit CommandsWait (emit CommandsFlush w)
          else w in
        let w := emit (PlatformRecreate (swapChain sc)) w in
        update sc w
      else (sc, w) in
    let index := ((mCurrentImageReadyIndex sc + 1) mod IMAGE_READY_SEMAPHORE_COUNT)%nat in
    match mImageReady sc !! index with
    | None => Abort UndefinedBehaviour
    | Some imageReady =>
        let '(result, swapIndex, w) := platform_acquire (swapChain sc) imageReady w in
        match result with
        | VK_SUCCESS | VK_SUBOPTIMAL_KHR =>
            let w :=
              if negb (imageReady =? VK_NULL_HANDLE)
              then emit (CommandsInjectDependency imageReady) w else w in
            Done (mk (mHeadless sc) (mFlushAndWaitOnResize sc) index true
                     (mIsFirstRenderPass sc) (swapChain sc) (mImageReady sc)
                     (mColors sc) (mDepth sc) (mExtent sc) swapIndex,
                  resized, w)
        | _ => Abort PostconditionPanic
        end
    end.

End WithSemaphoreCount.
End VulkanSwapChain.

(** The swap chain has its array of semaphores, and the index of the
    current one is within it. *)
Definition swapchain_sound (count : nat) (sc : VulkanSwapChain.t) : Prop :=
  length (VulkanSwapChain.mImageReady sc) = count
  ∧ (VulkanSwapChain.mCurrentImageReadyIndex sc < count)%nat.

(** The call presents an image, moves one to the present layout, or
    creates, destroys, signals or waits on a semaphore. *)
Definition is_presentation (c : VulkanSwapChain.Call) : bool :=
  match c with
  | VulkanSwapChain.PlatformPresent _ _ _
  | VulkanSwapChain.TransitionLayoutPresent _
  | VulkanSwapChain.CommandsAcquireFinishedSignal
  | VulkanSwapChain.CommandsInjectDependency _
  | VulkanSwapChain.VkCreateSemaphore
  | VulkanSwapChain.VkDestroySemaphore _ => true
  | _ => false
  end.

Module SwapSample.
Import VulkanSwapChain.

Definition COUNT : nat := 3.

Definition bundle : SwapChainBundle :=
  {| colors := [31; 32]; depth := 33; colorFormat := 44; depthFormat := 126;
     extent := (640, 480) |}.

(** A platform that answers one round of calls. *)
Definition world : World :=
  {| swapChains := [11];
     semaphores := [(VK_SUCCESS, 21); (VK_SUCCESS, 22); (VK_SUCCESS, 23)];
     bundles := [bundle]; resizes := [false]; acquires := [(VK_SUCCESS, 1%nat)];
     presents := [VK_ERROR_OUT_OF_DATE_KHR]; signals := [41]; calls := [] |}.

(** A platform whose swap chain is out of date. *)
Definition stale_world : World :=
  {| swapChains := []; semaphores := []; bundles := []; resizes := [false];
     acquires := [(VK_ERROR_OUT_OF_DATE_KHR, 0%nat)];
     presents := [VK_ERROR_OUT_OF_DATE_KHR]; signals := [41]; calls := [] |}.

(** A swap chain on a window, as the constructor leaves it. *)
Definition windowed : t :=
  mk false true 0 false true 11 [21; 22; 23] [31; 32] 33 (640, 480) 0.

(** A headless swap chain. *)
Definition headless : t :=
  mk true true 0 false true 11 [0; 0; 0] [31; 32] 33 (640, 480) 0.

End SwapSample.

(** The first part of [VulkanSwapChain::acquire] on a chain that has not
    acquired: the platform is asked whether the window was resized and, if
    so, the swap chain is recreated. *)
Definition acquire_prepare (sc : VulkanSwapChain.t) (w : VulkanSwapChain.World)
  : VulkanSwapChain.t * bool * VulkanSwapChain.World :=
  let '(resized, w) := VulkanSwapChain.hasResized (VulkanSwapChain.swapChain sc) w in
  let '(sc, w) :=
    if resized then
      let w :=
        if VulkanSwapChain.mFlushAndWaitOnResize sc
        then VulkanSwapChain.emit VulkanSwapChain.CommandsWait
               (VulkanSwapChain.emit VulkanSwapChain.CommandsFlush w)
        else w in
      let w := VulkanSwapChain.emit
                 (VulkanSwapChain.PlatformRecreate (VulkanSwapChain.swapChain sc)) w in
      VulkanSwapChain.update sc w
    else (sc, w) in
  (sc, resized, w).

(** The calls in [more] keep away from presentation and semaphores. *)
Definition quiet (more : list VulkanSwapChain.Call) : Prop :=
  Forall (λ c, is_presentation c = false) more.

(* ===================================================================== *)
(** ** The engine's descriptor-set layouts and names (DescriptorSets.cpp) *)

(** [DescriptorSetBindingPoints]: the enumerators the sources name; the
    switch of [getDescriptorName] has one case for each and no default. *)
Inductive DescriptorSetBindingPoints : Type :=
| PER_VIEW
| PER_RENDERABLE
| PER_MATERIAL.

#[global] Instance DescriptorSetBindingPoints_eq_dec : EqDecision DescriptorSetBindingPoints.
Proof. solve_decision. Defined.

Module DescriptorSets.

Inductive DescriptorType : Type := UNIFORM_BUFFER | SAMPLER.

Inductive ShaderStageFlags : Type := VERTEX | FRAGMENT | VERTEX_FRAGMENT.

Inductive DescriptorFlags : Type := NONE | DYNAMIC_OFFSET.

Inductive PerViewBindingPoints : Type :=
| FRAME_UNIFORMS | LIGHTS | SHADOWS | RECORD_BUFFER | FROXEL_BUFFER | SHADOW_MAP
| IBL_DFG_LUT | IBL_SPECULAR | SSAO | SSR | STRUCTURE | FOG.

Inductive PerRenderableBindingPoints : Type :=
| OBJECT_UNIFORMS | BONES_UNIFORMS | MORPHING_UNIFORMS | MORPH_TARGET_POSITIONS
| MORPH_TARGET_TANGENTS | BONES_INDICES_AND_WEIGHTS.

(** One entry of a [backend::DescriptorSetLayout]. The binding is kept as
    the enumerator the source writes: the numbers behind the enumerators
    are in a header that is not part of these sources. *)
Record DescriptorSetLayoutBinding (B : Type) : Type := Binding {
  type : DescriptorType;
  stageFlags : ShaderStageFlags;
  binding : B;
  flags : DescriptorFlags;
  count : Z;
}.

Arguments Binding {B} _ _ _ _ _.
Arguments type {B} _.
Arguments stageFlags {B} _.
Arguments binding {B} _.
Arguments flags {B} _.
Arguments count {B} _.

Definition postProcessDescriptorSetLayout
  : list (DescriptorSetLayoutBinding PerViewBindingPoints) :=
  [ Binding UNIFORM_BUFFER VERTEX_FRAGMENT FRAME_UNIFORMS NONE 0 ].

Definition depthVariantDescriptorSetLayout
  : list (DescriptorSetLayoutBinding PerViewBindingPoints) :=
  [ Binding UNIFORM_BUFFER VERTEX_FRAGMENT FRAME_UNIFORMS NONE 0 ].

Definition ssrVariantDescriptorSetLayout
  : list (DescriptorSetLayoutBinding PerViewBindingPoints) :=
  [ Binding UNIFORM_BUFFER VERTEX_FRAGMENT FRAME_UNIFORMS NONE 0;
    Binding SAMPLER FRAGMENT SSR NONE 0;
    Binding SAMPLER FRAGMENT STRUCTURE NONE 0 ].

Definition perViewDescriptorSetLayout
  : list (DescriptorSetLayoutBinding PerViewBindingPoints) :=
  [ Binding UNIFORM_BUFFER VERTEX_FRAGMENT FRAME_UNIFORMS NONE 0;
    Binding UNIFORM_BUFFER VERTEX_FRAGMENT LIGHTS NONE 0;
    Binding UNIFORM_BUFFER VERTEX_FRAGMENT SHADOWS NONE 0;
    Binding UNIFORM_BUFFER VERTEX_FRAGMENT RECORD_BUFFER NONE 0;
    Binding UNIFORM_BUFFER VERTEX_FRAGMENT FROXEL_BUFFER NONE 0;
    Binding SAMPLER FRAGMENT SHADOW_MAP NONE 0;
    Binding SAMPLER FRAGMENT IBL_DFG_LUT NONE 0;
    Binding SAMPLER FRAGMENT IBL_SPECULAR NONE 0;
    Binding SAMPLER FRAGMENT SSAO NONE 0;
    Binding SAMPLER FRAGMENT SSR NONE 0;
    Binding SAMPLER FRAGMENT STRUCTURE NONE 0;
    Binding SAMPLER FRAGMENT FOG NONE 0 ].

Definition perRenderableDescriptorSetLayout
  : list (DescriptorSetLayoutBinding PerRenderableBindingPoints) :=
  [ Binding UNIFORM_BUFFER VERTEX_FRAGMENT OBJECT_UNIFORMS DYNAMIC_OFFSET 0;
    Binding UNIFORM_BUFFER VERTEX_FRAGMENT BONES_UNIFORMS DYNAMIC_OFFSET 0;
    Binding UNIFORM_BUFFER VERTEX_FRAGMENT MORPHING_UNIFORMS NONE 0;
    Binding SAMPLER VERTEX MORPH_TARGET_POSITIONS NONE 0;
    Binding SAMPLER VERTEX MORPH_TARGET_TANGENTS NONE 0;
    Binding SAMPLER VERTEX BONES_INDICES_AND_WEIGHTS NONE 0 ].

(** The two tables of names local to [getDescriptorName]. *)
Definition set0 : list string :=
  [ "FrameUniforms"; "LightsUniforms"; "ShadowUniforms"; "FroxelRecordUniforms";
    "FroxelsUniforms"; "sampler0_shadowMap"; "sampler0_iblDFG";
    "sampler0_iblSpecular"; "sampler0_ssao"; "sampler0_ssr";
    "sampler0_structure"; "sampler0_fog" ]%string.

Definition set1 : list string :=
  [ "ObjectUniforms"; "BonesUniforms"; "MorphingUniforms"; "sampler1_positions";
    "sampler1_tangents"; "sampler1_indicesAndWeights" ]%string.

(** Reading a C array: outside of it the behaviour is undefined. *)
Definition array_at (names : list string) (index : Z) : outcome string :=
  match names !! Z.to_nat index with
  | Some s => Done s
  | None => Abort UndefinedBehaviour
  end.

(** [getDescriptorName(set, binding)]; [binding] is unsigned. *)
Definition getDescriptorName (set : DescriptorSetBindingPoints) (binding : Z)
  : outcome string :=
  match set with
  | PER_VIEW =>
      _ ← assert_invariant
            (bool_decide (binding < Z.of_nat (length perViewDescriptorSetLayout)));
      array_at set0 binding
  | PER_RENDERABLE =>
      _ ← assert_invariant
            (bool_decide (binding < Z.of_nat (length perRenderableDescriptorSetLayout)));
      array_at set1 binding
  | PER_MATERIAL =>
      _ ← assert_invariant (bool_decide (binding < 1));
      Done "MaterialParams"%string
  end.

End DescriptorSets.

(* ===================================================================== *)
(** ** [SamplerBindingMap] *)

Module SamplerBindingMap.

Inductive MaterialDomain : Type := SURFACE | POST_PROCESS | COMPUTE.

(** What [init] reads of an entry of a sampler interface block. *)
Record SamplerInfo : Type := {
  binding : Z;
  uniformName : string;
}.

(** What [init] reads of a [SamplerInterfaceBlock]. *)
Record SamplerInterfaceBlock : Type := {
  getStageFlags : Z;
  getSamplerInfoList : list SamplerInfo;
}.

(** [SamplerBindingToNameMap]: from the pair of set and binding to the
    name of the sampler. *)
Abbreviation SamplerBindingToNameMap := (gmap (Z * Z) string) (only parsing).

(** How [init] ends: it returns, or [assert_invariant] fails, or
    [ASSERT_PRECONDITION] panics with its message. *)
Inductive checked (A : Type) : Type :=
| Ready (a : A)
| AssertInvariant
| PreconditionPanic (message : string).

Arguments Ready {A} a.
Arguments AssertInvariant {A}.
Arguments PreconditionPanic {A} message.

#[global] Instance checked_ret : MRet checked := λ A a, Ready a.

#[global] Instance checked_bind : MBind checked := λ A B k m,
  match m with
  | Ready a => k a
  | AssertInvariant => AssertInvariant
  | PreconditionPanic message => PreconditionPanic message
  end.

Definition size_t (x : Z) : Z := x mod 2 ^ 64.

(** [any(flags & stage)] on the bits of the stage flags. *)
Definition any_stage (flags stage : Z) : bool := negb (Z.land flags stage =? 0).

(** The body of the loop over the samplers of a group: the key must be
    new, and then gets the name. *)
Definition insert_sampler (set : Z) (m : SamplerBindingToNameMap)
    (info : SamplerInfo) : checked SamplerBindingToNameMap :=
  match m !! (set, binding info) with
  | Some _ => AssertInvariant
  | None => Ready (<[(set, binding info) := uniformName info]> m)
  end.

Fixpoint insert_samplers (set : Z) (m : SamplerBindingToNameMap)
    (list : list SamplerInfo) : checked SamplerBindingToNameMap :=
  match list with
  | [] => Ready m
  | info :: rest =>
      m ← insert_sampler set m info;
      insert_samplers set m rest
  end.

Section WithEngine.

(** What the engine gives: the blocks of [SibGenerator::getSib] (a null
    pointer is [None]), the number behind each enumerator (the unary [+]),
    the bits of the two stages, and the limits on the sampler counts. *)
Context (getSib : DescriptorSetBindingPoints → option SamplerInterfaceBlock)
        (set_value : DescriptorSetBindingPoints → Z)
        (VERTEX FRAGMENT : Z)
        (MAX_SAMPLER_COUNT MAX_VERTEX_SAMPLER_COUNT MAX_FRAGMENT_SAMPLER_COUNT : Z).

(** The state of [init]: the map and the two counters the lambda
    captures by reference. *)
Record Counting : Type := {
  mSamplerNamesBindingMap : SamplerBindingToNameMap;
  vertexSamplerCount : Z;
  fragmentSamplerCount : Z;
}.

(** The lambda [processSamplerGroup] of [init]. *)
Definition processSamplerGroup (perMaterialSib : SamplerInterfaceBlock)
    (set : DescriptorSetBindingPoints) (st : Counting) : checked Counting :=
  let sib :=
    if decide (set = PER_MATERIAL) then Some perMaterialSib else getSib set in
  match sib with
  | Some sib =>
      let stageFlags := getStageFlags sib in
      let list := getSamplerInfoList sib in
      let samplerCount := Z.of_nat (length list) in
      let vertex :=
        if any_stage stageFlags VERTEX
        then size_t (vertexSamplerCount st + samplerCount)
        else vertexSamplerCount st in
      let fragment :=
        if any_stage stageFlags FRAGMENT
        then size_t (fragmentSamplerCount st + samplerCount)
        else fragmentSamplerCount st in
      m ← insert_samplers (set_value set) (mSamplerNamesBindingMap st) list;
      Ready {| mSamplerNamesBindingMap := m;
               vertexSamplerCount := vertex;
               fragmentSamplerCount := fragment |}
  | None => Ready st
  end.

(** [SamplerBindingMap::init] on a map [m]. *)
Definition init (materialDomain : MaterialDomain)
    (perMaterialSib : SamplerInterfaceBlock) (m : SamplerBindingToNameMap)
  : checked SamplerBindingToNameMap :=
  let st := {| mSamplerNamesBindingMap := m;
               vertexSamplerCount := 0; fragmentSamplerCount := 0 |} in
  st ← match materialDomain with
       | SURFACE =>
           st ← processSamplerGroup perMaterialSib PER_VIEW st;
           st ← processSamplerGroup perMaterialSib PER_RENDERABLE st;
           processSamplerGroup perMaterialSib PER_MATERIAL st
       | POST_PROCESS | COMPUTE =>
           processSamplerGroup perMaterialSib PER_MATERIAL st
       end;
  if negb (size_t (vertexSamplerCount st + fragmentSamplerCount st)
           <=? MAX_SAMPLER_COUNT)
  then PreconditionPanic "material using too many samplers"
  else if negb (vertexSamplerCount st <=? MAX_VERTEX_SAMPLER_COUNT)
  then PreconditionPanic "material using too many samplers in vertex shader"
  else if negb (fragmentSamplerCount st <=? MAX_FRAGMENT_SAMPLER_COUNT)
  then PreconditionPanic "material using too many samplers in fragment shader"
  else Ready (mSamplerNamesBindingMap st).

End WithEngine.

(** [getSamplerName(set, binding)]: the name when the key is in the map. *)
Definition getSamplerName (m : SamplerBindingToNameMap) (set binding : Z)
  : option string :=
  match m !! (set, binding) with
  | Some name => Some name
  | None => None
  end.

End SamplerBindingMap.

(** The groups [init] goes through for a material domain, in its order. *)
Definition groups (materialDomain : SamplerBindingMap.MaterialDomain)
  : list DescriptorSetBindingPoints :=
  match materialDomain with
  | SamplerBindingMap.SURFACE => [PER_VIEW; PER_RENDERABLE; PER_MATERIAL]
  | _ => [PER_MATERIAL]
  end.

(** The block [init] reads for a group: the material's own for
    [PER_MATERIAL], the engine's for the others. *)
Definition sib_of
    (getSib : DescriptorSetBindingPoints → option SamplerBindingMap.SamplerInterfaceBlock)
    (perMaterialSib : SamplerBindingMap.SamplerInterfaceBlock)
    (set : DescriptorSetBindingPoints)
  : option SamplerBindingMap.SamplerInterfaceBlock :=
  match set with
  | PER_MATERIAL => Some perMaterialSib
  | _ => getSib set
  end.

(** The samplers of a group, each with the group it is in. *)
Definition group_samplers
    (getSib : DescriptorSetBindingPoints → option SamplerBindingMap.SamplerInterfaceBlock)
    (perMaterialSib : SamplerBindingMap.SamplerInterfaceBlock)
    (set : DescriptorSetBindingPoints)
  : list (DescriptorSetBindingPoints * SamplerBindingMap.SamplerInfo) :=
  match sib_of getSib perMaterialSib set with
  | Some sib => pair set <$> SamplerBindingMap.getSamplerInfoList sib
  | None => []
  end.

(** The samplers [init] has to enter for a domain, in its order. *)
Definition samplers_of
    (getSib : DescriptorSetBindingPoints → option SamplerBindingMap.SamplerInterfaceBlock)
    (perMaterialSib : SamplerBindingMap.SamplerInterfaceBlock)
    (materialDomain : SamplerBindingMap.MaterialDomain)
  : list (DescriptorSetBindingPoints * SamplerBindingMap.SamplerInfo) :=
  groups materialDomain ≫= group_samplers getSib perMaterialSib.

(** How many samplers a group adds to the count of a stage. *)
Definition group_total
    (getSib : DescriptorSetBindingPoints → option SamplerBindingMap.SamplerInterfaceBlock)
    (perMaterialSib : SamplerBindingMap.SamplerInterfaceBlock)
    (stage : Z) (set : DescriptorSetBindingPoints) : Z :=
  match sib_of getSib perMaterialSib set with
  | Some sib =>
      if SamplerBindingMap.any_stage (SamplerBindingMap.getStageFlags sib) stage
      then Z.of_nat (length (SamplerBindingMap.getSamplerInfoList sib))
      else 0
  | None => 0
  end.

(** How many samplers the groups of a list have in a stage. *)
Definition stage_total_in
    (getSib : DescriptorSetBindingPoints → option SamplerBindingMap.SamplerInterfaceBlock)
    (perMaterialSib : SamplerBindingMap.SamplerInterfaceBlock)
    (stage : Z) (sets : list DescriptorSetBindingPoints) : Z :=
  foldr Z.add 0 (group_total getSib perMaterialSib stage <$> sets).

(** How many samplers the groups of a domain have in a stage. *)
Definition stage_total
    (getSib : DescriptorSetBindingPoints → option SamplerBindingMap.SamplerInterfaceBlock)
    (perMaterialSib : SamplerBindingMap.SamplerInterfaceBlock)
    (materialDomain : SamplerBindingMap.MaterialDomain) (stage : Z) : Z :=
  stage_total_in getSib perMaterialSib stage (groups materialDomain).

(** The key of a sampler in the map. *)
Definition sampler_key (set_value : DescriptorSetBindingPoints → Z)
    (entry : DescriptorSetBindingPoints * SamplerBindingMap.SamplerInfo) : Z * Z :=
  (set_value entry.1, SamplerBindingMap.binding entry.2).

(** The key of a sampler with its name. *)
Definition sampler_entry (set_value : DescriptorSetBindingPoints → Z)
    (entry : DescriptorSetBindingPoints * SamplerBindingMap.SamplerInfo)
  : Z * Z * string :=
  (sampler_key set_value entry, SamplerBindingMap.uniformName entry.2).

(** Entering a list of keys with their names into a map, each key having
    to be new: what the loops of [init] do to the map, in one list. *)
Fixpoint enter (m : gmap (Z * Z) string) (es : list (Z * Z * string))
  : SamplerBindingMap.checked (gmap (Z * Z) string) :=
  match es with
  | [] => SamplerBindingMap.Ready m
  | (k, v) :: rest =>
      match m !! k with
      | Some _ => SamplerBindingMap.AssertInvariant
      | None => enter (<[k := v]> m) rest
      end
  end.

(** [m'] is [m] with the entries [es], whose keys are pairwise distinct
    and were not in [m]. *)
Definition entered (es : list (Z * Z * string)) (m m' : gmap (Z * Z) string) : Prop :=
  NoDup es.*1
  ∧ (∀ k, k ∈ es.*1 → m !! k = None)
  ∧ ∀ k v, m' !! k = Some v ↔ m !! k = Some v ∨ (k, v) ∈ es.

(** [processSamplerGroup] on the groups of a list, one after the other. *)
Fixpoint process_groups
    (getSib : DescriptorSetBindingPoints → option SamplerBindingMap.SamplerInterfaceBlock)
    (set_value : DescriptorSetBindingPoints → Z) (VERTEX FRAGMENT : Z)
    (perMaterialSib : SamplerBindingMap.SamplerInterfaceBlock)
    (sets : list DescriptorSetBindingPoints) (st : SamplerBindingMap.Counting)
  : SamplerBindingMap.checked SamplerBindingMap.Counting :=
  match sets with
  | [] => SamplerBindingMap.Ready st
  | set :: rest =>
      st ← SamplerBindingMap.processSamplerGroup getSib set_value VERTEX FRAGMENT
             perMaterialSib set st;
      process_groups getSib set_value VERTEX FRAGMENT perMaterialSib rest st
  end.

(** The three checks at the end of [init]. *)
Definition within_limits (limit vertexLimit fragmentLimit vertex fragment : Z) : Prop :=
  SamplerBindingMap.size_t (vertex + fragment) ≤ limit
  ∧ vertex ≤ vertexLimit
  ∧ fragment ≤ fragmentLimit.

(** Goes through the bindings of a list computed from [H]. *)
Ltac each_binding H :=
  vm_compute in H;
  repeat (apply elem_of_cons in H as [->|H]);
  [..| by apply elem_of_nil in H].

(** How many names the table of a set has. *)
Definition name_count (set : DescriptorSetBindingPoints) : Z :=
  match set with
  | PER_VIEW => Z.of_nat (length DescriptorSets.perViewDescriptorSetLayout)
  | PER_RENDERABLE => Z.of_nat (length DescriptorSets.perRenderableDescriptorSetLayout)
  | PER_MATERIAL => 1
  end.

Module NameSample.
Import SamplerBindingMap.

Definition getSib (set : DescriptorSetBindingPoints) : option SamplerInterfaceBlock :=
  match set with
  | PER_VIEW =>
      Some {| getStageFlags := 2;
              getSamplerInfoList :=
                [ {| binding := 5; uniformName := "sampler0_shadowMap" |};
                  {| binding := 6; uniformName := "sampler0_iblDFG" |} ] |}
  | PER_RENDERABLE =>
      Some {| getStageFlags := 1;
              getSamplerInfoList :=
                [ {| binding := 3; uniformName := "sampler1_positions" |} ] |}
  | PER_MATERIAL => None
  end.

Definition set_value (set : DescriptorSetBindingPoints) : Z :=
  match set with PER_VIEW => 0 | PER_RENDERABLE => 1 | PER_MATERIAL => 2 end.

Definition material : SamplerInterfaceBlock :=
  {| getStageFlags := 2;
     getSamplerInfoList :=
       [ {| binding := 1; uniformName := "materialParams_albedo" |} ] |}.

(** A block that uses a binding twice. *)
Definition clashing : SamplerInterfaceBlock :=
  {| getStageFlags := 2;
     getSamplerInfoList :=
       [ {| binding := 1; uniformName := "materialParams_albedo" |};
         {| binding := 1; uniformName := "materialParams_normal" |} ] |}.

End NameSample.

(* ===================================================================== *)
(** ** Properties of [DescriptorPool] *)

Section DescriptorPoolFacts.
Import DescriptorPool.

Implicit Types (p : DescriptorPool.t) (g : Gpu) (layout : VulkanDescriptorSetLayout).

Lemma uint16_small x : 0 ≤ x ≤ UINT16_MAX → uint16 x = x.
Proof. intros H. unfold uint16, UINT16_MAX in *. apply Z.mod_small. lia. Qed.

Lemma obtainSet_reuse layout p g sets h :
  mUnused p !! bitmask layout = Some (sets ++ [h]) →
  obtainSet layout p g =
    Done (h,
          mk (mCount p) (mCapacity p) (mSize p) (uint16 (mUnusedCount p - 1))
             (<[bitmask layout := sets]> (mUnused p)),
          g).
Proof.
  intros Hl. unfold obtainSet. rewrite Hl.
  destruct (sets ++ [h]) as [|x l] eqn:E.
  { by destruct sets. }
  rewrite <- E, last_last, removelast_last. reflexivity.
Qed.

Lemma obtainSet_drained layout p g :
  mUnused p !! bitmask layout = Some [] →
  obtainSet layout p g = Done (VK_NULL_HANDLE, p, g).
Proof. intros Hl. unfold obtainSet. by rewrite Hl. Qed.

Lemma obtainSet_fresh layout p g h rest :
  mUnused p !! bitmask layout = None →
  mSize p < mCapacity p →
  pending g = (VK_SUCCESS, h) :: rest →
  obtainSet layout p g =
    Done (h,
          mk (mCount p) (mCapacity p) (uint16 (mSize p + 1)) (mUnusedCount p) (mUnused p),
          {| pending := rest;
             issued := issued g ++ [vkAllocateDescriptorSets (vklayout layout)] |}).
Proof.
  intros Hl Hlt Hg. unfold obtainSet, allocate_descriptor_set. rewrite Hl, Hg.
  destruct (Z.gtb_spec (mSize p + 1) (mCapacity p)); [lia | reflexivity].
Qed.

Lemma obtainSet_at_capacity layout p g :
  mUnused p !! bitmask layout = None →
  mCapacity p ≤ mSize p →
  obtainSet layout p g = Done (VK_NULL_HANDLE, p, g).
Proof.
  intros Hl Hge. unfold obtainSet. rewrite Hl.
  destruct (Z.gtb_spec (mSize p + 1) (mCapacity p)); [reflexivity | lia].
Qed.

Lemma obtainSet_in_range layout p g h p' g' :
  pool_in_range p →
  obtainSet layout p g = Done (h, p', g') →
  mCapacity p' = mCapacity p ∧ mCount p' = mCount p ∧ pool_in_range p'.
Proof.
  intros [Hs Hc]. unfold obtainSet.
  destruct (mUnused p !! bitmask layout) as [[|x l]|].
  - intros [= <- <- <-]. done.
  - intros [= <- <- <-]. done.
  - destruct (Z.gtb_spec (mSize p + 1) (mCapacity p)) as [E|E].
    + intros [= <- <- <-]. done.
    + destruct (allocate_descriptor_set _ _) as [[[] v] g1]; intros [=]; subst.
      unfold pool_in_range. cbn. rewrite uint16_small by lia.
      repeat split; try done; lia.
Qed.

Lemma recycle_unfold layoutMask vkSet p :
  recycle layoutMask vkSet p =
    mk (mCount p) (mCapacity p) (mSize p) (uint16 (mUnusedCount p + 1))
       (<[layoutMask := default [] (mUnused p !! layoutMask) ++ [vkSet]]> (mUnused p)).
Proof. unfold recycle. by destruct (mUnused p !! layoutMask). Qed.

(** C5. [DescriptorPool::obtainSet], case by case: a free-list entry for
    the mask of the layout gives its most recent handle, which leaves the
    entry; an entry that is there but empty gives a null handle, whatever
    the allocated count; with no entry and room left, the driver is asked
    for a fresh set and the allocated count goes up by one; with no entry
    and no room, a null handle. The allocated count stays within the
    capacity, which never changes. *)
Theorem pool_obtainSet_cases layout p g :
  pool_in_range p →
  (∀ sets h, mUnused p !! bitmask layout = Some (sets ++ [h]) →
     ∃ p', obtainSet layout p g = Done (h, p', g)
           ∧ mUnused p' = <[bitmask layout := sets]> (mUnused p)
           ∧ mSize p' = mSize p)
  ∧ (mUnused p !! bitmask layout = Some [] →
     obtainSet layout p g = Done (VK_NULL_HANDLE, p, g))
  ∧ (∀ h rest, mUnused p !! bitmask layout = None → mSize p < mCapacity p →
     pending g = (VK_SUCCESS, h) :: rest →
     ∃ p' g', obtainSet layout p g = Done (h, p', g')
              ∧ mSize p' = mSize p + 1
              ∧ mUnused p' = mUnused p
              ∧ pending g' = rest
              ∧ issued g' = issued g ++ [vkAllocateDescriptorSets (vklayout layout)])
  ∧ (mUnused p !! bitmask layout = None → mSize p = mCapacity p →
     obtainSet layout p g = Done (VK_NULL_HANDLE, p, g))
  ∧ (∀ h p' g', obtainSet layout p g = Done (h, p', g') →
     mCapacity p' = mCapacity p ∧ mSize p' ≤ mCapacity p').
Proof.
  intros Hr. repeat split.
  - intros sets h Hl. eexists. split; [by apply obtainSet_reuse|done].
  - apply obtainSet_drained.
  - intros h rest Hl Hlt Hg. do 2 eexists.
    split; [by eapply obtainSet_fresh|].
    destruct Hr as [Hs Hc]. cbn. rewrite uint16_small by lia. done.
  - intros Hl He. apply obtainSet_at_capacity; [done|lia].
  - by destruct (obtainSet_in_range _ _ _ _ _ _ Hr H) as (? & ? & ?).
  - destruct (obtainSet_in_range _ _ _ _ _ _ Hr H) as (? & ? & [? ?]). lia.
Qed.

Lemma pool_obtainSet_cases_witness :
  (∃ p', obtainSet Sample.layout_ubo Sample.pool_recycled Sample.quiet_gpu
          = Done (42, p', Sample.quiet_gpu) ∧ mSize p' = 2)
  ∧ obtainSet Sample.layout_ubo Sample.pool_drained Sample.quiet_gpu
    = Done (VK_NULL_HANDLE, Sample.pool_drained, Sample.quiet_gpu)
  ∧ (∃ p' g', obtainSet Sample.layout_ubo Sample.pool_fresh (Sample.gpu_with [(VK_SUCCESS, 7)])
               = Done (7, p', g') ∧ mSize p' = 2)
  ∧ obtainSet Sample.layout_ubo Sample.pool_full (Sample.gpu_with [(VK_SUCCESS, 7)])
    = Done (VK_NULL_HANDLE, Sample.pool_full, Sample.gpu_with [(VK_SUCCESS, 7)]).
Proof.
  assert (R : ∀ p, 0 ≤ mSize p ≤ 2 → mCapacity p = 2 → pool_in_range p).
  { intros p ? E. unfold pool_in_range, UINT16_MAX. rewrite E. lia. }
  split; [|split; [|split]].
  - destruct (pool_obtainSet_cases Sample.layout_ubo Sample.pool_recycled
                Sample.quiet_gpu) as (H & _).
    { apply R; [cbn; lia | reflexivity]. }
    destruct (H [41] 42) as (p' & E & _ & Hs); [reflexivity|].
    exists p'. split; [exact E | exact Hs].
  - destruct (pool_obtainSet_cases Sample.layout_ubo Sample.pool_drained
                Sample.quiet_gpu) as (_ & H & _).
    { apply R; [cbn; lia | reflexivity]. }
    apply H. reflexivity.
  - destruct (pool_obtainSet_cases Sample.layout_ubo Sample.pool_fresh
                (Sample.gpu_with [(VK_SUCCESS, 7)])) as (_ & _ & H & _).
    { apply R; [cbn; lia | reflexivity]. }
    destruct (H 7 []) as (p' & g' & E & Hs & _); [reflexivity | cbn; lia | reflexivity |].
    exists p', g'. split; [exact E | exact Hs].
  - destruct (pool_obtainSet_cases Sample.layout_ubo Sample.pool_full
                (Sample.gpu_with [(VK_SUCCESS, 7)])) as (_ & _ & _ & H & _).
    { apply R; [cbn; lia | reflexivity]. }
    apply H; reflexivity.
Defined.

End DescriptorPoolFacts.

Section DescriptorPoolLifo.
Import DescriptorPool.

(** C6. Recycling [h1] then [h2] under the mask of a layout and obtaining
    twice for that layout gives [h2], then [h1], without a call to the
    driver; [recycle] is a total function and leaves the allocated count
    as it is, and after the two rounds the free list is back to what it
    was. *)
Theorem pool_recycle_obtain_lifo (layout : VulkanDescriptorSetLayout)
    (p : DescriptorPool.t) (g : Gpu) (h1 h2 : Z) :
  let p1 := recycle (bitmask layout) h1 p in
  let p2 := recycle (bitmask layout) h2 p1 in
  ∃ p3 p4,
    obtainSet layout p2 g = Done (h2, p3, g)
    ∧ obtainSet layout p3 g = Done (h1, p4, g)
    ∧ mSize p1 = mSize p ∧ mSize p2 = mSize p ∧ mSize p4 = mSize p
    ∧ mUnused p4 !! bitmask layout = Some (default [] (mUnused p !! bitmask layout)).
Proof.
  intros p1 p2. subst p1 p2. rewrite !recycle_unfold. cbn.
  rewrite lookup_insert_eq. cbn.
  set (old := default [] (mUnused p !! bitmask layout)).
  do 2 eexists. split.
  { apply obtainSet_reuse. cbn. by rewrite lookup_insert_eq. }
  split.
  { apply obtainSet_reuse. cbn. by rewrite lookup_insert_eq. }
  cbn. repeat split. by rewrite lookup_insert_eq.
Qed.

End DescriptorPoolLifo.

(* ===================================================================== *)
(** ** Properties of [DescriptorInfinitePool] *)

Section DescriptorInfinitePoolFacts.
Import DescriptorInfinitePool.

Implicit Types (p : DescriptorPool.t) (pools : list DescriptorPool.t) (g : Gpu).
Implicit Types (layout : VulkanDescriptorSetLayout).

(** C10. When no pool has the shape, [recycle] changes no pool: the list
    of pools comes back as it was, and the handle is in no free list. *)
Theorem infinite_recycle_unknown_shape (count : DescriptorCount.t)
    (layoutMask : Bitmask.t) (vkSet : Z) pools :
  Forall (λ p, DescriptorPool.canAllocate count p = false) pools →
  recycle count layoutMask vkSet pools = pools.
Proof.
  induction 1 as [|p pools Hp _ IH]; cbn; [done|].
  by rewrite Hp, IH.
Qed.

Lemma infinite_recycle_unknown_shape_witness :
  recycle Sample.count_sampler Sample.mask_sampler 7
    [Sample.pool_fresh; Sample.pool_recycled]
  = [Sample.pool_fresh; Sample.pool_recycled].
Proof.
  apply infinite_recycle_unknown_shape.
  repeat (constructor; [by_computation|]). constructor.
Defined.

Lemma exhausted_obtainSet layout p g :
  exhausted layout p = true →
  DescriptorPool.obtainSet layout p g = Done (VK_NULL_HANDLE, p, g).
Proof.
  unfold exhausted. intros H.
  destruct (DescriptorPool.mUnused p !! bitmask layout) as [sets|] eqn:E.
  - apply bool_decide_eq_true in H as ->. by apply obtainSet_drained.
  - apply obtainSet_at_capacity; [done|lia].
Qed.

Lemma scan_exhausted layout pools same g :
  Forall (λ p, DescriptorPool.canAllocate (count layout) p = true →
               exhausted layout p = true) pools →
  scan layout pools same g =
    Done {| found := None; pools_after := pools;
            sameTypePool :=
              fold_left better
                (List.filter (DescriptorPool.canAllocate (count layout)) pools) same;
            gpu_after := g |}.
Proof.
  intros H. revert same. induction H as [|p pools Hp _ IH]; intros same; cbn; [done|].
  destruct (DescriptorPool.canAllocate (count layout) p) eqn:E; cbn.
  - rewrite exhausted_obtainSet by auto. cbn. by rewrite IH.
  - by rewrite IH.
Qed.

Lemma better_capacity same p :
  DescriptorPool.capacity <$> better (Some same) p
  = Some (Z.max (DescriptorPool.capacity same) (DescriptorPool.capacity p)).
Proof.
  unfold better.
  destruct (Z.ltb_spec (DescriptorPool.capacity same) (DescriptorPool.capacity p));
    cbn; f_equal; lia.
Qed.

Lemma fold_better_capacity (l : list DescriptorPool.t) same :
  DescriptorPool.capacity <$> fold_left better l (Some same)
  = Some (fold_left Z.max (DescriptorPool.capacity <$> l) (DescriptorPool.capacity same)).
Proof.
  revert same. induction l as [|p l IH]; intros same; [done|].
  cbn [fold_left fmap list_fmap].
  pose proof (better_capacity same p) as Hb.
  destruct (better (Some same) p) as [b|] eqn:E; [|done].
  injection Hb as Hb. by rewrite IH, Hb.
Qed.

Lemma sameTypePool_largest (count : DescriptorCount.t) pools :
  DescriptorPool.capacity
    <$> fold_left better (List.filter (DescriptorPool.canAllocate count) pools) None
  = largest_capacity count pools.
Proof.
  unfold largest_capacity.
  destruct (List.filter _ pools) as [|p l]; [done|].
  cbn [fold_left]. unfold better at 2. apply fold_better_capacity.
Qed.

Lemma fold_max_ge (cs : list Z) (c : Z) :
  c ≤ fold_left Z.max cs c ∧ Forall (λ x, x ≤ fold_left Z.max cs c) cs
  ∧ (fold_left Z.max cs c = c ∨ fold_left Z.max cs c ∈ cs).
Proof.
  revert c. induction cs as [|x cs IH]; intros c; cbn.
  - repeat split; [lia | constructor | by left].
  - destruct (IH (Z.max c x)) as (H1 & H2 & H3). repeat split.
    + lia.
    + constructor; [lia | done].
    + destruct H3 as [H3|H3].
      * rewrite H3. destruct (Z.max_spec c x) as [[_ ->]|[_ ->]];
          [right; left | by left].
      * right. by right.
Qed.

(** [largest_capacity] is what its name says. *)
Lemma largest_capacity_spec (count : DescriptorCount.t) pools c :
  largest_capacity count pools = Some c →
  (∃ p, p ∈ pools ∧ DescriptorPool.canAllocate count p = true
        ∧ DescriptorPool.capacity p = c)
  ∧ (∀ p, p ∈ pools → DescriptorPool.canAllocate count p = true →
          DescriptorPool.capacity p ≤ c).
Proof.
  unfold largest_capacity.
  destruct (List.filter _ pools) as [|q l] eqn:E; [done|].
  cbn. intros [= <-].
  destruct (fold_max_ge (DescriptorPool.capacity <$> l) (DescriptorPool.capacity q))
    as (H1 & H2 & H3).
  assert (Hin : ∀ p, p ∈ q :: l ↔ p ∈ pools ∧ DescriptorPool.canAllocate count p = true).
  { intros p. rewrite <- E, !list_elem_of_In. apply filter_In. }
  split.
  - destruct H3 as [H3|H3].
    + exists q. destruct (proj1 (Hin q)) as [? ?]; [by left|]. by rewrite H3.
    + apply list_elem_of_fmap in H3 as (p & Hp & Hpl).
      exists p. destruct (proj1 (Hin p)) as [? ?]; [by right|]. done.
  - intros p Hp Hc.
    assert (Hq : p ∈ q :: l) by (by apply Hin).
    apply elem_of_cons in Hq as [->|Hq]; [done|].
    rewrite Forall_forall in H2. apply H2, list_elem_of_fmap. eauto.
Qed.

End DescriptorInfinitePoolFacts.

Section DescriptorInfinitePoolGrowth.
Import DescriptorInfinitePool.

Context (fromLayoutBitmask : Bitmask.t → DescriptorCount.t).

Implicit Types (p : DescriptorPool.t) (pools : list DescriptorPool.t) (g : Gpu).
Implicit Types (layout : VulkanDescriptorSetLayout).

(** Over the integers, [ceil(c * 1.5)] is [(3 c + 1) / 2]. *)
Lemma ceil_grow_closed (c : Z) : ceil_grow c = (3 * c + 1) / 2.
Proof.
  unfold ceil_grow, SET_COUNT_GROWTH_FACTOR, Qceiling, Qfloor. cbn.
  change (Z.pos (1 * 2)) with 2. Z.div_mod_to_equations. lia.
Qed.

Lemma grown_capacity_in_range (c : Z) :
  ceil_grow c ≤ UINT16_MAX → grown_capacity c = Done (ceil_grow c).
Proof.
  intros H. unfold grown_capacity. fold (ceil_grow c).
  destruct (Z.leb_spec (ceil_grow c) UINT16_MAX); [done | lia].
Qed.

(** X29. Growth within the 16 bits of the capacity. When every pool of
    the shape of the layout is exhausted and the new capacity fits
    [uint16_t], the pool manager appends one pool to the unchanged list
    of pools: its capacity is [ceil (c * 1.5)] for the largest capacity
    [c] among the pools of that shape, and 10 when there is none; the
    request is served from the new pool by the handle [h] that the driver
    hands out. The driver has to succeed. *)
Theorem infinite_obtainSet_grows layout pools g (h : Z) rest :
  let capacity :=
    match largest_capacity (count layout) pools with
    | Some c => ceil_grow c
    | None => 10
    end in
  Forall (λ p, DescriptorPool.canAllocate (count layout) p = true →
               exhausted layout p = true) pools →
  Forall (λ p, 1 ≤ DescriptorPool.mCapacity p) pools →
  capacity ≤ UINT16_MAX →
  pending g = (VK_SUCCESS, h) :: rest →
  h ≠ VK_NULL_HANDLE →
  obtainSet fromLayoutBitmask layout pools g =
    Done (h,
          pools ++ [DescriptorPool.mk (fromLayoutBitmask (bitmask layout)) capacity 1 0 ∅],
          {| pending := rest;
             issued :=
               issued g
               ++ [vkCreateDescriptorPool capacity
                     (DescriptorPool.pool_sizes
                        (DescriptorCount.mul (fromLayoutBitmask (bitmask layout)) capacity));
                   vkAllocateDescriptorSets (vklayout layout)] |}).
Proof.
  intros capacity Hex Hcap Hfit Hg Hh.
  assert (Hone : 1 ≤ capacity).
  { subst capacity.
    destruct (largest_capacity (count layout) pools) as [c|] eqn:E; [|lia].
    destruct (largest_capacity_spec _ _ _ E) as [(p & Hp & _ & <-) _].
    rewrite Forall_forall in Hcap. specialize (Hcap p Hp).
    rewrite ceil_grow_closed. unfold DescriptorPool.capacity.
    apply Z.div_le_lower_bound; lia. }
  unfold obtainSet. rewrite scan_exhausted by done. cbn.
  pose proof (sameTypePool_largest (count layout) pools) as Hl.
  fold capacity.
  assert (Hc :
    match fold_left better
            (List.filter (DescriptorPool.canAllocate (count layout)) pools) None with
    | Some same => grown_capacity (DescriptorPool.capacity same)
    | None => Done EXPECTED_SET_COUNT
    end = Done capacity).
  { subst capacity. destruct (fold_left better _ None) as [same|]; cbn in Hl;
      rewrite <- Hl in *; [by apply grown_capacity_in_range | done]. }
  rewrite Hc. cbn.
  erewrite obtainSet_fresh with (h := h) (rest := rest); cbn; [| done | lia | done].
  destruct (Z.eqb_spec h VK_NULL_HANDLE) as [?|_]; [done|]. cbn.
  rewrite <- app_assoc. reflexivity.
Qed.

(** Past the 16 bits: the conversion of [ceil (c * 1.5)] to [uint16_t]
    is undefined, and no pool is made. *)
Lemma obtainSet_overflow layout pools g (c : Z) :
  Forall (λ p, DescriptorPool.canAllocate (count layout) p = true →
               exhausted layout p = true) pools →
  largest_capacity (count layout) pools = Some c →
  UINT16_MAX < ceil_grow c →
  obtainSet fromLayoutBitmask layout pools g = Abort UndefinedBehaviour.
Proof.
  intros Hex Hl Hc. unfold obtainSet. rewrite scan_exhausted by done.
  cbn [mbind outcome_bind found sameTypePool].
  pose proof (sameTypePool_largest (count layout) pools) as Hs.
  rewrite Hl in Hs.
  destruct (fold_left better _ None) as [same|]; [|done].
  injection Hs as ->. unfold grown_capacity. fold (ceil_grow c).
  destruct (Z.leb_spec (ceil_grow c) UINT16_MAX) as [Hle|_]; [lia | done].
Qed.

End DescriptorInfinitePoolGrowth.

Lemma infinite_obtainSet_grows_witness :
  DescriptorInfinitePool.obtainSet Sample.fromLayoutBitmask Sample.layout_ubo
    [Sample.pool_ten; Sample.pool_other; Sample.pool_fifteen]
    (Sample.gpu_with [(VK_SUCCESS, 77)])
  = Done (77,
          [Sample.pool_ten; Sample.pool_other; Sample.pool_fifteen;
           DescriptorPool.mk Sample.count_ubo 23 1 0 ∅],
          {| pending := [];
             issued := [vkCreateDescriptorPool 23
                          [Build_VkDescriptorPoolSize VK_DESCRIPTOR_TYPE_UNIFORM_BUFFER 23];
                        vkAllocateDescriptorSets 100] |}).
Proof.
  etransitivity.
  - apply (infinite_obtainSet_grows Sample.fromLayoutBitmask Sample.layout_ubo
             [Sample.pool_ten; Sample.pool_other; Sample.pool_fifteen]
             (Sample.gpu_with [(VK_SUCCESS, 77)]) 77 []).
    + repeat (constructor; [by_computation|]). constructor.
    + repeat (constructor; [by_computation|]). constructor.
    + by_computation.
    + reflexivity.
    + discriminate.
  - vm_compute. reflexivity.
Defined.

(** C4. The growth of the capacity leaves the 16 bits of its type. The
    pools of [Sample.grown_pools] are the ones [obtainSet] itself makes
    for one shape, from the initial capacity 10 on, each capacity the
    grown capacity of the one before, and each pool has handed out all
    its sets. The largest capacity is 52596; one and a half times that
    is 78894, which is no [uint16_t]: the next [obtainSet] makes no pool
    of that capacity, and its conversion of the capacity is undefined. *)
Theorem infinite_obtainSet_capacity_overflows :
  Sample.grown_capacities !! 0%nat = Some DescriptorInfinitePool.EXPECTED_SET_COUNT
  ∧ Forall2 (λ c c', DescriptorInfinitePool.grown_capacity c = Done c')
      (take 21 Sample.grown_capacities) (drop 1 Sample.grown_capacities)
  ∧ Forall (λ p, DescriptorPool.canAllocate (count Sample.layout_ubo) p = true
                 ∧ exhausted Sample.layout_ubo p = true
                 ∧ pool_in_range p) Sample.grown_pools
  ∧ largest_capacity (count Sample.layout_ubo) Sample.grown_pools = Some 52596
  ∧ ceil_grow 52596 = 78894
  ∧ UINT16_MAX < 78894
  ∧ ∀ g, DescriptorInfinitePool.obtainSet Sample.fromLayoutBitmask Sample.layout_ubo
           Sample.grown_pools g
         = Abort UndefinedBehaviour.
Proof.
  assert (Hpools :
    Forall (λ p, DescriptorPool.canAllocate (count Sample.layout_ubo) p = true
                 ∧ exhausted Sample.layout_ubo p = true
                 ∧ pool_in_range p) Sample.grown_pools).
  { unfold Sample.grown_pools, Sample.grown_capacities. cbn [fmap list_fmap].
    repeat (constructor;
            [split_and!;
             [reflexivity | reflexivity
             | unfold pool_in_range, UINT16_MAX; cbn; lia]|]).
    constructor. }
  split_and!.
  - reflexivity.
  - unfold Sample.grown_capacities. cbn [take drop].
    repeat (constructor; [by vm_compute|]). constructor.
  - exact Hpools.
  - by vm_compute.
  - by vm_compute.
  - by_computation.
  - intros g. apply (obtainSet_overflow _ _ _ _ 52596).
    + eapply Forall_impl; [exact Hpools|]. by intros p (_ & ? & _) _.
    + by vm_compute.
    + by vm_compute.
Qed.

(* ===================================================================== *)
(** ** The two loops of [commit] *)

Section CommitLoops.
Import Impl.

(** [N] is [UNIQUE_DESCRIPTOR_SET_COUNT], the number of slots. *)
Context (N : nat).

Implicit Types (s : Impl.t) (g : Gpu) (commands : VulkanCommandBuffer).
Implicit Types (hist : gmap Z DescriptorSetHistory.t) (key : Z) (i : nat).
Implicit Types (iterators : list (option Z)) (tgts : list (nat * Z)).

Lemma forallb_pointwise {A} (f f' : A → bool) (l : list A) :
  (∀ x, f x = f' x) → forallb f l = forallb f' l.
Proof. intros H. induction l as [|x l IH]; cbn; [done|]. by rewrite H, IH. Qed.

Lemma mark_bound_idemp h : mark_bound (mark_bound h) = mark_bound h.
Proof. reflexivity. Qed.

Lemma bind_view_alter hist key0 key :
  bind_view (alter mark_bound key0 hist) key = bind_view hist key.
Proof.
  unfold bind_view. rewrite lookup_alter. case_decide; [|done].
  subst. by destruct (hist !! key).
Qed.

Lemma bindable_alter hist key0 key :
  bindable (alter mark_bound key0 hist) key = bindable hist key.
Proof. unfold bindable. by rewrite bind_view_alter. Qed.

Lemma bind_call_alter cmdbuffer pipelineLayout hist key0 target :
  bind_call cmdbuffer pipelineLayout (alter mark_bound key0 hist) target
  = bind_call cmdbuffer pipelineLayout hist target.
Proof. unfold bind_call. by rewrite bind_view_alter. Qed.

Lemma bind_acquired_alter hist key0 target :
  bind_acquired (alter mark_bound key0 hist) target = bind_acquired hist target.
Proof. unfold bind_acquired. by rewrite bind_view_alter. Qed.

Lemma lookup_bound_after tgts hist key :
  bound_after tgts hist !! key
  = if decide (key ∈ tgts.*2) then mark_bound <$> hist !! key else hist !! key.
Proof.
  unfold bound_after.
  revert hist. induction tgts as [|[i k] tgts IH]; intros hist; cbn.
  - case_decide as H; [by apply elem_of_nil in H | done].
  - rewrite IH, lookup_alter.
    destruct (decide (key ∈ tgts.*2)) as [Hin|Hin];
      destruct (decide (k = key)) as [->|Hne].
    + rewrite decide_True by (by left).
      destruct (hist !! key); done.
    + rewrite decide_True by (by right). done.
    + rewrite decide_True by (by left). done.
    + rewrite decide_False; [done|].
      intros [?|?]%elem_of_cons; congruence.
Qed.

Lemma targets_cons_none iterators i slots :
  default None (iterators !! i) = None →
  targets iterators (i :: slots) = targets iterators slots.
Proof. intros H. unfold targets. cbn. by rewrite H. Qed.

Lemma targets_cons_some iterators i slots key :
  default None (iterators !! i) = Some key →
  targets iterators (i :: slots) = (i, key) :: targets iterators slots.
Proof. intros H. unfold targets. cbn. by rewrite H. Qed.

(** The second loop, in closed form: it completes exactly when every
    target can be bound, and then it has bound the targets one after the
    other. *)
Lemma bind_all_closed iterators pipelineLayout slots hist commands g :
  let tgts := targets iterators slots in
  bind_all iterators pipelineLayout slots hist commands g
  = if forallb (λ target, bindable hist target.2) tgts
    then Done (bound_after tgts hist,
               {| buffer := buffer commands;
                  acquired := acquired commands ++ (bind_acquired hist <$> tgts) |},
               {| pending := pending g;
                  issued := issued g
                            ++ (bind_call (buffer commands) pipelineLayout hist <$> tgts) |})
    else Abort UndefinedBehaviour.
Proof.
  cbn zeta. revert hist commands g.
  induction slots as [|i slots IH]; intros hist commands g.
  - cbn. rewrite !app_nil_r. by destruct commands, g.
  - cbn [bind_all].
    destruct (default None (iterators !! i)) as [key|] eqn:Hit.
    2:{ rewrite (targets_cons_none _ _ _ Hit). apply IH. }
    rewrite (targets_cons_some _ _ _ _ Hit). cbn [forallb fmap list_fmap snd fst].
    unfold bindable at 1, bind_call at 1, bind_acquired at 1, bind_view at 1 2 3.
    cbn [snd fst].
    destruct (hist !! key) as [h|] eqn:Hk; cbn [fmap option_fmap option_map]; [|done].
    unfold DescriptorSetHistory.bind.
    destruct (DescriptorSetHistory.mSet h) as [set|] eqn:Hset; [|done].
    cbn [mbind outcome_bind andb].
    rewrite IH. clear IH.
    assert (Hal : <[key := mark_bound h]> hist = alter mark_bound key hist).
    { apply map_eq. intros k. rewrite lookup_alter, lookup_insert.
      case_decide; [subst; by rewrite Hk | done]. }
    unfold mark_bound at 1 in Hal. rewrite Hset in Hal. rewrite Hal.
    assert (Hf : forallb (λ target, bindable (alter mark_bound key hist) target.2)
                   (targets iterators slots)
                 = forallb (λ target, bindable hist target.2) (targets iterators slots)).
    { apply forallb_pointwise. intros. apply bindable_alter. }
    rewrite Hf.
    destruct (forallb (λ target, bindable hist target.2) (targets iterators slots));
      [|reflexivity].
    assert (Ha : bind_acquired (alter mark_bound key hist) <$> targets iterators slots
                 = bind_acquired hist <$> targets iterators slots).
    { apply list_fmap_ext. intros ? ? ?. apply bind_acquired_alter. }
    assert (Hc : ∀ b, bind_call b pipelineLayout (alter mark_bound key hist)
                        <$> targets iterators slots
                      = bind_call b pipelineLayout hist <$> targets iterators slots).
    { intros b. apply list_fmap_ext. intros ? ? ?. apply bind_call_alter. }
    rewrite Ha, Hc.
    cbn [buffer acquired acquire pending issued record_call].
    rewrite <- !app_assoc. reflexivity.
Qed.

(** The iterators the first loop leaves and its [allBound]. *)
Lemma collect_prefix setMask s n :
  (n ≤ N)%nat →
  fold_left
    (λ (acc : list (option Z) * bool) i,
       let '(iterators, allBound) := acc in
       if Z.land setMask (Z.shiftl 1 (Z.of_nat i)) =? 0 then acc
       else
         let vkset := at_index (mStashedSets s) i in
         match mHistory s !! vkset with
         | Some h =>
             if negb (DescriptorSetHistory.bound h)
             then (<[i := Some vkset]> iterators, false)
             else acc
         | None => acc
         end)
    (seq 0 n) (replicate N None, true)
  = (((λ i, if needs_bind setMask s i then Some (staged s i) else None) <$> seq 0 n)
       ++ replicate (N - n) None,
     forallb (λ i, negb (needs_bind setMask s i)) (seq 0 n)).
Proof.
  induction n as [|n IH]; intros Hn.
  - cbn. by rewrite Nat.sub_0_r.
  - rewrite seq_S, fold_left_app, IH by lia. cbn [fold_left Nat.add].
    rewrite fmap_app, forallb_app. cbn [fmap list_fmap forallb].
    set (pre := _ <$> seq 0 n).
    set (ab := forallb _ (seq 0 n)).
    assert (Hlen : length pre = n).
    { unfold pre. by rewrite length_fmap, length_seq. }
    replace (N - n)%nat with (S (N - S n)) by lia. cbn [replicate].
    rewrite andb_true_r, <- app_assoc. cbn [app].
    unfold needs_bind, mask_bit, staged.
    destruct (Z.land setMask (Z.shiftl 1 (Z.of_nat n)) =? 0); cbn [negb andb].
    { by rewrite andb_true_r. }
    destruct (mHistory s !! at_index (mStashedSets s) n) as [h|].
    2:{ by rewrite andb_true_r. }
    destruct (negb (DescriptorSetHistory.bound h)); cbn [negb].
    2:{ by rewrite andb_true_r. }
    rewrite andb_false_r. f_equal.
    rewrite <- Hlen at 1.
    replace (length pre) with (length pre + 0)%nat by lia.
    by rewrite insert_app_r.
Qed.

Lemma collect_closed setMask s :
  collect N setMask s
  = ((λ i, if needs_bind setMask s i then Some (staged s i) else None) <$> seq 0 N,
     forallb (λ i, negb (needs_bind setMask s i)) (seq 0 N)).
Proof.
  unfold collect. rewrite collect_prefix by lia.
  by rewrite Nat.sub_diag, app_nil_r.
Qed.

Lemma targets_of_collect setMask s (slots : list nat) :
  Forall (λ i, (i < N)%nat) slots →
  targets ((λ i, if needs_bind setMask s i then Some (staged s i) else None) <$> seq 0 N)
    slots
  = (λ i, (i, staged s i)) <$> List.filter (needs_bind setMask s) slots.
Proof.
  induction 1 as [|i slots Hi _ IH]; [done|].
  unfold targets in *. cbn [omap list_omap List.filter].
  rewrite list_lookup_fmap, lookup_seq_lt by done. cbn.
  destruct (needs_bind setMask s i); cbn; by rewrite IH.
Qed.

Lemma targets_dirty setMask s :
  targets ((λ i, if needs_bind setMask s i then Some (staged s i) else None) <$> seq 0 N)
    (seq 0 N)
  = (λ i, (i, staged s i)) <$> dirty_slots N setMask s.
Proof.
  apply targets_of_collect, Forall_forall. intros i Hi.
  apply elem_of_seq in Hi. lia.
Qed.

End CommitLoops.

(* ===================================================================== *)
(** ** Properties of [commit] *)

Section CommitFacts.
Import Impl.

(** [N] is [UNIQUE_DESCRIPTOR_SET_COUNT], the number of slots. *)
Context (N : nat).

Implicit Types (s : Impl.t) (g : Gpu) (commands : VulkanCommandBuffer).
Implicit Types (hist : gmap Z DescriptorSetHistory.t) (key : Z) (i : nat).

(** [commit] in closed form. *)
Lemma commit_closed commands (pipelineLayout setMask : Z) s g :
  commit N commands pipelineLayout setMask s g
  = if is_noop N pipelineLayout setMask s then Done (s, commands, g)
    else
      let tgts := (λ i, (i, staged s i)) <$> dirty_slots N setMask s in
      if forallb (λ target, bindable (mHistory s) target.2) tgts
      then Done (mk (mDescriptorPool s) (bound_after tgts (mHistory s)) (mStashedSets s)
                   (BoundInfo.mk pipelineLayout setMask (mStashedSets s)),
                 {| buffer := buffer commands;
                    acquired := acquired commands ++ (bind_acquired (mHistory s) <$> tgts) |},
                 {| pending := pending g;
                    issued := issued g
                              ++ (bind_call (buffer commands) pipelineLayout (mHistory s)
                                    <$> tgts) |})
      else Abort UndefinedBehaviour.
Proof.
  unfold commit, is_noop. rewrite collect_closed.
  destruct (_ && _); [done|].
  rewrite bind_all_closed, targets_dirty. cbn zeta.
  by destruct (forallb _ _).
Qed.

Lemma BoundInfo_eqb_refl (info : BoundInfo.t) : BoundInfo.eqb N info info = true.
Proof.
  unfold BoundInfo.eqb. rewrite !Z.eqb_refl. cbn.
  apply forallb_forall. intros i _.
  rewrite Z.eqb_refl. cbn. by rewrite andb_false_r.
Qed.

Lemma dirty_slots_elem setMask s i :
  i ∈ dirty_slots N setMask s ↔ (i < N)%nat ∧ needs_bind setMask s i = true.
Proof.
  unfold dirty_slots. rewrite list_elem_of_In, filter_In, in_seq.
  intuition lia.
Qed.

Lemma needs_bind_spec setMask s i :
  needs_bind setMask s i = true
  ↔ mask_bit setMask i = true
    ∧ ∃ h, mHistory s !! staged s i = Some h ∧ DescriptorSetHistory.bound h = false.
Proof.
  unfold needs_bind. rewrite andb_true_iff.
  destruct (mHistory s !! staged s i) as [h|].
  - rewrite negb_true_iff. split.
    + intros [? ?]. split; [done|]. by exists h.
    + intros [? (h' & [= <-] & ?)]. done.
  - split.
    + intros [_ ?]. done.
    + intros [_ (h' & ? & _)]. done.
Qed.

Lemma filter_seq_sorted (f : nat → bool) (a n : nat) :
  StronglySorted lt (List.filter f (seq a n)).
Proof.
  revert a. induction n as [|n IH]; intros a; cbn; [constructor|].
  destruct (f a); [|apply IH].
  constructor; [apply IH|].
  apply List.Forall_forall. intros x [Hx _]%filter_In.
  apply in_seq in Hx. lia.
Qed.

(** After a commit that went through, no slot needs a bind. *)
Lemma bound_after_clean setMask s (last : BoundInfo.t) i :
  let tgts := (λ i, (i, staged s i)) <$> dirty_slots N setMask s in
  (i < N)%nat →
  needs_bind setMask
    (mk (mDescriptorPool s) (bound_after tgts (mHistory s)) (mStashedSets s) last) i
  = false.
Proof.
  intros tgts Hi. unfold needs_bind, staged. cbn [mHistory mStashedSets].
  fold (staged s i). rewrite lookup_bound_after.
  destruct (mask_bit setMask i) eqn:Hm; [cbn|done].
  case_decide as Hin.
  - by destruct (mHistory s !! staged s i).
  - destruct (needs_bind setMask s i) eqn:Hnb.
    + exfalso. apply Hin. subst tgts.
      rewrite <- list_fmap_compose. apply list_elem_of_fmap.
      exists i. split; [done|]. by apply dirty_slots_elem.
    + unfold needs_bind in Hnb. by rewrite Hm in Hnb.
Qed.

(** C1. A commit that follows a commit with the same pipeline layout
    and mask, nothing having touched the manager in between, changes
    nothing: no call reaches the driver, and the manager and the command
    stream stay as the first commit left them. *)
Theorem commit_twice_is_noop commands (pipelineLayout setMask : Z) s g s1 commands1 g1 :
  commit N commands pipelineLayout setMask s g = Done (s1, commands1, g1) →
  commit N commands1 pipelineLayout setMask s1 g1 = Done (s1, commands1, g1)
  ∧ is_noop N pipelineLayout setMask s1 = true.
Proof.
  rewrite !commit_closed.
  destruct (is_noop N pipelineLayout setMask s) eqn:Hn.
  { intros [= <- <- <-]. by rewrite Hn. }
  cbn zeta. destruct (forallb _ _); [|done].
  intros [= <- <- <-].
  assert (Hs : is_noop N pipelineLayout setMask
                 (mk (mDescriptorPool s)
                    (bound_after ((λ i, (i, staged s i)) <$> dirty_slots N setMask s)
                       (mHistory s))
                    (mStashedSets s)
                    (BoundInfo.mk pipelineLayout setMask (mStashedSets s))) = true).
  { unfold is_noop. cbn [mLastBoundInfo mStashedSets].
    rewrite BoundInfo_eqb_refl, andb_true_r.
    apply forallb_forall. intros i Hi%in_seq.
    rewrite bound_after_clean; [done|lia]. }
  by rewrite Hs.
Qed.

Lemma wired_bindable s key h :
  wired s → mHistory s !! key = Some h → bindable (mHistory s) key = true.
Proof.
  intros Hw Hk. unfold bindable, bind_view. rewrite Hk. cbn.
  by rewrite (Hw _ _ Hk).
Qed.

Lemma wired_targets_bindable setMask s :
  wired s →
  forallb (λ target, bindable (mHistory s) target.2)
    ((λ i, (i, staged s i)) <$> dirty_slots N setMask s) = true.
Proof.
  intros Hw. apply forallb_forall. intros [i key] Hin.
  apply list_elem_of_In, list_elem_of_fmap in Hin as (j & [= -> ->] & Hj).
  apply dirty_slots_elem in Hj as [_ Hj].
  apply needs_bind_spec in Hj as (_ & h & Hh & _).
  by eapply wired_bindable.
Qed.

Lemma wired_bind_calls cmdbuffer pipelineLayout setMask s :
  wired s →
  bind_call cmdbuffer pipelineLayout (mHistory s)
    <$> ((λ i, (i, staged s i)) <$> dirty_slots N setMask s)
  = slot_bind cmdbuffer pipelineLayout s <$> dirty_slots N setMask s.
Proof.
  intros Hw. rewrite <- list_fmap_compose. apply list_fmap_ext.
  intros k i Hi. apply list_elem_of_lookup_2 in Hi.
  apply dirty_slots_elem in Hi as [_ Hi].
  apply needs_bind_spec in Hi as (_ & h & Hh & _).
  unfold bind_call, slot_bind, bind_view. cbn. rewrite Hh. cbn.
  by rewrite (Hw _ _ Hh).
Qed.

Lemma wired_bind_acquired setMask s :
  wired s →
  bind_acquired (mHistory s) <$> ((λ i, (i, staged s i)) <$> dirty_slots N setMask s)
  = (λ i, {| vkSet := staged s i |}) <$> dirty_slots N setMask s.
Proof.
  intros Hw. rewrite <- list_fmap_compose. apply list_fmap_ext.
  intros k i Hi. apply list_elem_of_lookup_2 in Hi.
  apply dirty_slots_elem in Hi as [_ Hi].
  apply needs_bind_spec in Hi as (_ & h & Hh & _).
  unfold bind_acquired, bind_view. cbn. rewrite Hh. cbn.
  by rewrite (Hw _ _ Hh).
Qed.

(** [commit] on a manager whose histories are wired: it completes. *)
Lemma commit_wired commands (pipelineLayout setMask : Z) s g :
  wired s →
  commit N commands pipelineLayout setMask s g
  = if is_noop N pipelineLayout setMask s then Done (s, commands, g)
    else
      Done (mk (mDescriptorPool s)
              (bound_after ((λ i, (i, staged s i)) <$> dirty_slots N setMask s)
                 (mHistory s))
              (mStashedSets s)
              (BoundInfo.mk pipelineLayout setMask (mStashedSets s)),
            {| buffer := buffer commands;
               acquired := acquired commands
                           ++ ((λ i, {| vkSet := staged s i |})
                                 <$> dirty_slots N setMask s) |},
            {| pending := pending g;
               issued := issued g
                         ++ (slot_bind (buffer commands) pipelineLayout s
                               <$> dirty_slots N setMask s) |}).
Proof.
  intros Hw. rewrite commit_closed. cbn zeta.
  rewrite wired_targets_bindable, wired_bind_calls, wired_bind_acquired by done.
  reflexivity.
Qed.

(** C2. A commit that is not skipped sends one bind command for each
    slot that is active in the mask and whose staged set has a history
    reporting [bound == false], for no other slot, in increasing order of
    the slots, and records pipeline layout, mask and stashed sets as the
    last committed state. *)
Theorem commit_binds_what_needs_it commands (pipelineLayout setMask : Z) s g :
  wired s →
  is_noop N pipelineLayout setMask s = false →
  ∃ s' commands' g',
    commit N commands pipelineLayout setMask s g = Done (s', commands', g')
    ∧ issued g'
      = issued g ++ (slot_bind (buffer commands) pipelineLayout s
                       <$> dirty_slots N setMask s)
    ∧ (∀ i, i ∈ dirty_slots N setMask s
            ↔ (i < N)%nat ∧ mask_bit setMask i = true
              ∧ ∃ h, mHistory s !! staged s i = Some h
                     ∧ DescriptorSetHistory.bound h = false)
    ∧ StronglySorted lt (dirty_slots N setMask s)
    ∧ mLastBoundInfo s' = BoundInfo.mk pipelineLayout setMask (mStashedSets s)
    ∧ mStashedSets s' = mStashedSets s.
Proof.
  intros Hw Hn. rewrite commit_wired, Hn by done.
  do 3 eexists. split; [reflexivity|]. cbn.
  split; [done|].
  split; [intros i; by rewrite dirty_slots_elem, needs_bind_spec|].
  split; [apply filter_seq_sorted|done].
Qed.

End CommitFacts.

Lemma commit_twice_is_noop_witness :
  ∃ s1 commands1 g1,
    Impl.commit 4 Sample.stream 9 5 Sample.two_staged Sample.quiet_gpu
      = Done (s1, commands1, g1)
    ∧ Impl.commit 4 commands1 9 5 s1 g1 = Done (s1, commands1, g1)
    ∧ length (issued g1) = 2%nat.
Proof.
  destruct (Impl.commit 4 Sample.stream 9 5 Sample.two_staged Sample.quiet_gpu)
    as [[[s1 commands1] g1]|f] eqn:E; [|by vm_compute in E].
  exists s1, commands1, g1. split; [reflexivity|]. split.
  - apply (commit_twice_is_noop 4 Sample.stream 9 5 Sample.two_staged
             Sample.quiet_gpu s1 commands1 g1 E).
  - vm_compute in E. by injection E as <- <- <-.
Defined.

Lemma commit_binds_what_needs_it_witness :
  ∃ s' commands' g',
    Impl.commit 4 Sample.stream 9 5 Sample.two_staged Sample.quiet_gpu
      = Done (s', commands', g')
    ∧ issued g' = [vkCmdBindDescriptorSets 500 9 0 7 0 [];
                   vkCmdBindDescriptorSets 500 9 2 8 0 []]
    ∧ Impl.mLastBoundInfo s' = BoundInfo.mk 9 5 [7; 0; 8; 0].
Proof.
  destruct (commit_binds_what_needs_it 4 Sample.stream 9 5 Sample.two_staged
              Sample.quiet_gpu)
    as (s' & commands' & g' & E & Hi & _ & _ & Hl & _).
  - by_decision.
  - by_computation.
  - exists s', commands', g'. split; [exact E|]. split; [exact Hi | exact Hl].
Defined.

(* ===================================================================== *)
(** ** The bits of [mWritten] *)

Section HistoryBits.
Import DescriptorSetHistory.

Implicit Types (h : DescriptorSetHistory.t).

Lemma land_bit (w b : Z) :
  0 ≤ b → (Z.land w (Z.shiftl 1 b) =? 0) = negb (Z.testbit w b).
Proof.
  intros Hb. rewrite Z.shiftl_1_l.
  assert (Hl : Z.land w (2 ^ b) = if Z.testbit w b then 2 ^ b else 0).
  { apply Z.bits_inj'. intros n Hn. rewrite Z.land_spec, Z.pow2_bits_eqb by done.
    destruct (Z.eqb_spec b n) as [->|Hne].
    - destruct (Z.testbit w n); [|by rewrite Z.bits_0].
      by rewrite Z.pow2_bits_eqb, Z.eqb_refl by done.
    - rewrite andb_false_r. destruct (Z.testbit w b); [|by rewrite Z.bits_0].
      rewrite Z.pow2_bits_eqb by done. symmetry. by apply Z.eqb_neq. }
  rewrite Hl. destruct (Z.testbit w b); [|done].
  apply Z.eqb_neq. assert (0 < 2 ^ b) by (apply Z.pow_pos_nonneg; lia). lia.
Qed.

Lemma uint64_testbit (x n : Z) :
  0 ≤ n → Z.testbit (uint64 x) n = (n <? 64) && Z.testbit x n.
Proof.
  intros Hn. unfold uint64. destruct (Z.ltb_spec n 64).
  - by rewrite Z.mod_pow2_bits_low.
  - by rewrite Z.mod_pow2_bits_high.
Qed.

Lemma shift_one_done (binding bit : Z) :
  shift_one binding = Done bit → 0 ≤ binding < 64 ∧ bit = Z.shiftl 1 binding.
Proof. unfold shift_one. case_bool_decide; [|done]. by intros [= <-]. Qed.

Lemma shift_one_in_range (binding : Z) :
  0 ≤ binding < 64 → shift_one binding = Done (Z.shiftl 1 binding).
Proof. intros H. unfold shift_one. by rewrite bool_decide_eq_true_2. Qed.

(** A [write] that completes had a binding below 64; it sets the bit and
    clears [mBound], and leaves the rest of the history alone. *)
Lemma write_done (binding : Z) h h' :
  write binding h = Done h' →
  0 ≤ binding < 64
  ∧ h' = mk (mResources h) (mSet h) (mTextures h) (mOffsets h) (mMask h) (mLayout h)
            (mCount h) (mMaxIndex h)
            (uint64 (Z.lor (mWritten h) (Z.shiftl 1 binding))) false.
Proof.
  unfold write. destruct (shift_one binding) as [bit|] eqn:E; [|done].
  apply shift_one_done in E as [? ->]. by intros [= <-].
Qed.

Lemma write_in_range (binding : Z) h :
  0 ≤ binding < 64 → ∃ h', write binding h = Done h'.
Proof. intros H. unfold write. rewrite shift_one_in_range by done. by eexists. Qed.

Lemma write_texture_done (binding : Z) range (texture : VulkanTexture) h h' :
  write_texture binding range texture h = Done h' →
  ∃ h1, write binding h = Done h1
        ∧ mSet h' = mSet h1 ∧ mBound h' = mBound h1 ∧ mWritten h' = mWritten h1.
Proof.
  unfold write_texture. destruct (write binding h) as [h1|]; [|done].
  intros [= <-]. by exists h1.
Qed.

Lemma written_of_bits (binding : Z) h h1 :
  mWritten h = mWritten h1 → written binding h = written binding h1.
Proof. intros H. unfold written. by rewrite H. Qed.

Lemma write_then_written (binding : Z) h h' :
  write binding h = Done h' → written binding h' = Done true.
Proof.
  intros [Hb ->]%write_done. unfold written. rewrite shift_one_in_range by done.
  cbn [mbind outcome_bind mWritten]. f_equal.
  rewrite land_bit, negb_involutive, uint64_testbit by lia.
  rewrite Z.lor_spec, Z.shiftl_1_l, Z.pow2_bits_eqb, Z.eqb_refl by lia.
  rewrite orb_true_r. by destruct (Z.ltb_spec binding 64); [|lia].
Qed.

End HistoryBits.

(* ===================================================================== *)
(** ** Properties of [bind] and of the updates *)

Section StagingFacts.
Import Impl.

Implicit Types (s : Impl.t) (g : Gpu) (set : VulkanDescriptorSet).
Implicit Types (hist : gmap Z DescriptorSetHistory.t) (key lastSet : Z).

Lemma subscript_closed key hist :
  subscript key hist
  = (default DescriptorSetHistory.default (hist !! key),
     <[key := default DescriptorSetHistory.default (hist !! key)]> hist).
Proof.
  unfold subscript. destruct (hist !! key) as [h|] eqn:E; cbn; [|done].
  by rewrite insert_id.
Qed.

(** [bind] in closed form, for a slot of the array. *)
Lemma bind_closed (setIndex : nat) set (offsets : list Z) s g lastSet :
  mStashedSets s !! setIndex = Some lastSet →
  let h0 := default DescriptorSetHistory.default (mHistory s !! vkSet set) in
  let hist1 := <[vkSet set := DescriptorSetHistory.setOffsets offsets h0]> (mHistory s) in
  bind setIndex set offsets s g
  = if lastSet =? VK_NULL_HANDLE
    then Done (mk (mDescriptorPool s) hist1
                 (<[setIndex := vkSet set]> (mStashedSets s)) (mLastBoundInfo s), g)
    else
      match hist1 !! lastSet with
      | Some last =>
          Done (mk (mDescriptorPool s)
                  (<[lastSet := DescriptorSetHistory.unbind last]> hist1)
                  (<[setIndex := vkSet set]> (mStashedSets s)) (mLastBoundInfo s), g)
      | None => Abort InvariantPanic
      end.
Proof.
  intros Hslot h0 hist1. unfold bind.
  rewrite subscript_closed, insert_insert_eq. fold h0. fold hist1. rewrite Hslot.
  destruct (lastSet =? VK_NULL_HANDLE); cbn; [done|].
  destruct (hist1 !! lastSet) as [last|] eqn:E.
  - rewrite bool_decide_eq_true_2 by eauto. cbn.
    rewrite subscript_closed, E. cbn. by rewrite insert_insert_eq.
  - rewrite bool_decide_eq_false_2; [done|]. by intros [? ?].
Qed.

(** C7. [bind] at a slot of the array whose occupant is null, the set
    itself or a tracked set: the offsets are stored in the history of the
    set, which reports [bound == false]; nothing is sent to the driver;
    the slot now holds the set and the other slots are as before. An
    occupant that was another set has its history marked unbound; when the
    slot was empty or held the set itself, no history of another set
    changes. *)
Theorem bind_stages_the_set (setIndex : nat) set (offsets : list Z) s g lastSet :
  mStashedSets s !! setIndex = Some lastSet →
  lastSet = VK_NULL_HANDLE ∨ lastSet = vkSet set ∨ is_Some (mHistory s !! lastSet) →
  ∃ s',
    bind setIndex set offsets s g = Done (s', g)
    ∧ (∃ h, mHistory s' !! vkSet set = Some h
            ∧ DescriptorSetHistory.mOffsets h = offsets
            ∧ DescriptorSetHistory.bound h = false)
    ∧ mStashedSets s' = <[setIndex := vkSet set]> (mStashedSets s)
    ∧ mDescriptorPool s' = mDescriptorPool s
    ∧ mLastBoundInfo s' = mLastBoundInfo s
    ∧ (lastSet ≠ VK_NULL_HANDLE → lastSet ≠ vkSet set →
       mHistory s' !! lastSet = DescriptorSetHistory.unbind <$> mHistory s !! lastSet
       ∧ ∃ h, mHistory s' !! lastSet = Some h ∧ DescriptorSetHistory.bound h = false)
    ∧ (∀ key, key ≠ vkSet set → key ≠ lastSet ∨ lastSet = VK_NULL_HANDLE →
       mHistory s' !! key = mHistory s !! key).
Proof.
  intros Hslot Hlast.
  pose proof (bind_closed setIndex set offsets s g lastSet Hslot) as Hb.
  cbn zeta in Hb. revert Hb.
  set (h0 := default DescriptorSetHistory.default (mHistory s !! vkSet set)).
  destruct (Z.eqb_spec lastSet VK_NULL_HANDLE) as [Hnull|Hnull].
  { intros Hb. eexists. split; [exact Hb|].
    cbn [mHistory mStashedSets mDescriptorPool mLastBoundInfo]. split_and!; try done.
    - eexists. rewrite lookup_insert_eq. done.
    - intros key Hk _. by rewrite lookup_insert_ne. }
  destruct (decide (lastSet = vkSet set)) as [->|Hne].
  { rewrite lookup_insert_eq.
    intros Hb. eexists. split; [exact Hb|].
    cbn [mHistory mStashedSets mDescriptorPool mLastBoundInfo]. split_and!; try done.
    - eexists. rewrite lookup_insert_eq. done.
    - intros key Hk _. by rewrite !lookup_insert_ne. }
  destruct Hlast as [?|[?|[last Hl]]]; [done..|].
  rewrite lookup_insert_ne by done. rewrite Hl.
  intros Hb. eexists. split; [exact Hb|].
    cbn [mHistory mStashedSets mDescriptorPool mLastBoundInfo]. split_and!; try done.
  - eexists. rewrite lookup_insert_ne, lookup_insert_eq by done. done.
  - intros _ _. rewrite lookup_insert_eq. split; [done|]. by eexists.
  - intros key Hk [Hkl|?]; [|done]. by rewrite !lookup_insert_ne.
Qed.

End StagingFacts.

Lemma bind_stages_the_set_witness :
  ∃ s',
    Impl.bind 0 {| vkSet := 8 |} [16] Sample.two_staged Sample.quiet_gpu
      = Done (s', Sample.quiet_gpu)
    ∧ Impl.mStashedSets s' = [8; 0; 8; 0]
    ∧ (∃ h, Impl.mHistory s' !! 7 = Some h ∧ DescriptorSetHistory.bound h = false).
Proof.
  destruct (bind_stages_the_set 0 {| vkSet := 8 |} [16] Sample.two_staged
              Sample.quiet_gpu 7)
    as (s' & E & _ & Hst & _ & _ & Hlast & _).
  - reflexivity.
  - right. right. by_decision.
  - exists s'. split; [exact E|]. split; [exact Hst|].
    apply Hlast; discriminate.
Defined.

Section UpdateFacts.
Import Impl.

Implicit Types (s : Impl.t) (g : Gpu) (set : VulkanDescriptorSet).

Lemma updateBuffer_closed set (binding : Z) bufferObject (offset size : Z) s g :
  let h0 := default DescriptorSetHistory.default (mHistory s !! vkSet set) in
  updateBuffer set binding bufferObject offset size s g
  = (h ← DescriptorSetHistory.write binding h0;
     Done (set_mHistory (<[vkSet set := h]> (mHistory s)) s,
           record_call
             (vkUpdateDescriptorSets
                (buffer_write set binding bufferObject offset size h0)) g)).
Proof.
  intros h0. unfold updateBuffer, DescriptorSetHistory.write.
  rewrite subscript_closed. fold h0.
  destruct (DescriptorSetHistory.shift_one binding) as [bit|] eqn:E; [|done].
  apply shift_one_done in E as [_ ->]. cbn [mbind outcome_bind].
  by rewrite insert_insert_eq.
Qed.

Lemma updateSampler_closed set (binding : Z) (texture : VulkanTexture) (sampler : Z) s g :
  let h0 := default DescriptorSetHistory.default (mHistory s !! vkSet set) in
  ∃ write,
    updateSampler set binding texture sampler s g
    = (h ← DescriptorSetHistory.write_texture binding (getPrimaryViewRange texture)
             texture h0;
       Done (set_mHistory (<[vkSet set := h]> (mHistory s)) s,
             record_call (vkUpdateDescriptorSets write) g))
    ∧ dstSet write = vkSet set ∧ dstBinding write = binding
    ∧ descriptorType write = VK_DESCRIPTOR_TYPE_COMBINED_IMAGE_SAMPLER.
Proof.
  intros h0. unfold updateSampler. rewrite subscript_closed. fold h0.
  eexists. split.
  { destruct (DescriptorSetHistory.write_texture _ _ _ h0) as [h|];
      cbn [mbind outcome_bind]; [|done].
    rewrite insert_insert_eq. reflexivity. }
  done.
Qed.

(** C9, as the code has it. A handle without a tracked history makes
    neither [bind] nor the updates fail on that account: [operator[]] of
    the history map default-constructs a history for the handle, with a
    null wrapper, and the call goes on with it and returns. [bind], at a
    slot of the array that is empty or holds a tracked set (its one
    assertion is on that occupant), stores the offsets in the new history
    and stashes the handle. The updates, for a binding below 64 (the bits
    of [mWritten]), send their write to the driver and mark the binding
    written in the new history. *)
Theorem untracked_handle_is_default_constructed set s g :
  mHistory s !! vkSet set = None →
  (∀ (setIndex : nat) (offsets : list Z) (lastSet : Z),
     mStashedSets s !! setIndex = Some lastSet →
     lastSet = VK_NULL_HANDLE ∨ is_Some (mHistory s !! lastSet) →
     ∃ s', bind setIndex set offsets s g = Done (s', g)
           ∧ mHistory s' !! vkSet set
             = Some (DescriptorSetHistory.setOffsets offsets DescriptorSetHistory.default)
           ∧ mStashedSets s' = <[setIndex := vkSet set]> (mStashedSets s))
  ∧ (∀ (binding : Z) bufferObject (offset size : Z),
     0 ≤ binding < 64 →
     ∃ s' g' h,
       updateBuffer set binding bufferObject offset size s g = Done (s', g')
       ∧ DescriptorSetHistory.write binding DescriptorSetHistory.default = Done h
       ∧ mHistory s' !! vkSet set = Some h
       ∧ DescriptorSetHistory.written binding h = Done true
       ∧ DescriptorSetHistory.mSet h = None
       ∧ DescriptorSetHistory.bound h = false
       ∧ issued g'
         = issued g
           ++ [vkUpdateDescriptorSets
                 (buffer_write set binding bufferObject offset size
                    DescriptorSetHistory.default)])
  ∧ (∀ (binding : Z) (texture : VulkanTexture) (sampler : Z),
     0 ≤ binding < 64 →
     ∃ s' g' h write,
       updateSampler set binding texture sampler s g = Done (s', g')
       ∧ DescriptorSetHistory.write_texture binding (getPrimaryViewRange texture)
           texture DescriptorSetHistory.default = Done h
       ∧ mHistory s' !! vkSet set = Some h
       ∧ DescriptorSetHistory.written binding h = Done true
       ∧ DescriptorSetHistory.mSet h = None
       ∧ DescriptorSetHistory.bound h = false
       ∧ issued g' = issued g ++ [vkUpdateDescriptorSets write]
       ∧ dstSet write = vkSet set ∧ dstBinding write = binding).
Proof.
  intros Hno. split_and!.
  - intros setIndex offsets lastSet Hslot Hlast.
    pose proof (bind_closed setIndex set offsets s g lastSet Hslot) as Hb.
    cbn zeta in Hb. rewrite Hno in Hb. cbn [default from_option id] in Hb. revert Hb.
    destruct (Z.eqb_spec lastSet VK_NULL_HANDLE) as [Hnull|Hnull].
    { intros Hb. eexists. split; [exact Hb|].
      cbn [mHistory mStashedSets]. by rewrite lookup_insert_eq. }
    destruct Hlast as [?|[last Hl]]; [done|].
    assert (Hne : vkSet set ≠ lastSet) by congruence.
    rewrite lookup_insert_ne by done. rewrite Hl.
    intros Hb. eexists. split; [exact Hb|].
    cbn [mHistory mStashedSets].
    by rewrite lookup_insert_ne, lookup_insert_eq by done.
  - intros binding bufferObject offset size Hb.
    rewrite updateBuffer_closed. cbn zeta. rewrite Hno.
    cbn [default from_option id].
    destruct (write_in_range binding DescriptorSetHistory.default Hb) as [h Hh].
    rewrite Hh. cbn [mbind outcome_bind].
    do 2 eexists. exists h. split; [reflexivity|].
    cbn [set_mHistory mHistory issued record_call].
    rewrite lookup_insert_eq. split_and!; try done.
    + by eapply write_then_written.
    + by apply write_done in Hh as [_ ->].
    + by apply write_done in Hh as [_ ->].
  - intros binding texture sampler Hb.
    destruct (updateSampler_closed set binding texture sampler s g)
      as (write & -> & Hset & Hbinding & _).
    rewrite Hno. cbn [default from_option id].
    destruct (write_in_range binding DescriptorSetHistory.default Hb) as [h1 Hh1].
    destruct (DescriptorSetHistory.write_texture binding (getPrimaryViewRange texture)
                texture DescriptorSetHistory.default) as [h|] eqn:Hh.
    2:{ unfold DescriptorSetHistory.write_texture in Hh. by rewrite Hh1 in Hh. }
    cbn [mbind outcome_bind].
    do 2 eexists. exists h, write. split; [reflexivity|].
    cbn [set_mHistory mHistory issued record_call].
    rewrite lookup_insert_eq.
    destruct (write_texture_done _ _ _ _ _ Hh) as (h2 & Hh2 & Hs & Hbd & Hw).
    rewrite Hh1 in Hh2. injection Hh2 as <-.
    split_and!; try done.
    + rewrite (written_of_bits binding h h1 Hw). by eapply write_then_written.
    + rewrite Hs. by apply write_done in Hh1 as [_ ->].
    + unfold DescriptorSetHistory.bound. rewrite Hbd.
      by apply write_done in Hh1 as [_ ->].
Qed.

End UpdateFacts.

Lemma untracked_handle_is_default_constructed_witness :
  (∃ s', Impl.bind 1 {| vkSet := 9 |} [32] Sample.two_staged Sample.quiet_gpu
         = Done (s', Sample.quiet_gpu)
         ∧ Impl.mHistory s' !! 9
           = Some (DescriptorSetHistory.setOffsets [32] DescriptorSetHistory.default)
         ∧ Impl.mStashedSets s' = [7; 9; 8; 0])
  ∧ ∃ s' g' h,
      Impl.updateBuffer {| vkSet := 9 |} 63 {| getGpuBuffer := 3 |} 0 64
        Sample.two_staged Sample.quiet_gpu = Done (s', g')
      ∧ Impl.mHistory s' !! 9 = Some h
      ∧ DescriptorSetHistory.written 63 h = Done true.
Proof.
  destruct (untracked_handle_is_default_constructed {| vkSet := 9 |}
              Sample.two_staged Sample.quiet_gpu) as (Hbind & Hbuffer & _).
  - reflexivity.
  - split.
    + apply (Hbind 1%nat [32] 0); [reflexivity | by left].
    + destruct (Hbuffer 63 {| getGpuBuffer := 3 |} 0 64 ltac:(lia))
        as (s' & g' & h & E & _ & Hh & Hw & _).
      by exists s', g', h.
Defined.

(** C9, as it is stated, fails: on a manager that tracks no set, [bind]
    and [updateBuffer] for the handle 7 complete, and leave a history for
    it behind. *)
Lemma untracked_handle_asserts_counterexample :
  Impl.mHistory (Impl.init 4) !! 7 = None
  ∧ (∃ s', Impl.bind 0 {| vkSet := 7 |} [] (Impl.init 4) Sample.quiet_gpu
           = Done (s', Sample.quiet_gpu)
           ∧ is_Some (Impl.mHistory s' !! 7))
  ∧ (∃ s' g', Impl.updateBuffer {| vkSet := 7 |} 0 {| getGpuBuffer := 3 |} 0 64
                (Impl.init 4) Sample.quiet_gpu
              = Done (s', g')
              ∧ is_Some (Impl.mHistory s' !! 7))
  ∧ Impl.bind 0 {| vkSet := 7 |} [] (Impl.init 4) Sample.quiet_gpu
    ≠ Abort InvariantPanic
  ∧ Impl.updateBuffer {| vkSet := 7 |} 0 {| getGpuBuffer := 3 |} 0 64
      (Impl.init 4) Sample.quiet_gpu
    ≠ Abort InvariantPanic.
Proof.
  split_and!.
  - reflexivity.
  - eexists. split; [reflexivity|]. by eexists.
  - do 2 eexists. split; [reflexivity|]. by eexists.
  - discriminate.
  - discriminate.
Qed.

(* ===================================================================== *)
(** ** Properties of [destroySet] *)

Section DestroyFacts.
Import Impl.

(** [N] is [UNIQUE_DESCRIPTOR_SET_COUNT], the number of slots. *)
Context (N : nat).

Implicit Types (s : Impl.t) (g : Gpu) (set : VulkanDescriptorSet).

Lemma at_index_lookup (l : list Z) (i : nat) (x : Z) :
  l !! i = Some x → at_index l i = x.
Proof. intros H. unfold at_index. by rewrite H. Qed.

Lemma destroy_loop (destroyed : Z) (l : list Z) (n : nat) :
  (n ≤ length l)%nat →
  fold_left
    (λ (stashed : list Z) i,
       if at_index stashed i =? destroyed then <[i := VK_NULL_HANDLE]> stashed
       else stashed)
    (seq 0 n) l
  = (clear_slot destroyed <$> take n l) ++ drop n l.
Proof.
  induction n as [|n IH]; intros Hn.
  - cbn. by rewrite drop_0.
  - rewrite seq_S, fold_left_app, IH by lia. cbn [fold_left Nat.add].
    destruct (lookup_lt_is_Some_2 l n) as [x Hx]; [lia|].
    rewrite (take_S_r _ _ _ Hx), (drop_S _ _ _ Hx), fmap_app. cbn [fmap list_fmap].
    set (pre := clear_slot destroyed <$> take n l).
    assert (Hlen : length pre = n).
    { unfold pre. rewrite length_fmap, length_take. lia. }
    assert (Hat : at_index (pre ++ x :: drop (S n) l) n = x).
    { apply at_index_lookup. rewrite lookup_app_r by lia.
      by replace (n - length pre)%nat with 0%nat by lia. }
    rewrite Hat. rewrite <- app_assoc. cbn [app]. unfold clear_slot.
    destruct (x =? destroyed); [|done].
    rewrite <- Hlen at 1.
    replace (length pre) with (length pre + 0)%nat by lia.
    by rewrite insert_app_r.
Qed.

Lemma destroySet_closed set s g :
  destroySet set s g
  = Done (mk (mDescriptorPool s) (delete (vkSet set) (mHistory s))
            (clear_slot (vkSet set) <$> mStashedSets s) (mLastBoundInfo s), g).
Proof.
  unfold destroySet. rewrite destroy_loop by done.
  by rewrite firstn_all, drop_all, app_nil_r.
Qed.

Lemma wired_delete key s :
  wired s →
  wired (mk (mDescriptorPool s) (delete key (mHistory s))
           (clear_slot key <$> mStashedSets s) (mLastBoundInfo s)).
Proof. unfold wired. cbn. apply map_Forall_delete. Qed.

(** C8. [destroySet] erases the history of the set and nothing else of
    the history map, puts a null handle in every slot that held the set
    and leaves the other slots, the pools and the last committed state as
    they are; it sends nothing to the driver. A commit that follows, with
    any mask, completes; none of its bind commands is for the destroyed
    set, the command stream does not acquire it, and no history is made
    for it. *)
Theorem destroySet_clears_the_set set s g :
  ∃ s',
    destroySet set s g = Done (s', g)
    ∧ mHistory s' = delete (vkSet set) (mHistory s)
    ∧ length (mStashedSets s') = length (mStashedSets s)
    ∧ (∀ (i : nat) (x : Z), mStashedSets s !! i = Some x →
         mStashedSets s' !! i
         = Some (if decide (x = vkSet set) then VK_NULL_HANDLE else x))
    ∧ mDescriptorPool s' = mDescriptorPool s
    ∧ mLastBoundInfo s' = mLastBoundInfo s
    ∧ (wired s →
       ∀ commands (pipelineLayout setMask : Z) g0,
       ∃ s2 commands2 g2 (slots : list nat),
         commit N commands pipelineLayout setMask s' g0 = Done (s2, commands2, g2)
         ∧ issued g2
           = issued g0 ++ (slot_bind (buffer commands) pipelineLayout s' <$> slots)
         ∧ acquired commands2
           = acquired commands ++ ((λ i, {| vkSet := staged s' i |}) <$> slots)
         ∧ Forall (λ i, staged s' i ≠ vkSet set) slots
         ∧ mHistory s2 !! vkSet set = None).
Proof.
  eexists. split; [apply destroySet_closed|].
  cbn [mHistory mStashedSets mDescriptorPool mLastBoundInfo].
  split_and!; try done.
  - by rewrite length_fmap.
  - intros i x Hx. rewrite list_lookup_fmap, Hx. cbn. unfold clear_slot.
    destruct (Z.eqb_spec x (vkSet set)); by case_decide.
  - intros Hw commands pipelineLayout setMask g0.
    set (s' := mk _ _ _ _).
    assert (Hw' : wired s') by (by apply wired_delete).
    rewrite (commit_wired N commands pipelineLayout setMask s' g0 Hw').
    destruct (is_noop N pipelineLayout setMask s').
    { exists s', commands, g0, []. cbn. rewrite !app_nil_r.
      split_and!; try done. apply lookup_delete_eq. }
    do 3 eexists. exists (dirty_slots N setMask s').
    split; [reflexivity|]. cbn [issued acquired mHistory].
    split_and!; try done.
    + apply Forall_forall. intros i Hi.
      apply dirty_slots_elem in Hi as [_ Hi].
      apply needs_bind_spec in Hi as (_ & h & Hh & _).
      intros Heq. rewrite Heq in Hh. subst s'. cbn in Hh.
      by rewrite lookup_delete_eq in Hh.
    + rewrite lookup_bound_after. subst s'. cbn [mHistory].
      rewrite lookup_delete_eq. by case_decide.
Qed.

End DestroyFacts.

Lemma destroySet_clears_the_set_witness :
  ∃ s',
    Impl.destroySet {| vkSet := 7 |} Sample.two_staged Sample.quiet_gpu
      = Done (s', Sample.quiet_gpu)
    ∧ Impl.mStashedSets s' !! 0%nat = Some VK_NULL_HANDLE
    ∧ Impl.mStashedSets s' !! 2%nat = Some 8
    ∧ ∃ s2 commands2 g2,
        Impl.commit 4 Sample.stream 9 5 s' Sample.quiet_gpu = Done (s2, commands2, g2)
        ∧ issued g2 = [vkCmdBindDescriptorSets 500 9 2 8 0 []].
Proof.
  destruct (destroySet_clears_the_set 4 {| vkSet := 7 |} Sample.two_staged
              Sample.quiet_gpu)
    as (s' & E & _ & _ & Hslots & _ & _ & Hcommit).
  exists s'. split; [exact E|].
  split; [apply (Hslots 0%nat 7 eq_refl)|].
  split; [apply (Hslots 2%nat 8 eq_refl)|].
  destruct (Hcommit ltac:(by_decision) Sample.stream 9 5 Sample.quiet_gpu)
    as (s2 & commands2 & g2 & slots & E2 & _).
  exists s2, commands2, g2. split; [exact E2|].
  vm_compute in E. injection E as <-.
  vm_compute in E2. by injection E2 as <- <- <-.
Defined.

(* ===================================================================== *)
(** ** Writes and offsets force a new bind *)

Section DirtinessFacts.
Import Impl.

(** [N] is [UNIQUE_DESCRIPTOR_SET_COUNT], the number of slots. *)
Context (N : nat).

Implicit Types (s : Impl.t) (g : Gpu) (set : VulkanDescriptorSet).

Lemma wired_insert s key h h' (hist : gmap Z DescriptorSetHistory.t) :
  map_Forall (λ key h, DescriptorSetHistory.mSet h = Some {| vkSet := key |}) hist →
  hist !! key = Some h →
  DescriptorSetHistory.mSet h' = DescriptorSetHistory.mSet h →
  map_Forall (λ key h, DescriptorSetHistory.mSet h = Some {| vkSet := key |})
    (<[key := h']> hist).
Proof.
  intros Hw Hk Hs. apply map_Forall_insert_2; [|done].
  rewrite Hs. by apply (Hw _ _ Hk).
Qed.

(** A mutation of a tracked set keeps the histories wired and leaves the
    history of the set unbound. *)
Lemma mutate_tracked (m : mutation) set s g s1 g1 :
  wired s →
  is_Some (mHistory s !! vkSet set) →
  mutate m set s g = Done (s1, g1) →
  wired s1
  ∧ ∃ h, mHistory s1 !! vkSet set = Some h ∧ DescriptorSetHistory.bound h = false.
Proof.
  intros Hw [h0 Hh0] Hm. destruct m as [b bo o sz|b tx sm|j offs]; cbn [mutate] in Hm.
  - rewrite updateBuffer_closed in Hm. cbn zeta in Hm. rewrite Hh0 in Hm.
    cbn [default from_option id] in Hm.
    destruct (DescriptorSetHistory.write b h0) as [h1|] eqn:Eh; [|done].
    apply write_done in Eh as [_ ->]. cbn [mbind outcome_bind] in Hm.
    injection Hm as <- <-. unfold wired. cbn. split.
    + by eapply wired_insert.
    + eexists. by rewrite lookup_insert_eq.
  - destruct (updateSampler_closed set b tx sm s g) as (w & E & _).
    rewrite E, Hh0 in Hm. cbn [default from_option id] in Hm.
    destruct (DescriptorSetHistory.write_texture b _ tx h0) as [h1|] eqn:Eh; [|done].
    apply write_texture_done in Eh as (h2 & [_ ->]%write_done & Hs & Hbd & _).
    cbn [mbind outcome_bind] in Hm.
    injection Hm as <- <-. unfold wired. cbn. split.
    + by eapply wired_insert.
    + exists h1. by rewrite lookup_insert_eq.
  - destruct (mStashedSets s !! j) as [lastSet|] eqn:Hslot.
    2:{ unfold bind in Hm. rewrite subscript_closed, Hslot in Hm. done. }
    rewrite (bind_closed _ _ _ _ _ _ Hslot) in Hm. cbn zeta in Hm.
    rewrite Hh0 in Hm. cbn [default from_option id] in Hm.
    set (hist1 := <[vkSet set := DescriptorSetHistory.setOffsets offs h0]> (mHistory s))
      in *.
    assert (Hw1 : map_Forall
                    (λ key h, DescriptorSetHistory.mSet h = Some {| vkSet := key |}) hist1).
    { by eapply wired_insert. }
    destruct (lastSet =? VK_NULL_HANDLE).
    { injection Hm as <- <-. unfold wired. cbn. split; [done|].
      eexists. subst hist1. by rewrite lookup_insert_eq. }
    destruct (hist1 !! lastSet) as [last|] eqn:Hl; [|done].
    injection Hm as <- <-. unfold wired. cbn. split.
    + by eapply wired_insert.
    + destruct (decide (lastSet = vkSet set)) as [->|Hne].
      * eexists. by rewrite lookup_insert_eq.
      * eexists. rewrite lookup_insert_ne by done.
        subst hist1. by rewrite lookup_insert_eq.
Qed.

Lemma needs_bind_not_noop (pipelineLayout setMask : Z) s (i : nat) :
  (i < N)%nat → needs_bind setMask s i = true →
  is_noop N pipelineLayout setMask s = false.
Proof.
  intros Hi Hnb. unfold is_noop.
  destruct (forallb _ (seq 0 N)) eqn:E; [|done].
  rewrite forallb_forall in E. specialize (E i).
  rewrite Hnb in E. cbn in E. discriminate E. apply in_seq. lia.
Qed.

(** C3. A write and a change of offsets leave a history reporting
    [bound == false] (a write is one of a binding below 64, the bits of
    [mWritten]). Through the manager: after [updateBuffer],
    [updateSampler] or a [bind] with new offsets on a tracked set, the
    history of the set is unbound, and the next commit whose mask covers a
    slot where the set is stashed completes and sends a bind command for
    that slot, whatever the last committed state is. *)
Theorem mutation_forces_rebind (m : mutation) set s g s1 g1 (i : nat)
    commands (pipelineLayout setMask : Z) :
  wired s →
  is_Some (mHistory s !! vkSet set) →
  mutate m set s g = Done (s1, g1) →
  (i < N)%nat →
  staged s1 i = vkSet set →
  mask_bit setMask i = true →
  (∀ h binding, 0 ≤ binding < 64 →
     ∃ h', DescriptorSetHistory.write binding h = Done h'
           ∧ DescriptorSetHistory.bound h' = false)
  ∧ (∀ h binding range texture, 0 ≤ binding < 64 →
     ∃ h', DescriptorSetHistory.write_texture binding range texture h = Done h'
           ∧ DescriptorSetHistory.bound h' = false)
  ∧ (∀ h offsets,
       DescriptorSetHistory.bound (DescriptorSetHistory.setOffsets offsets h) = false)
  ∧ (∃ h, mHistory s1 !! vkSet set = Some h ∧ DescriptorSetHistory.bound h = false)
  ∧ ∃ s2 commands2 g2 before after,
      commit N commands pipelineLayout setMask s1 g1 = Done (s2, commands2, g2)
      ∧ issued g2
        = issued g1 ++ before
          ++ [slot_bind (buffer commands) pipelineLayout s1 i] ++ after.
Proof.
  intros Hw Htracked Hm Hi Hstaged Hbit.
  destruct (mutate_tracked m set s g s1 g1 Hw Htracked Hm) as (Hw1 & h & Hh & Hb).
  split_and!; try done.
  { intros h0 binding Hin. destruct (write_in_range binding h0 Hin) as [h' Hh'].
    exists h'. split; [done|]. by apply write_done in Hh' as [_ ->]. }
  { intros h0 binding range texture Hin.
    destruct (write_in_range binding h0 Hin) as [h' Hh'].
    unfold DescriptorSetHistory.write_texture. rewrite Hh'.
    eexists. split; [reflexivity|]. by apply write_done in Hh' as [_ ->]. }
  { by exists h. }
  assert (Hnb : needs_bind setMask s1 i = true).
  { apply needs_bind_spec. split; [done|]. exists h. by rewrite Hstaged. }
  rewrite (commit_wired N commands pipelineLayout setMask s1 g1 Hw1).
  rewrite (needs_bind_not_noop pipelineLayout setMask s1 i Hi Hnb).
  assert (Hin : i ∈ dirty_slots N setMask s1) by (by apply dirty_slots_elem).
  apply list_elem_of_split in Hin as (l1 & l2 & Hsplit).
  do 3 eexists.
  exists (slot_bind (buffer commands) pipelineLayout s1 <$> l1),
         (slot_bind (buffer commands) pipelineLayout s1 <$> l2).
  split; [reflexivity|]. cbn [issued].
  by rewrite Hsplit, fmap_app.
Qed.

End DirtinessFacts.

Lemma mutation_forces_rebind_witness :
  ∃ s1 g1 s2 commands2 g2,
    Impl.updateBuffer {| vkSet := 7 |} 0 {| getGpuBuffer := 3 |} 0 64
      Sample.two_bound Sample.quiet_gpu
      = Done (s1, g1)
    ∧ BoundInfo.eqb 4 (Impl.mLastBoundInfo s1)
        (BoundInfo.mk 9 5 (Impl.mStashedSets s1)) = true
    ∧ Impl.commit 4 Sample.stream 9 5 s1 g1 = Done (s2, commands2, g2)
    ∧ issued g2 = issued g1 ++ [vkCmdBindDescriptorSets 500 9 0 7 0 []].
Proof.
  destruct (Impl.updateBuffer {| vkSet := 7 |} 0 {| getGpuBuffer := 3 |} 0 64
              Sample.two_bound Sample.quiet_gpu)
    as [[s1 g1]|f] eqn:E1; [|by vm_compute in E1].
  destruct (mutation_forces_rebind 4
              (UpdateBuffer 0 {| getGpuBuffer := 3 |} 0 64) {| vkSet := 7 |}
              Sample.two_bound Sample.quiet_gpu s1 g1 0%nat Sample.stream
              9 5 ltac:(by_decision) ltac:(by eexists) E1)
    as (_ & _ & _ & _ & s2 & commands2 & g2 & before & after & E2 & Hiss).
  - lia.
  - vm_compute in E1. by injection E1 as <- <-.
  - reflexivity.
  - exists s1, g1, s2, commands2, g2. split; [reflexivity|].
    vm_compute in E1. injection E1 as <- <-.
    split; [by_computation|]. split; [exact E2|].
    vm_compute in E2. by injection E2 as <- <- <-.
Defined.

(* ===================================================================== *)
(** ** The invariant [wired] and two runs of the manager *)

Section WiredFacts.
Import Impl.

(** [N] is [UNIQUE_DESCRIPTOR_SET_COUNT], the number of slots. *)
Context (N : nat).
Context (fromLayoutBitmask : Bitmask.t → DescriptorCount.t).

Implicit Types (s : Impl.t) (g : Gpu) (set : VulkanDescriptorSet).

Lemma wired_init : wired (init N).
Proof. unfold wired, init. cbn. apply map_Forall_empty. Qed.

Lemma wired_createSet layout s g set s' g' :
  wired s →
  createSet fromLayoutBitmask layout s g = Done (set, s', g') →
  wired s' ∧ is_Some (mHistory s' !! vkSet set).
Proof.
  intros Hw. unfold createSet.
  destruct (DescriptorInfinitePool.obtainSet _ _ _ _) as [[[v pools] g1]|]; [|done].
  cbn [mbind outcome_bind]. unfold DescriptorSetHistory.create.
  destruct (assert_invariant _) as [[]|]; [|done]. cbn [mbind outcome_bind].
  intros [= <- <- <-]. unfold wired. cbn [mHistory vkSet].
  destruct (mHistory s !! v) as [h|] eqn:E.
  - split; [done | by rewrite E].
  - split; [|by rewrite lookup_insert_eq].
    by apply map_Forall_insert_2.
Qed.

Lemma wired_commit commands (pipelineLayout setMask : Z) s g s' commands' g' :
  wired s →
  commit N commands pipelineLayout setMask s g = Done (s', commands', g') →
  wired s'.
Proof.
  intros Hw. rewrite commit_wired by done.
  destruct (is_noop N pipelineLayout setMask s); intros [= <- <- <-]; [done|].
  intros key h. cbn [mHistory]. rewrite lookup_bound_after.
  case_decide.
  - destruct (mHistory s !! key) as [h0|] eqn:E; [|done].
    intros [= <-]. cbn. by apply (Hw _ _ E).
  - apply Hw.
Qed.

End WiredFacts.

(** The scenario of the design document: one bind command after the
    first commit, none after the second, one more after the new write. *)
Example scenario_trace :
  Sample.scenario
  = Done [ vkCreateDescriptorPool 10
             [Build_VkDescriptorPoolSize VK_DESCRIPTOR_TYPE_UNIFORM_BUFFER 10];
           vkAllocateDescriptorSets 100;
           vkUpdateDescriptorSets
             (buffer_write {| vkSet := 7 |} 0 {| getGpuBuffer := 3 |} 0 64
                (Sample.history_of 7));
           vkCmdBindDescriptorSets 500 9 0 7 0 [];
           vkUpdateDescriptorSets
             (buffer_write {| vkSet := 7 |} 0 {| getGpuBuffer := 3 |} 0 64
                (Sample.history_of 7));
           vkCmdBindDescriptorSets 500 9 0 7 0 [] ].
Proof. vm_compute. reflexivity. Qed.

(** A destroyed set goes back to its pool and is handed out again,
    without a new call to the driver. *)
Example recycling_reuses_the_handle : Sample.recycling = Done (7, 7, 2%nat).
Proof. vm_compute. reflexivity. Qed.

(** [Sample.two_bound] is what the commit of [Sample.two_staged] leaves. *)
Example commit_of_two_staged :
  Impl.commit 4 Sample.stream 9 5 Sample.two_staged Sample.quiet_gpu
  = Done (Sample.two_bound,
          {| buffer := 500; acquired := [{| vkSet := 7 |}; {| vkSet := 8 |}] |},
          {| pending := [];
             issued := [vkCmdBindDescriptorSets 500 9 0 7 0 [];
                        vkCmdBindDescriptorSets 500 9 2 8 0 []] |}).
Proof. vm_compute. reflexivity. Qed.

(* ===================================================================== *)
(** ** More on [DescriptorPool]: counters, masks, free-list entries *)

Section DescriptorPoolMore.
Import DescriptorPool.

Implicit Types (p : DescriptorPool.t) (g : Gpu) (layout : VulkanDescriptorSetLayout).
Implicit Types (m : Bitmask.t) (unused : gmap Bitmask.t (list Z)).

Lemma free_total_nonneg unused : 0 ≤ free_total unused.
Proof.
  unfold free_total. apply (map_fold_weak_ind (λ r _, 0 ≤ r)); [done|].
  intros k sets m' r _ Hr. lia.
Qed.

Lemma free_total_insert unused m (sets : list Z) :
  free_total (<[m := sets]> unused)
  = free_total unused - Z.of_nat (length (default [] (unused !! m)))
    + Z.of_nat (length sets).
Proof.
  assert (Hcomm : ∀ (a b : list Z) (y : Z),
            Z.of_nat (length a) + (Z.of_nat (length b) + y)
            = Z.of_nat (length b) + (Z.of_nat (length a) + y)) by (intros; lia).
  unfold free_total. destruct (unused !! m) as [old|] eqn:E; cbn.
  - rewrite <- insert_delete_eq.
    rewrite map_fold_insert_L; [|intros; apply Hcomm | apply lookup_delete_eq].
    rewrite (map_fold_delete_L _ _ m old unused); [|intros; apply Hcomm | done].
    lia.
  - rewrite map_fold_insert_L; [|intros; apply Hcomm | done]. lia.
Qed.

(** X1. [mUnusedCount] is the number of handles in the free lists: a new
    pool starts that way, and [recycle] and [obtainSet] keep it so as long
    as the count fits its 16 bits. *)
Theorem pool_unused_count_is_free_total :
  (∀ count capacity g, counted (create count capacity g).1)
  ∧ (∀ m (h : Z) p,
       counted p → mUnusedCount p < UINT16_MAX → counted (recycle m h p))
  ∧ (∀ layout p g (h : Z) p' g',
       counted p → mUnusedCount p ≤ UINT16_MAX →
       obtainSet layout p g = Done (h, p', g') → counted p').
Proof.
  unfold counted. split_and!.
  - intros. cbn. unfold free_total. by rewrite map_fold_empty.
  - intros m h p Hc Hlt. rewrite recycle_unfold. cbn.
    rewrite free_total_insert, length_app. cbn.
    pose proof (free_total_nonneg (mUnused p)).
    rewrite uint16_small by lia. lia.
  - intros layout p g h p' g' Hc Hle. unfold obtainSet.
    destruct (mUnused p !! bitmask layout) as [[|x l]|] eqn:E.
    + by intros [= <- <- <-].
    + intros [= <- <- <-]. unfold set_mUnusedCount, set_mUnused.
      cbn [mUnused mUnusedCount].
      rewrite free_total_insert, E. cbn [default from_option id].
      assert (Hlen : Z.of_nat (length (removelast (x :: l)))
                     = Z.of_nat (length (x :: l)) - 1).
      { destruct (exists_last (l := x :: l)) as (l' & y & ->); [done|].
        rewrite removelast_last, length_app. cbn. lia. }
      change (match l with [] => [] | _ :: _ => x :: removelast l end)
        with (removelast (x :: l)).
      rewrite Hlen.
      pose proof (free_total_insert (delete (bitmask layout) (mUnused p))
                    (bitmask layout) (x :: l)) as Hi.
      rewrite insert_delete_id, lookup_delete_eq in Hi by done. cbn in Hi.
      pose proof (free_total_nonneg (delete (bitmask layout) (mUnused p))).
      rewrite uint16_small; cbn [length] in *; lia.
    + destruct (mSize p + 1 >? mCapacity p); [by intros [= <- <- <-]|].
      destruct (allocate_descriptor_set _ _) as [[[] v] g1]; intros [=]; by subst.
Qed.

Lemma pool_unused_count_is_free_total_witness :
  counted (recycle Sample.mask_ubo 43 Sample.pool_recycled)
  ∧ ∃ p', obtainSet Sample.layout_ubo Sample.pool_recycled Sample.quiet_gpu
          = Done (42, p', Sample.quiet_gpu) ∧ counted p'.
Proof.
  destruct pool_unused_count_is_free_total as (_ & Hr & Ho).
  assert (Hc : counted Sample.pool_recycled).
  { unfold counted. by_computation. }
  split.
  - apply Hr; [exact Hc | by_computation].
  - eexists. split; [reflexivity|].
    eapply (Ho Sample.layout_ubo Sample.pool_recycled Sample.quiet_gpu);
      [exact Hc | by_computation | reflexivity].
Defined.

Lemma uint16_succ_pred (c : Z) : uint16 (uint16 (c + 1) - 1) = uint16 (uint16 (c - 1) + 1).
Proof.
  unfold uint16.
  rewrite Zminus_mod_idemp_l, Zplus_mod_idemp_l. f_equal. lia.
Qed.

(** X2. The free list is keyed by the exact mask: recycling a handle
    under one mask and obtaining a set for a layout with another mask do
    not see each other. Whatever [obtainSet] answers on the pool, it
    answers on the pool with the recycled handle, which is left in its
    free list. *)
Theorem pool_masks_do_not_mix layout m (h : Z) p g :
  bitmask layout ≠ m →
  obtainSet layout (recycle m h p) g
  = match obtainSet layout p g with
    | Done (set, p', g') => Done (set, recycle m h p', g')
    | Abort f => Abort f
    end.
Proof.
  intros Hne. rewrite !recycle_unfold. unfold obtainSet. cbn.
  rewrite lookup_insert_ne by done.
  destruct (mUnused p !! bitmask layout) as [[|x l]|] eqn:E.
  - by rewrite recycle_unfold.
  - rewrite recycle_unfold. cbn. rewrite lookup_insert_ne by done.
    rewrite insert_insert_ne by done. by rewrite uint16_succ_pred.
  - destruct (mSize p + 1 >? mCapacity p); [by rewrite recycle_unfold|].
    destruct (allocate_descriptor_set _ _) as [[[] v] g1]; try done.
    by rewrite recycle_unfold.
Qed.

Lemma pool_masks_do_not_mix_witness :
  obtainSet Sample.layout_ubo (recycle Sample.mask_sampler 9 Sample.pool_recycled)
    Sample.quiet_gpu
  = Done (42,
          recycle Sample.mask_sampler 9
            (mk Sample.count_ubo 2 2 1 {[ Sample.mask_ubo := [41] ]}),
          Sample.quiet_gpu).
Proof.
  rewrite (pool_masks_do_not_mix Sample.layout_ubo Sample.mask_sampler 9
             Sample.pool_recycled Sample.quiet_gpu); [|discriminate].
  vm_compute. reflexivity.
Defined.

(** X3. A free-list entry, once made, stays: [recycle] makes the entry of
    its mask, neither [recycle] nor [obtainSet] removes an entry, and for
    a layout whose mask has an entry [obtainSet] never calls the driver
    and never changes the allocated count, even when the entry is empty
    and the pool has room. *)
Theorem pool_free_list_entry_stays layout m (h : Z) p g :
  is_Some (mUnused (recycle m h p) !! m)
  ∧ (∀ m', is_Some (mUnused p !! m') → is_Some (mUnused (recycle m h p) !! m'))
  ∧ (∀ m' (set : Z) p' g',
       is_Some (mUnused p !! m') → obtainSet layout p g = Done (set, p', g') →
       is_Some (mUnused p' !! m'))
  ∧ (is_Some (mUnused p !! bitmask layout) →
     ∃ (set : Z) p', obtainSet layout p g = Done (set, p', g)
                     ∧ mSize p' = mSize p
                     ∧ is_Some (mUnused p' !! bitmask layout)).
Proof.
  split_and!.
  - rewrite recycle_unfold. cbn. rewrite lookup_insert_eq. by eexists.
  - intros m' Hs. rewrite recycle_unfold. cbn.
    destruct (decide (m = m')) as [->|Hne].
    + rewrite lookup_insert_eq. by eexists.
    + by rewrite lookup_insert_ne.
  - intros m' set p' g' Hs. unfold obtainSet.
    destruct (mUnused p !! bitmask layout) as [[|x l]|] eqn:E.
    + by intros [= <- <- <-].
    + intros [= <- <- <-]. cbn.
      destruct (decide (bitmask layout = m')) as [->|Hne].
      * rewrite lookup_insert_eq. by eexists.
      * by rewrite lookup_insert_ne.
    + destruct (mSize p + 1 >? mCapacity p); [by intros [= <- <- <-]|].
      destruct (allocate_descriptor_set _ _) as [[[] v] g1]; intros [=]; by subst.
  - intros [sets Hs]. unfold obtainSet. rewrite Hs.
    destruct sets as [|x l].
    + exists VK_NULL_HANDLE, p. rewrite Hs. by split_and!.
    + do 2 eexists. split; [reflexivity|]. cbn. split; [done|].
      rewrite lookup_insert_eq. by eexists.
Qed.

Lemma pool_free_list_entry_stays_witness :
  ∃ (set : Z) p',
    obtainSet Sample.layout_ubo Sample.pool_drained (Sample.gpu_with [(VK_SUCCESS, 7)])
    = Done (set, p', Sample.gpu_with [(VK_SUCCESS, 7)])
    ∧ mSize p' = 1.
Proof.
  destruct (pool_free_list_entry_stays Sample.layout_ubo Sample.mask_ubo 0
              Sample.pool_drained (Sample.gpu_with [(VK_SUCCESS, 7)]))
    as (_ & _ & _ & H).
  destruct H as (set & p' & E & Hs & _); [by eexists|].
  by exists set, p'.
Defined.

End DescriptorPoolMore.

(* ===================================================================== *)
(** ** More on [DescriptorInfinitePool] *)

Section DescriptorInfinitePoolMore.
Import DescriptorInfinitePool.

Context (fromLayoutBitmask : Bitmask.t → DescriptorCount.t).

Implicit Types (p : DescriptorPool.t) (pools : list DescriptorPool.t) (g : Gpu).
Implicit Types (layout : VulkanDescriptorSetLayout).

Lemma pool_obtainSet_same layout p g (h : Z) p' g' :
  DescriptorPool.obtainSet layout p g = Done (h, p', g') →
  same_pool p p' ∧ (pool_in_range p → pool_in_range p').
Proof.
  intros H. split.
  - revert H. unfold DescriptorPool.obtainSet, same_pool.
    destruct (DescriptorPool.mUnused p !! bitmask layout) as [[|x l]|].
    + by intros [= <- <- <-].
    + by intros [= <- <- <-].
    + destruct (_ >? _); [by intros [= <- <- <-]|].
      destruct (allocate_descriptor_set _ _) as [[[] v] g1]; intros [=]; by subst.
  - intros Hr. by destruct (obtainSet_in_range _ _ _ _ _ _ Hr H) as (_ & _ & ?).
Qed.

Lemma better_origin (same : option DescriptorPool.t) p q :
  better same p = Some q → same = Some q ∨ q = p.
Proof.
  unfold better. destruct same as [s|]; [|intros [= <-]; by right].
  destruct (_ <? _); intros [= <-]; [by right | by left].
Qed.

(** What the loop over the pools keeps. *)
Lemma scan_keeps layout pools same g r :
  scan layout pools same g = Done r →
  Forall2 (λ p p', same_pool p p' ∧ (pool_in_range p → pool_in_range p'))
    pools (pools_after r)
  ∧ (∀ set : Z, found r = Some set →
       set ≠ VK_NULL_HANDLE
       ∧ ∃ p', p' ∈ pools_after r
               ∧ DescriptorPool.canAllocate (count layout) p' = true)
  ∧ (∀ q, sameTypePool r = Some q →
       same = Some q ∨ ∃ p', p' ∈ pools_after r ∧ q = p').
Proof.
  revert same g r. induction pools as [|p pools IH]; intros same g r; cbn [scan].
  { intros [= <-]. cbn. split_and!; [constructor | done | by left]. }
  destruct (DescriptorPool.canAllocate (count layout) p) eqn:Hcan; cbn [negb].
  2:{ destruct (scan layout pools same g) as [r0|] eqn:E; [|done].
      cbn [mbind outcome_bind]. intros [= <-]. cbn.
      destruct (IH _ _ _ E) as (H1 & H2 & H3). split_and!.
      - constructor; [by split|done].
      - intros set Hf. destruct (H2 set Hf) as (? & p' & ? & ?).
        split; [done|]. exists p'. split; [by right|done].
      - intros q Hq. destruct (H3 q Hq) as [?|(p' & ? & ?)]; [by left|].
        right. exists p'. split; [by right|done]. }
  destruct (DescriptorPool.obtainSet layout p g) as [[[set p1] g1]|] eqn:Eo; [|done].
  cbn [mbind outcome_bind].
  destruct (pool_obtainSet_same _ _ _ _ _ _ Eo) as [Hsame Hrange].
  assert (Hcan1 : DescriptorPool.canAllocate (count layout) p1 = true).
  { unfold DescriptorPool.canAllocate in *. destruct Hsame as [-> _]. done. }
  destruct (Z.eqb_spec set VK_NULL_HANDLE) as [Hnull|Hnull]; cbn [negb].
  2:{ intros [= <-]. cbn. split_and!.
      - constructor; [done|]. apply Forall2_same_length_lookup. split; [done|].
        intros i x y Hx Hy. assert (x = y) as -> by congruence. by split.
      - intros ? [= <-]. split; [done|]. exists p1. split; [by left|done].
      - intros q Hq. by left. }
  destruct (scan layout pools (better same p1) g1) as [r0|] eqn:E; [|done].
  cbn [mbind outcome_bind]. intros [= <-]. cbn.
  destruct (IH _ _ _ E) as (H1 & H2 & H3). split_and!.
  - constructor; done.
  - intros s Hf. destruct (H2 s Hf) as (? & p' & ? & ?).
    split; [done|]. exists p'. split; [by right|done].
  - intros q Hq. destruct (H3 q Hq) as [Hb|(p' & ? & ?)].
    + destruct (better_origin _ _ _ Hb) as [?|Heq]; [by left|]. subst q.
      right. exists p1. split; [by left|done].
    + right. exists p'. split; [by right|done].
Qed.

Lemma infinite_obtainSet_never_null_aux layout pools g (h : Z) pools' g' :
  obtainSet fromLayoutBitmask layout pools g = Done (h, pools', g') →
  h ≠ VK_NULL_HANDLE
  ∧ (count layout = fromLayoutBitmask (bitmask layout) →
     Exists (λ p, DescriptorPool.canAllocate (count layout) p = true) pools').
Proof.
  unfold obtainSet.
  destruct (scan layout pools None g) as [r|] eqn:E; [|done].
  cbn [mbind outcome_bind].
  destruct (scan_keeps _ _ _ _ _ E) as (_ & Hf & _).
  destruct (found r) as [set|].
  { intros [= <- <- <-]. destruct (Hf set eq_refl) as (? & p' & Hin & Hcan).
    split; [done|]. intros _. apply Exists_exists. by exists p'. }
  destruct (match sameTypePool r with Some _ => _ | None => _ end) as [c|]; [|done].
  cbn [mbind outcome_bind]. unfold DescriptorPool.create.
  destruct (DescriptorPool.obtainSet layout _ _) as [[[ret p1] g1]|] eqn:Eo; [|done].
  cbn [mbind outcome_bind].
  destruct (pool_obtainSet_same _ _ _ _ _ _ Eo) as [[Hcount _] _].
  destruct (Z.eqb_spec ret VK_NULL_HANDLE) as [?|Hne]; [done|]. cbn.
  intros [= <- <- <-]. split; [done|]. intros Hl.
  apply Exists_app. right. apply Exists_cons_hd.
  unfold DescriptorPool.canAllocate. rewrite Hcount. cbn. rewrite <- Hl.
  unfold DescriptorCount.eqb. by rewrite !Z.eqb_refl.
Qed.

(** X4. The pool manager never hands out a null handle: [obtainSet]
    either stops the process or returns a handle that is not
    [VK_NULL_HANDLE], taken from a pool of the shape of the layout or from
    the pool it has just added. *)
Theorem infinite_obtainSet_never_null layout pools g (h : Z) pools' g' :
  obtainSet fromLayoutBitmask layout pools g = Done (h, pools', g') →
  h ≠ VK_NULL_HANDLE ∧ pools' ≠ [].
Proof.
  unfold obtainSet.
  destruct (scan layout pools None g) as [r|] eqn:E; [|done].
  cbn [mbind outcome_bind].
  destruct (scan_keeps _ _ _ _ _ E) as (_ & Hf & _).
  destruct (found r) as [set|].
  { intros [= <- <- <-]. destruct (Hf set eq_refl) as (? & p' & Hin & _).
    split; [done|]. intros Hnil. rewrite Hnil in Hin. by apply elem_of_nil in Hin. }
  destruct (match sameTypePool r with Some _ => _ | None => _ end) as [c|]; [|done].
  cbn [mbind outcome_bind].
  destruct (DescriptorPool.create _ _ _) as [p0 g0].
  destruct (DescriptorPool.obtainSet layout p0 g0) as [[[ret p1] g1]|]; [|done].
  cbn [mbind outcome_bind].
  destruct (Z.eqb_spec ret VK_NULL_HANDLE) as [?|Hne]; [done|]. cbn.
  intros [= <- <- <-]. split; [done|]. by destruct (pools_after r).
Qed.

Lemma grown_capacity_sound (c c' : Z) :
  EXPECTED_SET_COUNT ≤ c → grown_capacity c = Done c' →
  EXPECTED_SET_COUNT ≤ c' ≤ UINT16_MAX ∧ c < c'.
Proof.
  unfold grown_capacity. fold (ceil_grow c). rewrite ceil_grow_closed.
  unfold EXPECTED_SET_COUNT.
  destruct (Z.leb_spec ((3 * c + 1) / 2) UINT16_MAX); [|done].
  intros Hc [= <-]. split_and!; [|done|]; Z.div_mod_to_equations; lia.
Qed.

(** X5. [obtainSet] keeps the pools in order and sound: the pools that
    were there are still there, in the same positions, with the shape and
    capacity they had; at most one pool is appended; and when every pool
    had a capacity of at least 10 that fits 16 bits and an allocated count
    within it, so has every pool afterwards. *)
Theorem infinite_obtainSet_keeps_pools layout pools g (h : Z) pools' g' :
  Forall pool_sound pools →
  obtainSet fromLayoutBitmask layout pools g = Done (h, pools', g') →
  Forall pool_sound pools'
  ∧ (length pools' = length pools ∨ length pools' = S (length pools))
  ∧ Forall2 same_pool pools (take (length pools) pools').
Proof.
  intros Hsound. unfold obtainSet.
  destruct (scan layout pools None g) as [r|] eqn:E; [|done].
  cbn [mbind outcome_bind].
  destruct (scan_keeps _ _ _ _ _ E) as (Hall & _ & Hsame).
  assert (Hlen : length (pools_after r) = length pools).
  { symmetry. by eapply Forall2_length. }
  assert (Hafter : Forall pool_sound (pools_after r)).
  { apply List.Forall_forall. intros p' Hp'%list_elem_of_In.
    apply list_elem_of_lookup in Hp' as [i Hi].
    destruct (Forall2_lookup_r _ _ _ _ _ Hall Hi) as (p & Hp & [Hs1 Hs2] & Hr).
    rewrite Forall_forall in Hsound.
    destruct (Hsound p) as [Hc Hrange]; [by eapply list_elem_of_lookup_2|].
    split; [by rewrite Hs2 | by apply Hr]. }
  assert (Hframe : Forall2 same_pool pools (pools_after r)).
  { eapply Forall2_impl; [exact Hall|]. by intros ? ? [? _]. }
  destruct (found r) as [set|].
  { intros [= <- <- <-]. split_and!; [done | by left |].
    by rewrite <- Hlen, firstn_all. }
  destruct (match sameTypePool r with Some _ => _ | None => _ end) as [c|] eqn:Ec;
    [|done].
  cbn [mbind outcome_bind].
  assert (Hc : EXPECTED_SET_COUNT ≤ c ≤ UINT16_MAX).
  { destruct (sameTypePool r) as [q|] eqn:Eq.
    - destruct (Hsame q eq_refl) as [?|(p' & Hin & ->)]; [done|].
      rewrite Forall_forall in Hafter. destruct (Hafter p' Hin) as [Hq _].
      by destruct (grown_capacity_sound _ _ Hq Ec).
    - injection Ec as <-. unfold EXPECTED_SET_COUNT, UINT16_MAX. lia. }
  unfold DescriptorPool.create.
  destruct (DescriptorPool.obtainSet layout _ _) as [[[ret p1] g1]|] eqn:Eo; [|done].
  cbn [mbind outcome_bind].
  destruct (pool_obtainSet_same _ _ _ _ _ _ Eo) as [[_ Hcap] Hrange].
  destruct (negb (ret =? VK_NULL_HANDLE)); [|done]. cbn.
  intros [= <- <- <-]. split_and!.
  - apply Forall_app. split; [done|]. constructor; [|constructor].
    cbn in Hcap. split; [rewrite Hcap; lia|].
    apply Hrange. unfold pool_in_range, EXPECTED_SET_COUNT in *. cbn. lia.
  - right. rewrite length_app. cbn. lia.
  - rewrite <- Hlen, take_app_length. done.
Qed.

End DescriptorInfinitePoolMore.

Lemma infinite_obtainSet_never_null_witness :
  ∃ pools' g',
    DescriptorInfinitePool.obtainSet Sample.fromLayoutBitmask Sample.layout_ubo
      [Sample.pool_recycled] Sample.quiet_gpu
    = Done (42, pools', g') ∧ 42 ≠ VK_NULL_HANDLE.
Proof.
  do 2 eexists. split; [reflexivity|].
  eapply (infinite_obtainSet_never_null Sample.fromLayoutBitmask Sample.layout_ubo
            [Sample.pool_recycled] Sample.quiet_gpu 42).
  reflexivity.
Defined.

Lemma sample_pools_sound : Forall pool_sound [Sample.pool_ten; Sample.pool_fifteen].
Proof.
  repeat constructor; by_computation.
Defined.

Lemma infinite_obtainSet_keeps_pools_witness :
  ∃ pools' g',
    DescriptorInfinitePool.obtainSet Sample.fromLayoutBitmask Sample.layout_ubo
      [Sample.pool_ten; Sample.pool_fifteen] (Sample.gpu_with [(VK_SUCCESS, 77)])
    = Done (77, pools', g')
    ∧ Forall pool_sound pools' ∧ length pools' = 3%nat.
Proof.
  do 2 eexists. split; [reflexivity|].
  destruct (infinite_obtainSet_keeps_pools Sample.fromLayoutBitmask Sample.layout_ubo
              [Sample.pool_ten; Sample.pool_fifteen]
              (Sample.gpu_with [(VK_SUCCESS, 77)]) 77 _ _ sample_pools_sound eq_refl)
    as (Hs & _ & _).
  split; [exact Hs | reflexivity].
Defined.

Section DescriptorInfinitePoolRoundTrip.
Import DescriptorInfinitePool.

Context (fromLayoutBitmask : Bitmask.t → DescriptorCount.t).

Implicit Types (p : DescriptorPool.t) (pools : list DescriptorPool.t) (g : Gpu).
Implicit Types (layout : VulkanDescriptorSetLayout).

Lemma scan_after_recycle layout pools same g (h : Z) :
  h ≠ VK_NULL_HANDLE →
  Exists (λ p, DescriptorPool.canAllocate (count layout) p = true) pools →
  ∃ pools',
    scan layout (recycle (count layout) (bitmask layout) h pools) same g
    = Done {| found := Some h; pools_after := pools';
              sameTypePool := same; gpu_after := g |}
    ∧ Forall2 (λ p p', same_pool p p'
                       ∧ DescriptorPool.mSize p' = DescriptorPool.mSize p) pools pools'.
Proof.
  intros Hh. induction 1 as [p pools Hp|p pools _ IH].
  - cbn [recycle]. rewrite Hp. cbn [negb scan].
    assert (Hcan : DescriptorPool.canAllocate (count layout)
                     (DescriptorPool.recycle (bitmask layout) h p) = true).
    { by rewrite recycle_unfold. }
    rewrite Hcan. cbn [negb].
    rewrite recycle_unfold.
    erewrite obtainSet_reuse by (cbn; apply lookup_insert_eq).
    cbn [mbind outcome_bind].
    destruct (Z.eqb_spec h VK_NULL_HANDLE) as [?|_]; [done|]. cbn [negb].
    eexists. split; [reflexivity|].
    constructor; [by cbn|].
    apply Forall2_same_length_lookup. split; [done|].
    intros i x y Hx Hy. assert (x = y) as -> by congruence. done.
  - cbn [recycle].
    destruct (DescriptorPool.canAllocate (count layout) p) eqn:Hp; cbn [negb].
    + assert (Hcan : DescriptorPool.canAllocate (count layout)
                       (DescriptorPool.recycle (bitmask layout) h p) = true).
      { by rewrite recycle_unfold. }
      cbn [scan]. rewrite Hcan. cbn [negb].
      rewrite recycle_unfold.
      erewrite obtainSet_reuse by (cbn; apply lookup_insert_eq).
      cbn [mbind outcome_bind].
      destruct (Z.eqb_spec h VK_NULL_HANDLE) as [?|_]; [done|]. cbn [negb].
      eexists. split; [reflexivity|].
      constructor; [by cbn|].
      apply Forall2_same_length_lookup. split; [done|].
      intros i x y Hx Hy. assert (x = y) as -> by congruence. done.
    + cbn [scan]. rewrite Hp. cbn [negb].
      destruct IH as (pools' & -> & Hall). cbn [mbind outcome_bind].
      eexists. split; [reflexivity|]. cbn. by constructor.
Qed.

(** X6. A recycled handle comes back: after [recycle] for the shape and
    mask of a layout, with a handle that is not null and a pool of that
    shape in the list, the next [obtainSet] for the layout returns that
    very handle without a call to the driver, and every pool keeps its
    shape, capacity and allocated count. *)
Theorem infinite_recycle_then_obtain layout pools g (h : Z) :
  h ≠ VK_NULL_HANDLE →
  Exists (λ p, DescriptorPool.canAllocate (count layout) p = true) pools →
  ∃ pools',
    obtainSet fromLayoutBitmask layout
      (recycle (count layout) (bitmask layout) h pools) g
    = Done (h, pools', g)
    ∧ Forall2 (λ p p', same_pool p p'
                       ∧ DescriptorPool.mSize p' = DescriptorPool.mSize p) pools pools'.
Proof.
  intros Hh Hex.
  destruct (scan_after_recycle layout pools None g h Hh Hex) as (pools' & E & Hall).
  exists pools'. split; [|done]. unfold obtainSet. by rewrite E.
Qed.

(** X7. The capacity of a new pool is a 16-bit number: once the largest
    exhausted pool of the shape has a capacity of 43691 or more, one and a
    half times that does not fit, and [obtainSet] leaves defined
    behaviour instead of adding a pool; below that it would add a pool
    strictly larger than every pool of the shape. *)
Theorem infinite_growth_limit layout pools g (c : Z) :
  Forall (λ p, DescriptorPool.canAllocate (count layout) p = true →
               exhausted layout p = true) pools →
  largest_capacity (count layout) pools = Some c →
  (43691 ≤ c → obtainSet fromLayoutBitmask layout pools g = Abort UndefinedBehaviour)
  ∧ (1 ≤ c < 43691 → c < ceil_grow c ≤ UINT16_MAX
                     ∧ grown_capacity c = Done (ceil_grow c)).
Proof.
  intros Hex Hl. split.
  - intros Hc. unfold obtainSet. rewrite scan_exhausted by done.
    cbn [mbind outcome_bind found sameTypePool].
    pose proof (sameTypePool_largest (count layout) pools) as Hs.
    rewrite Hl in Hs.
    destruct (fold_left better _ None) as [same|]; [|done].
    injection Hs as ->. unfold grown_capacity. fold (ceil_grow c).
    rewrite ceil_grow_closed.
    destruct (Z.leb_spec ((3 * c + 1) / 2) UINT16_MAX) as [Hle|_]; [|done].
    exfalso. unfold UINT16_MAX in Hle. revert Hle. Z.div_mod_to_equations. lia.
  - intros Hc.
    assert (Hg : c < ceil_grow c ≤ UINT16_MAX).
    { rewrite ceil_grow_closed. unfold UINT16_MAX. Z.div_mod_to_equations. lia. }
    split; [done|]. apply grown_capacity_in_range. lia.
Qed.

End DescriptorInfinitePoolRoundTrip.

Lemma infinite_recycle_then_obtain_witness :
  ∃ pools',
    DescriptorInfinitePool.obtainSet Sample.fromLayoutBitmask Sample.layout_ubo
      (DescriptorInfinitePool.recycle Sample.count_ubo Sample.mask_ubo 7
         [Sample.pool_other; Sample.pool_ten; Sample.pool_fifteen])
      Sample.quiet_gpu
    = Done (7, pools', Sample.quiet_gpu).
Proof.
  destruct (infinite_recycle_then_obtain Sample.fromLayoutBitmask Sample.layout_ubo
              [Sample.pool_other; Sample.pool_ten; Sample.pool_fifteen]
              Sample.quiet_gpu 7) as (pools' & E & _).
  - discriminate.
  - apply Exists_cons_tl, Exists_cons_hd. reflexivity.
  - by exists pools'.
Defined.

Lemma infinite_growth_limit_witness :
  DescriptorInfinitePool.obtainSet Sample.fromLayoutBitmask Sample.layout_ubo
    [Sample.pool_huge] (Sample.gpu_with [(VK_SUCCESS, 7)])
  = Abort UndefinedBehaviour.
Proof.
  destruct (infinite_growth_limit Sample.fromLayoutBitmask Sample.layout_ubo
              [Sample.pool_huge] (Sample.gpu_with [(VK_SUCCESS, 7)]) 52596)
    as [H _].
  - repeat (constructor; [by_computation|]). constructor.
  - reflexivity.
  - apply H. lia.
Defined.

(* ===================================================================== *)
(** ** More on [DescriptorSetHistory] and [BoundInfo] *)

Section HistoryMore.
Import DescriptorSetHistory.

Implicit Types (h : DescriptorSetHistory.t) (m : Bitmask.t).

Lemma land_1_odd (a : Z) : Z.land a 1 = if Z.odd a then 1 else 0.
Proof.
  change 1 with (Z.ones 1) at 1. rewrite Z.land_ones by lia.
  change (2 ^ 1) with 2. apply Zmod_odd.
Qed.

(** X8. The index that the constructor computes is not the highest
    occupied binding: its loop tests [1LL < i] where a shift was meant, so
    [maxIndex()] is 31 when binding 0 is occupied by some kind of resource
    (the union of the four masks is odd) and 0 otherwise. *)
Theorem history_maxIndex_is_0_or_31 m (count : DescriptorCount.t) (layout : Z)
    (set : VulkanDescriptorSet) h :
  create m count layout set = Done h →
  maxIndex h
  = if Z.odd (Z.lor (Z.lor (Z.lor (Bitmask.ubo m) (Bitmask.dynamicUbo m))
                       (Bitmask.sampler m)) (Bitmask.inputAttachment m))
    then 31 else 0.
Proof.
  unfold create. destruct (assert_invariant _) as [[]|]; [|done].
  cbn [mbind outcome_bind]. intros [= <-]. unfold maxIndex. cbn [mMaxIndex].
  unfold max_index.
  set (all := Z.lor _ _).
  set (slots := Z.of_nat <$> seq 0 32). vm_compute in slots. subst slots.
  cbn [fold_left].
  cbv [Z.ltb Z.compare Pos.compare Pos.compare_cont].
  rewrite Z.land_0_r, land_1_odd.
  by destruct (Z.odd all).
Qed.

Lemma history_maxIndex_is_0_or_31_witness :
  ∃ h, create (Bitmask.mk 6 0 0 0) (DescriptorCount.mk 2 0 0 0) 100 {| vkSet := 7 |}
       = Done h
       ∧ maxIndex h = 0.
Proof.
  eexists. split; [reflexivity|].
  apply (history_maxIndex_is_0_or_31 (Bitmask.mk 6 0 0 0) (DescriptorCount.mk 2 0 0 0)
           100 {| vkSet := 7 |}).
  reflexivity.
Defined.

(** X9. [write] and [written] are a round trip on the bits of
    [mWritten]: for a binding below 64, [write] completes and makes
    [written] true for that binding and leaves it as it was for every
    other binding, whatever [mWritten] held; the value is a 64-bit
    number afterwards. *)
Theorem history_write_then_written (binding : Z) h :
  0 ≤ binding < 64 →
  ∃ h', write binding h = Done h'
        ∧ written binding h' = Done true
        ∧ (∀ other, 0 ≤ other → other ≠ binding →
             written other h' = written other h)
        ∧ 0 ≤ mWritten h' < 2 ^ 64.
Proof.
  intros Hb. destruct (write_in_range binding h Hb) as [h' Hh'].
  exists h'. split; [done|]. split; [by eapply write_then_written|].
  apply write_done in Hh' as [_ ->]. cbn [mWritten].
  split.
  - intros other Ho Hne. unfold written.
    destruct (shift_one other) as [bit|] eqn:E; [|done].
    apply shift_one_done in E as [Hother ->]. cbn [mbind outcome_bind mWritten].
    f_equal. rewrite !land_bit, uint64_testbit by lia.
    rewrite Z.lor_spec, Z.shiftl_1_l, Z.pow2_bits_eqb by lia.
    destruct (Z.eqb_spec binding other) as [?|_]; [congruence|].
    rewrite orb_false_r. by destruct (Z.ltb_spec other 64); [|lia].
  - unfold uint64. apply Z.mod_pos_bound. lia.
Qed.

Lemma history_write_then_written_witness :
  ∃ h', write 3 (Sample.history_of 7) = Done h'
        ∧ written 3 h' = Done true
        ∧ written 2 h' = Done false.
Proof.
  destruct (history_write_then_written 3 (Sample.history_of 7))
    as (h' & E & H1 & H2 & _).
  - lia.
  - exists h'. split; [exact E|]. split; [exact H1|].
    rewrite H2 by lia. reflexivity.
Defined.

End HistoryMore.

Section BoundInfoMore.

(** [N] is [UNIQUE_DESCRIPTOR_SET_COUNT], the number of slots. *)
Context (N : nat).

Implicit Types (a b c : BoundInfo.t).

(** X10. [BoundInfo::operator==] compares the pipeline layouts, the
    masks, and the stashed sets of the slots that the mask selects; what
    sits in the other slots does not count. It is symmetric and
    transitive. *)
Theorem BoundInfo_eqb_compares_active_slots a b :
  (BoundInfo.eqb N a b = true
   ↔ BoundInfo.pipelineLayout a = BoundInfo.pipelineLayout b
     ∧ BoundInfo.setMask a = BoundInfo.setMask b
     ∧ ∀ i : nat, (i < N)%nat → mask_bit (BoundInfo.setMask a) i = true →
         at_index (BoundInfo.boundSets a) i = at_index (BoundInfo.boundSets b) i)
  ∧ BoundInfo.eqb N a b = BoundInfo.eqb N b a
  ∧ ∀ c, BoundInfo.eqb N a b = true → BoundInfo.eqb N b c = true →
         BoundInfo.eqb N a c = true.
Proof.
  assert (Hspec : ∀ a b,
    BoundInfo.eqb N a b = true
    ↔ BoundInfo.pipelineLayout a = BoundInfo.pipelineLayout b
      ∧ BoundInfo.setMask a = BoundInfo.setMask b
      ∧ ∀ i : nat, (i < N)%nat → mask_bit (BoundInfo.setMask a) i = true →
          at_index (BoundInfo.boundSets a) i = at_index (BoundInfo.boundSets b) i).
  { clear a b. intros a b. unfold BoundInfo.eqb.
    destruct (Z.eqb_spec (BoundInfo.pipelineLayout a) (BoundInfo.pipelineLayout b))
      as [Hp|Hp]; cbn [negb orb]; [|by split; [|intros [? _]]].
    destruct (Z.eqb_spec (BoundInfo.setMask a) (BoundInfo.setMask b))
      as [Hm|Hm]; cbn [negb]; [|by split; [|intros (_ & ? & _)]].
    rewrite forallb_forall. split.
    - intros H. split_and!; [done..|]. intros i Hi Hbit.
      specialize (H i). rewrite Hbit in H. cbn in H.
      apply Z.eqb_eq. apply negb_true_iff, negb_false_iff in H; [done|].
      apply in_seq. lia.
    - intros (_ & _ & H) i Hi%in_seq.
      destruct (mask_bit (BoundInfo.setMask a) i) eqn:Hbit; [|done]. cbn.
      rewrite (H i) by (done || lia). by rewrite Z.eqb_refl. }
  split; [apply Hspec|]. split.
  - destruct (BoundInfo.eqb N a b) eqn:E1, (BoundInfo.eqb N b a) eqn:E2; try done.
    + apply Hspec in E1 as (Hp & Hm & Hs).
      assert (BoundInfo.eqb N b a = true) as E; [|congruence].
      apply Hspec. split_and!; [done..|]. intros i Hi Hbit.
      symmetry. apply Hs; [done|]. by rewrite Hm.
    + apply Hspec in E2 as (Hp & Hm & Hs).
      assert (BoundInfo.eqb N a b = true) as E; [|congruence].
      apply Hspec. split_and!; [done..|]. intros i Hi Hbit.
      symmetry. apply Hs; [done|]. by rewrite Hm.
  - intros c (Hp1 & Hm1 & Hs1)%Hspec (Hp2 & Hm2 & Hs2)%Hspec.
    apply Hspec. split_and!; [congruence..|]. intros i Hi Hbit.
    rewrite Hs1 by done. apply Hs2; [done|]. by rewrite <- Hm1.
Qed.

End BoundInfoMore.

(* ===================================================================== *)
(** ** More on [commit] *)

Section CommitMore.
Import Impl.

(** [N] is [UNIQUE_DESCRIPTOR_SET_COUNT], the number of slots. *)
Context (N : nat).

Implicit Types (s : Impl.t) (g : Gpu) (commands : VulkanCommandBuffer).

Lemma commit_without_targets commands (pipelineLayout setMask : Z) s g :
  dirty_slots N setMask s = [] →
  ∃ s', commit N commands pipelineLayout setMask s g = Done (s', commands, g)
        ∧ mHistory s' = mHistory s
        ∧ mStashedSets s' = mStashedSets s
        ∧ mDescriptorPool s' = mDescriptorPool s
        ∧ BoundInfo.eqb N (mLastBoundInfo s')
            (BoundInfo.mk pipelineLayout setMask (mStashedSets s)) = true.
Proof.
  intros Hd. rewrite commit_closed. unfold is_noop. rewrite Hd. cbn zeta.
  destruct (forallb _ (seq 0 N) && _) eqn:E.
  - exists s. split_and!; try done. by destruct (andb_prop _ _ E) as [_ ?].
  - cbn. rewrite !app_nil_r. eexists. split.
    { destruct commands, g. reflexivity. }
    cbn. split_and!; try done. apply BoundInfo_eqb_refl.
Qed.

Lemma dirty_slots_nil (setMask : Z) s :
  (∀ i : nat, (i < N)%nat → needs_bind setMask s i = false) →
  dirty_slots N setMask s = [].
Proof.
  intros H. destruct (dirty_slots N setMask s) as [|j l'] eqn:Ed; [done|].
  assert (Hj : j ∈ dirty_slots N setMask s) by (rewrite Ed; by left).
  apply dirty_slots_elem in Hj as [Hlt Hj]. by rewrite H in Hj.
Qed.

(** Once a commit went through, no slot of its mask needs a bind. *)
Lemma commit_leaves_clean commands (pipelineLayout setMask : Z) s g s1 commands1 g1 :
  commit N commands pipelineLayout setMask s g = Done (s1, commands1, g1) →
  ∀ i : nat, (i < N)%nat → needs_bind setMask s1 i = false.
Proof.
  rewrite commit_closed.
  destruct (is_noop N pipelineLayout setMask s) eqn:Hn.
  - intros [= <- <- <-] i Hi. unfold is_noop in Hn.
    destruct (andb_prop _ _ Hn) as [Hf _]. clear Hn. rename Hf into Hn.
    rewrite forallb_forall in Hn.
    apply negb_true_iff, Hn, in_seq. lia.
  - cbn zeta. destruct (forallb _ _); [|done].
    intros [= <- <- <-] i Hi. by apply bound_after_clean.
Qed.

(** X11. After a commit, a commit with another pipeline layout binds
    nothing: a bind is sent only for a slot whose history is not bound,
    and the change of pipeline layout marks no history. For any pipeline
    layout, and any mask that selects no slot outside the first mask, the
    second commit sends nothing to the driver, leaves the histories and
    the command stream as they are, and only records the new tuple. *)
Theorem commit_other_layout_binds_nothing commands (pipelineLayout setMask : Z)
    s g s1 commands1 g1 (pipelineLayout2 setMask2 : Z) :
  commit N commands pipelineLayout setMask s g = Done (s1, commands1, g1) →
  (∀ i : nat, (i < N)%nat → mask_bit setMask2 i = true → mask_bit setMask i = true) →
  ∃ s2,
    commit N commands1 pipelineLayout2 setMask2 s1 g1 = Done (s2, commands1, g1)
    ∧ mHistory s2 = mHistory s1
    ∧ mStashedSets s2 = mStashedSets s1
    ∧ BoundInfo.eqb N (mLastBoundInfo s2)
        (BoundInfo.mk pipelineLayout2 setMask2 (mStashedSets s1)) = true.
Proof.
  intros Hc Hsub.
  destruct (commit_without_targets commands1 pipelineLayout2 setMask2 s1 g1)
    as (s2 & E & Hh & Hs & _ & Hl).
  { apply dirty_slots_nil. intros i Hi.
    pose proof (commit_leaves_clean _ _ _ _ _ _ _ _ Hc i Hi) as Hclean.
    unfold needs_bind in *.
    destruct (mask_bit setMask2 i) eqn:Hb; [|done].
    by rewrite (Hsub i Hi Hb) in Hclean. }
  by exists s2.
Qed.

Lemma is_bind_call_slot (cmdbuffer pipelineLayout : Z) s (slots : list nat) :
  Forall is_bind_call (slot_bind cmdbuffer pipelineLayout s <$> slots).
Proof. apply Forall_fmap, Forall_forall. by intros. Qed.

(** X12. What a commit that completes leaves alone: the pools, the
    stashed sets, the set of tracked handles and the answers still to
    come from the driver. A history is either as it was or marked bound,
    and the calls added to the trace are bind commands only. *)
Theorem commit_frame commands (pipelineLayout setMask : Z) s g s1 commands1 g1 :
  commit N commands pipelineLayout setMask s g = Done (s1, commands1, g1) →
  mDescriptorPool s1 = mDescriptorPool s
  ∧ mStashedSets s1 = mStashedSets s
  ∧ dom (mHistory s1) = dom (mHistory s)
  ∧ (∀ key, mHistory s1 !! key = mHistory s !! key
            ∨ mHistory s1 !! key = mark_bound <$> mHistory s !! key)
  ∧ buffer commands1 = buffer commands
  ∧ pending g1 = pending g
  ∧ ∃ calls, issued g1 = issued g ++ calls ∧ Forall is_bind_call calls.
Proof.
  rewrite commit_closed.
  destruct (is_noop N pipelineLayout setMask s).
  { intros [= <- <- <-]. split_and!; try done; [by left|].
    exists []. by rewrite app_nil_r. }
  cbn zeta. destruct (forallb _ _); [|done].
  intros [= <- <- <-]. cbn. split_and!; try done.
  - apply set_eq. intros key. rewrite !elem_of_dom, lookup_bound_after.
    case_decide; [|done]. by rewrite fmap_is_Some.
  - intros key. rewrite lookup_bound_after. case_decide; [by right | by left].
  - eexists. split; [reflexivity|].
    apply Forall_fmap, Forall_forall. intros [i key] _. cbn.
    unfold bind_call. by destruct (bind_view _ _) as [[[[?|] ?] ?]|].
Qed.

(** X13. A commit with an empty mask never fails and never binds,
    whatever the state of the manager: it sends nothing to the driver and
    touches neither the histories nor the command stream. *)
Theorem commit_empty_mask commands (pipelineLayout : Z) s g :
  ∃ s', commit N commands pipelineLayout 0 s g = Done (s', commands, g)
        ∧ mHistory s' = mHistory s
        ∧ mStashedSets s' = mStashedSets s
        ∧ mDescriptorPool s' = mDescriptorPool s.
Proof.
  destruct (commit_without_targets commands pipelineLayout 0 s g)
    as (s' & E & ? & ? & ? & _).
  { apply dirty_slots_nil. intros i _. unfold needs_bind, mask_bit.
    by rewrite Z.land_0_l. }
  by exists s'.
Qed.

End CommitMore.

Lemma commit_other_layout_binds_nothing_witness :
  ∃ s2,
    Impl.commit 4 Sample.stream 10 1 Sample.two_bound Sample.quiet_gpu
    = Done (s2, Sample.stream, Sample.quiet_gpu)
    ∧ Impl.mHistory s2 = Impl.mHistory Sample.two_bound.
Proof.
  destruct (commit_other_layout_binds_nothing 4 Sample.stream 9 5 Sample.two_bound
              Sample.quiet_gpu Sample.two_bound Sample.stream Sample.quiet_gpu 10 1)
    as (s2 & E & Hh & _).
  - reflexivity.
  - intros i Hi. destruct i as [|[|[|[|i]]]]; [by_computation..|lia].
  - by exists s2.
Defined.

Lemma commit_frame_witness :
  ∃ s1 commands1 g1,
    Impl.commit 4 Sample.stream 9 5 Sample.two_staged Sample.quiet_gpu
    = Done (s1, commands1, g1)
    ∧ Impl.mStashedSets s1 = [7; 0; 8; 0]
    ∧ dom (Impl.mHistory s1) = dom (Impl.mHistory Sample.two_staged).
Proof.
  do 3 eexists. split; [reflexivity|].
  destruct (commit_frame 4 Sample.stream 9 5 Sample.two_staged Sample.quiet_gpu
              _ _ _ eq_refl) as (_ & Hs & Hd & _).
  split; [exact Hs | exact Hd].
Defined.

(* ===================================================================== *)
(** ** More on the set manager: stashed handles and the life of a set *)

Section LifeCycleMore.
Import Impl.

(** [N] is [UNIQUE_DESCRIPTOR_SET_COUNT], the number of slots. *)
Context (N : nat).
Context (fromLayoutBitmask : Bitmask.t → DescriptorCount.t).

Implicit Types (s : Impl.t) (g : Gpu) (set : VulkanDescriptorSet).
Implicit Types (layout : VulkanDescriptorSetLayout).

Lemma createSet_closed layout s g set s' g' :
  createSet fromLayoutBitmask layout s g = Done (set, s', g') →
  ∃ pools,
    DescriptorInfinitePool.obtainSet fromLayoutBitmask layout (mDescriptorPool s) g
    = Done (vkSet set, pools, g')
    ∧ (DescriptorCount.total (count layout) <? 64) = true
    ∧ s' = mk pools
             (match mHistory s !! vkSet set with
              | Some _ => mHistory s
              | None =>
                  <[vkSet set :=
                      DescriptorSetHistory.mk true (Some set) [] [] (bitmask layout)
                        (vklayout layout) (count layout)
                        (DescriptorSetHistory.max_index (bitmask layout)) 0 false]>
                    (mHistory s)
              end)
             (mStashedSets s) (mLastBoundInfo s).
Proof.
  unfold createSet.
  destruct (DescriptorInfinitePool.obtainSet _ _ _ _) as [[[v pools] g1]|]; [|done].
  cbn [mbind outcome_bind]. unfold DescriptorSetHistory.create.
  destruct (DescriptorCount.total (count layout) <? 64); [|done].
  cbn [assert_invariant mbind outcome_bind]. intros [= <- <- <-].
  exists pools. done.
Qed.

(** X14. No stashed handle dangles as long as sets leave through
    [destroySet]: that every stashed handle is null or tracked holds for a
    new manager and is kept by [bind], the two updates, [commit],
    [createSet] and [destroySet]; and while it holds, [bind] at a slot of
    the array never fails its assertion. *)
Theorem stashed_handles_stay_tracked s g :
  stash_tracked (init N)
  ∧ (stash_tracked s →
     ∀ (setIndex : nat) set (offsets : list Z),
       (setIndex < length (mStashedSets s))%nat →
       ∃ s', bind setIndex set offsets s g = Done (s', g) ∧ stash_tracked s')
  ∧ (stash_tracked s →
     ∀ set s' g', destroySet set s g = Done (s', g') → stash_tracked s')
  ∧ (stash_tracked s →
     ∀ set (binding : Z) bufferObject (offset size : Z) s' g',
       updateBuffer set binding bufferObject offset size s g = Done (s', g') →
       stash_tracked s')
  ∧ (stash_tracked s →
     ∀ set (binding : Z) (texture : VulkanTexture) (sampler : Z) s' g',
       updateSampler set binding texture sampler s g = Done (s', g') →
       stash_tracked s')
  ∧ (stash_tracked s →
     ∀ commands (pipelineLayout setMask : Z) s' commands' g',
       commit N commands pipelineLayout setMask s g = Done (s', commands', g') →
       stash_tracked s')
  ∧ (stash_tracked s →
     ∀ layout set s' g',
       createSet fromLayoutBitmask layout s g = Done (set, s', g') →
       stash_tracked s').
Proof.
  split_and!.
  - intros i x Hx Hne. unfold init in Hx. cbn in Hx.
    apply lookup_replicate in Hx as [-> _]. done.
  - intros Ht setIndex set offsets Hi.
    destruct (lookup_lt_is_Some_2 _ _ Hi) as [lastSet Hslot].
    pose proof (bind_closed setIndex set offsets s g lastSet Hslot) as Hb.
    cbn zeta in Hb. revert Hb.
    set (hist1 := <[vkSet set := _]> (mHistory s)).
    assert (H1 : ∀ x, is_Some (mHistory s !! x) → is_Some (hist1 !! x)).
    { intros x Hx. apply lookup_insert_is_Some'. by right. }
    assert (Hstash : ∀ hist2,
              (∀ x, is_Some (hist1 !! x) → is_Some (hist2 !! x)) →
              stash_tracked (mk (mDescriptorPool s) hist2
                               (<[setIndex := vkSet set]> (mStashedSets s))
                               (mLastBoundInfo s))).
    { intros hist2 H2 j x Hx Hne. cbn in *. apply H2.
      destruct (decide (setIndex = j)) as [->|Hj].
      - rewrite list_lookup_insert_eq in Hx by done. injection Hx as <-.
        apply lookup_insert_is_Some'. by left.
      - rewrite list_lookup_insert_ne in Hx by done. by apply H1, (Ht j). }
    destruct (Z.eqb_spec lastSet VK_NULL_HANDLE) as [Hnull|Hnull].
    { intros Hb. eexists. split; [exact Hb|]. by apply Hstash. }
    destruct (H1 lastSet (Ht _ _ Hslot Hnull)) as [last Hl]. rewrite Hl.
    intros Hb. eexists. split; [exact Hb|]. apply Hstash.
    intros x Hx. apply lookup_insert_is_Some'. by right.
  - intros Ht set s' g'. rewrite destroySet_closed. intros [= <- <-].
    intros j x Hx Hne. cbn in *.
    rewrite list_lookup_fmap in Hx.
    destruct (mStashedSets s !! j) as [y|] eqn:Hy; [|done].
    injection Hx as <-. unfold clear_slot in *.
    destruct (Z.eqb_spec y (vkSet set)) as [?|Hk]; [done|].
    rewrite lookup_delete_ne by done. by apply (Ht j).
  - intros Ht set binding bufferObject offset size s' g'.
    rewrite updateBuffer_closed. cbn zeta.
    destruct (DescriptorSetHistory.write binding _) as [h|]; [|done].
    intros [= <- <-].
    intros j x Hx Hne. cbn in *. apply lookup_insert_is_Some'. right.
    by apply (Ht j).
  - intros Ht set binding texture sampler s' g'.
    destruct (updateSampler_closed set binding texture sampler s g) as (w & -> & _).
    destruct (DescriptorSetHistory.write_texture binding _ texture _) as [h|]; [|done].
    intros [= <- <-].
    intros j x Hx Hne. cbn in *. apply lookup_insert_is_Some'. right.
    by apply (Ht j).
  - intros Ht commands pipelineLayout setMask s' commands' g'.
    rewrite commit_closed.
    destruct (is_noop N pipelineLayout setMask s); [by intros [= <- <- <-]|].
    cbn zeta. destruct (forallb _ _); [|done].
    intros [= <- <- <-]. intros j x Hx Hne. cbn in *.
    rewrite lookup_bound_after.
    case_decide; [rewrite fmap_is_Some|]; by apply (Ht j).
  - intros Ht layout set s' g' Hc.
    destruct (createSet_closed _ _ _ _ _ _ Hc) as (pools & _ & _ & ->).
    intros j x Hx Hne. cbn in *.
    destruct (mHistory s !! vkSet set); [by apply (Ht j)|].
    apply lookup_insert_is_Some'. right. by apply (Ht j).
Qed.

(** X15. The destruction callback erases the history of a set without
    looking at the slots. When the set is still stashed in a slot, the
    slot keeps the handle of a set that is no longer tracked: a commit
    never binds that slot, whatever its mask, and the next [bind] of
    another set at that slot fails the assertion on the previous
    occupant. *)
Theorem destruction_callback_leaves_the_slot (i : nat) (key : Z)
    (count : DescriptorCount.t) (layoutMask : Bitmask.t) set (offsets : list Z) s g :
  mStashedSets s !! i = Some key →
  key ≠ VK_NULL_HANDLE →
  vkSet set ≠ key →
  let s' := destructionCallback key count layoutMask s in
  mStashedSets s' !! i = Some key
  ∧ mHistory s' !! key = None
  ∧ (∀ setMask : Z, needs_bind setMask s' i = false)
  ∧ bind i set offsets s' g = Abort InvariantPanic.
Proof.
  intros Hslot Hnull Hne s'. subst s'. unfold destructionCallback.
  cbn [mStashedSets mHistory]. split_and!.
  - done.
  - apply lookup_delete_eq.
  - intros setMask. unfold needs_bind, staged, at_index. cbn [mStashedSets mHistory].
    rewrite Hslot. cbn. rewrite lookup_delete_eq. apply andb_false_r.
  - erewrite bind_closed by (cbn; exact Hslot). cbn zeta. cbn [mHistory].
    destruct (Z.eqb_spec key VK_NULL_HANDLE) as [?|_]; [done|].
    by rewrite lookup_insert_ne, lookup_delete_eq.
Qed.

(** X16. What [createSet] leaves when it completes: the handle of the
    new set is not null, the layout has fewer than 64 resources, the
    stashed sets, the last committed state and the histories of the other
    sets are untouched. A handle that was not tracked gets a fresh
    history, wired to the new wrapper, unbound, with nothing written and
    no offsets; a handle that was tracked keeps the history it had,
    because [emplace] does not overwrite. *)
Theorem createSet_tracks_the_set layout s g set s' g' :
  createSet fromLayoutBitmask layout s g = Done (set, s', g') →
  vkSet set ≠ VK_NULL_HANDLE
  ∧ DescriptorCount.total (count layout) < 64
  ∧ mStashedSets s' = mStashedSets s
  ∧ mLastBoundInfo s' = mLastBoundInfo s
  ∧ (∀ key, key ≠ vkSet set → mHistory s' !! key = mHistory s !! key)
  ∧ (mHistory s !! vkSet set = None →
     ∃ h, mHistory s' !! vkSet set = Some h
          ∧ DescriptorSetHistory.mSet h = Some set
          ∧ DescriptorSetHistory.bound h = false
          ∧ DescriptorSetHistory.mWritten h = 0
          ∧ DescriptorSetHistory.mOffsets h = []
          ∧ DescriptorSetHistory.mask h = bitmask layout)
  ∧ (∀ h0, mHistory s !! vkSet set = Some h0 → mHistory s' !! vkSet set = Some h0).
Proof.
  intros Hc. destruct (createSet_closed _ _ _ _ _ _ Hc) as (pools & Ho & Ht & ->).
  destruct (infinite_obtainSet_never_null_aux _ _ _ _ _ _ _ Ho) as [Hnull _].
  cbn [mStashedSets mLastBoundInfo mHistory]. split_and!; try done.
  - lia.
  - intros key Hk. destruct (mHistory s !! vkSet set); [done|].
    by rewrite lookup_insert_ne.
  - intros Hno. rewrite Hno. eexists. rewrite lookup_insert_eq. done.
  - intros h0 Hh0. by rewrite Hh0.
Qed.

End LifeCycleMore.

Section RecyclingMore.
Import Impl.

Context (fromLayoutBitmask : Bitmask.t → DescriptorCount.t).

Implicit Types (s : Impl.t) (g : Gpu) (set : VulkanDescriptorSet).
Implicit Types (layout : VulkanDescriptorSetLayout).

(** X17. A destroyed set gives its handle to the next set of the same
    layout: after [createSet], [destroySet] and the destruction callback,
    for a layout whose count is the count of its mask, the next
    [createSet] for the layout returns the same handle without a call to
    the driver, with a fresh, unbound history. *)
Theorem createSet_reuses_the_destroyed_handle layout s g set s1 g1 s2 g2 :
  count layout = fromLayoutBitmask (bitmask layout) →
  createSet fromLayoutBitmask layout s g = Done (set, s1, g1) →
  destroySet set s1 g1 = Done (s2, g2) →
  ∃ s3,
    createSet fromLayoutBitmask layout
      (destructionCallback (vkSet set) (count layout) (bitmask layout) s2) g2
    = Done (set, s3, g2)
    ∧ g2 = g1
    ∧ ∃ h, mHistory s3 !! vkSet set = Some h
           ∧ DescriptorSetHistory.bound h = false
           ∧ DescriptorSetHistory.mWritten h = 0.
Proof.
  intros Hcount Hc. destruct (createSet_closed _ _ _ _ _ _ _ Hc) as (pools & Ho & Ht & ->).
  rewrite destroySet_closed. intros [= <- <-].
  destruct (infinite_obtainSet_never_null_aux _ _ _ _ _ _ _ Ho) as [Hnull Hex].
  destruct (scan_after_recycle layout pools None g1 (vkSet set) Hnull (Hex Hcount))
    as (pools' & Es & _).
  unfold destructionCallback, createSet, DescriptorInfinitePool.obtainSet.
  cbn [mDescriptorPool mHistory mStashedSets mLastBoundInfo].
  rewrite Es. cbn [mbind outcome_bind DescriptorInfinitePool.found
                     DescriptorInfinitePool.pools_after
                     DescriptorInfinitePool.gpu_after].
  unfold DescriptorSetHistory.create. rewrite Ht.
  cbn [assert_invariant mbind outcome_bind].
  rewrite lookup_delete_eq.
  eexists. split; [by destruct set|]. split; [done|].
  cbn [mHistory]. eexists. by rewrite lookup_insert_eq.
Qed.

(** X18. [destroySet] is idempotent: destroying a set that has just been
    destroyed changes nothing more. *)
Theorem destroySet_idempotent set s g s1 g1 :
  destroySet set s g = Done (s1, g1) →
  destroySet set s1 g1 = Done (s1, g1).
Proof.
  rewrite !destroySet_closed. intros [= <- <-].
  cbn [mDescriptorPool mHistory mStashedSets mLastBoundInfo].
  rewrite delete_delete_eq, <- list_fmap_compose.
  do 3 f_equal. apply list_fmap_ext. intros i x _. cbn. unfold clear_slot.
  destruct (Z.eqb_spec x (vkSet set)) as [->|Hne].
  - by destruct (VK_NULL_HANDLE =? vkSet set).
  - by destruct (Z.eqb_spec x (vkSet set)).
Qed.

End RecyclingMore.

Lemma stashed_handles_stay_tracked_witness :
  ∃ s', Impl.bind 1 {| vkSet := 8 |} [16] Sample.two_staged Sample.quiet_gpu
        = Done (s', Sample.quiet_gpu)
        ∧ stash_tracked s'.
Proof.
  destruct (stashed_handles_stay_tracked 4 Sample.fromLayoutBitmask Sample.two_staged
              Sample.quiet_gpu) as (_ & Hbind & _).
  apply Hbind.
  - intros i x Hx Hne. destruct i as [|[|[|[|i]]]]; cbn in Hx;
      try injection Hx as <-; try done; by_decision.
  - cbn. lia.
Defined.

Lemma destruction_callback_leaves_the_slot_witness :
  Impl.bind 0 {| vkSet := 8 |} []
    (Impl.destructionCallback 7 Sample.count_ubo Sample.mask_ubo Sample.two_staged)
    Sample.quiet_gpu
  = Abort InvariantPanic.
Proof.
  destruct (destruction_callback_leaves_the_slot 0 7 Sample.count_ubo Sample.mask_ubo
              {| vkSet := 8 |} [] Sample.two_staged Sample.quiet_gpu)
    as (_ & _ & _ & H); [reflexivity | discriminate | discriminate | exact H].
Defined.

Lemma createSet_tracks_the_set_witness :
  ∃ s' g',
    Impl.createSet Sample.fromLayoutBitmask Sample.layout_ubo (Impl.init 4)
      (Sample.gpu_with [(VK_SUCCESS, 7)])
    = Done ({| vkSet := 7 |}, s', g')
    ∧ Impl.mStashedSets s' = [0; 0; 0; 0].
Proof.
  do 2 eexists. split; [reflexivity|].
  destruct (createSet_tracks_the_set Sample.fromLayoutBitmask Sample.layout_ubo
              (Impl.init 4) (Sample.gpu_with [(VK_SUCCESS, 7)]) _ _ _ eq_refl)
    as (_ & _ & Hs & _).
  exact Hs.
Defined.

Lemma createSet_reuses_the_destroyed_handle_witness :
  ∃ s1 g1 s2 s3,
    Impl.createSet Sample.fromLayoutBitmask Sample.layout_ubo (Impl.init 4)
      (Sample.gpu_with [(VK_SUCCESS, 7)])
    = Done ({| vkSet := 7 |}, s1, g1)
    ∧ Impl.destroySet {| vkSet := 7 |} s1 g1 = Done (s2, g1)
    ∧ Impl.createSet Sample.fromLayoutBitmask Sample.layout_ubo
        (Impl.destructionCallback 7 Sample.count_ubo Sample.mask_ubo s2) g1
      = Done ({| vkSet := 7 |}, s3, g1).
Proof.
  do 3 eexists.
  destruct (createSet_reuses_the_destroyed_handle Sample.fromLayoutBitmask
              Sample.layout_ubo (Impl.init 4) (Sample.gpu_with [(VK_SUCCESS, 7)])
              _ _ _ _ _ eq_refl eq_refl eq_refl) as (s3 & E & _).
  exists s3. split; [reflexivity|]. split; [reflexivity|]. exact E.
Defined.

Lemma destroySet_idempotent_witness :
  ∃ s1,
    Impl.destroySet {| vkSet := 7 |} Sample.two_staged Sample.quiet_gpu
    = Done (s1, Sample.quiet_gpu)
    ∧ Impl.destroySet {| vkSet := 7 |} s1 Sample.quiet_gpu = Done (s1, Sample.quiet_gpu).
Proof.
  eexists. split; [reflexivity|].
  apply (destroySet_idempotent {| vkSet := 7 |} Sample.two_staged Sample.quiet_gpu).
  reflexivity.
Defined.

(* ===================================================================== *)
(** ** Properties of [VulkanSwapChain] *)

Section SwapChainFacts.
Import VulkanSwapChain.

(** [COUNT] is [IMAGE_READY_SEMAPHORE_COUNT]. *)
Context (COUNT : nat).

Implicit Types (sc : VulkanSwapChain.t) (w : World) (resized : bool).
Implicit Types (more : list Call).

Lemma fold_emit_calls (f : Z → Call) (l : list Z) w :
  calls (fold_left (λ w x, emit (f x) w) l w) = calls w ++ (f <$> l).
Proof.
  revert w. induction l as [|x l IH]; intros w; cbn [fold_left fmap list_fmap].
  - by rewrite app_nil_r.
  - rewrite IH. cbn. by rewrite <- app_assoc.
Qed.

Lemma fold_emit_acquires (f : Z → Call) (l : list Z) w :
  acquires (fold_left (λ w x, emit (f x) w) l w) = acquires w.
Proof. revert w. induction l as [|x l IH]; intros w; cbn; [done|]. by rewrite IH. Qed.

Lemma update_keeps sc w :
  mImageReady (update sc w).1 = mImageReady sc
  ∧ mCurrentImageReadyIndex (update sc w).1 = mCurrentImageReadyIndex sc
  ∧ mHeadless (update sc w).1 = mHeadless sc
  ∧ mAcquired (update sc w).1 = mAcquired sc
  ∧ swapChain (update sc w).1 = swapChain sc.
Proof. unfold update. by destruct (getSwapChainBundle _ _). Qed.

Lemma update_calls sc w :
  (∃ more, calls (update sc w).2 = calls w ++ more ∧ quiet more)
  ∧ acquires (update sc w).2 = acquires w.
Proof.
  unfold update, getSwapChainBundle. cbn.
  rewrite fold_emit_calls, fold_emit_acquires. cbn. rewrite <- !app_assoc.
  split; [|done]. eexists. split; [reflexivity|].
  constructor; [done|]. apply Forall_app. split; [|by constructor].
  apply Forall_fmap, Forall_forall. by intros.
Qed.

Lemma acquire_prepare_keeps sc w sc' resized' w' :
  acquire_prepare sc w = (sc', resized', w') →
  mImageReady sc' = mImageReady sc
  ∧ mCurrentImageReadyIndex sc' = mCurrentImageReadyIndex sc
  ∧ swapChain sc' = swapChain sc
  ∧ acquires w' = acquires w
  ∧ ∃ more, calls w' = calls w ++ PlatformHasResized (swapChain sc) :: more
            ∧ quiet more.
Proof.
  unfold acquire_prepare.
  destruct (hasResized (swapChain sc) w) as [r w0] eqn:Eh.
  assert (H0 : calls w0 = calls w ++ [PlatformHasResized (swapChain sc)]
               ∧ acquires w0 = acquires w).
  { unfold hasResized in Eh. by injection Eh as <- <-. }
  destruct H0 as [Hc0 Ha0]. destruct r.
  - set (w1 := emit (PlatformRecreate (swapChain sc))
                 (if mFlushAndWaitOnResize sc
                  then emit CommandsWait (emit CommandsFlush w0) else w0)).
    destruct (update sc w1) as [sc2 w2] eqn:Eu. intros [= <- <- <-].
    pose proof (update_keeps sc w1) as (H1 & H2 & _ & _ & H5).
    pose proof (update_calls sc w1) as [(more & Hm & Hq) Ha].
    rewrite Eu in *. cbn [fst snd] in *. rewrite Hm, Ha. split_and!; try done.
    + subst w1. by destruct (mFlushAndWaitOnResize sc).
    + subst w1. destruct (mFlushAndWaitOnResize sc); cbn; rewrite Hc0, <- !app_assoc;
        cbn; (eexists; split; [reflexivity|]); repeat (constructor; [done|]); done.
  - intros [= <- <- <-]. split_and!; try done.
    exists []. split; [done | constructor].
Qed.

Lemma acquire_unacquired resized sc w :
  mAcquired sc = false →
  acquire COUNT resized sc w
  = let '(sc', resized', w') := acquire_prepare sc w in
    let index := ((mCurrentImageReadyIndex sc' + 1) mod COUNT)%nat in
    match mImageReady sc' !! index with
    | None => Abort UndefinedBehaviour
    | Some imageReady =>
        let '(result, swapIndex, w) := platform_acquire (swapChain sc') imageReady w' in
        match result with
        | VK_SUCCESS | VK_SUBOPTIMAL_KHR =>
            let w :=
              if negb (imageReady =? VK_NULL_HANDLE)
              then emit (CommandsInjectDependency imageReady) w else w in
            Done (mk (mHeadless sc') (mFlushAndWaitOnResize sc') index true
                     (mIsFirstRenderPass sc') (swapChain sc') (mImageReady sc')
                     (mColors sc') (mDepth sc') (mExtent sc') swapIndex,
                  resized', w)
        | _ => Abort PostconditionPanic
        end
    end.
Proof.
  intros Hacq. unfold acquire, acquire_prepare. rewrite Hacq.
  destruct (hasResized (swapChain sc) w) as [r w0].
  by destruct (if r then _ else _) as [sc' w'].
Qed.

Lemma acquire_marks_acquired resized sc w sc1 resized1 w1 :
  acquire COUNT resized sc w = Done (sc1, resized1, w1) → mAcquired sc1 = true.
Proof.
  destruct (mAcquired sc) eqn:E.
  - unfold acquire. rewrite E. by intros [= <- _ _].
  - rewrite acquire_unacquired by done.
    destruct (acquire_prepare sc w) as [[sc' r'] w'].
    cbn zeta. destruct (mImageReady sc' !! _) as [sem|]; [|done].
    destruct (platform_acquire _ _ _) as [[[] i] w2]; try done; by intros [= <- _ _].
Qed.

Lemma present_closed sc w sc1 w1 :
  present sc w = Done (sc1, w1) →
  sc1 = mk (mHeadless sc) (mFlushAndWaitOnResize sc) (mCurrentImageReadyIndex sc)
           false true (swapChain sc) (mImageReady sc) (mColors sc) (mDepth sc)
           (mExtent sc) (mCurrentSwapIndex sc).
Proof.
  unfold present.
  destruct (if negb (mHeadless sc) then _ else _) as [w0|]; [|done].
  cbn [mbind outcome_bind].
  destruct (if negb (mHeadless sc) then _ else _) as [w3|]; [|done].
  cbn [mbind outcome_bind]. by intros [= <- _].
Qed.

(** X19. The swap chain acquires one image per frame: an [acquire] on a
    chain that has acquired returns at once, asking nothing of the
    platform and leaving the caller's [resized] as it is, so a second
    [acquire] is a no-op; [present] ends the frame, and the [acquire] that
    follows a [present] asks the platform again. *)
Theorem swapchain_acquires_once_per_frame resized sc w :
  (∀ sc1 resized1 w1,
     acquire COUNT resized sc w = Done (sc1, resized1, w1) →
     ∀ resized', acquire COUNT resized' sc1 w1 = Done (sc1, resized', w1))
  ∧ (∀ sc1 w1,
       present sc w = Done (sc1, w1) →
       mAcquired sc1 = false ∧ mIsFirstRenderPass sc1 = true
       ∧ mCurrentImageReadyIndex sc1 = mCurrentImageReadyIndex sc
       ∧ mImageReady sc1 = mImageReady sc
       ∧ ∀ resized' sc2 resized2 w2,
           acquire COUNT resized' sc1 w1 = Done (sc2, resized2, w2) →
           ∃ more, calls w2 = calls w1 ++ PlatformHasResized (swapChain sc) :: more).
Proof.
  split.
  - intros sc1 resized1 w1 Ha resized'.
    unfold acquire. by rewrite (acquire_marks_acquired _ _ _ _ _ _ Ha).
  - intros sc1 w1 Hp. rewrite (present_closed _ _ _ _ Hp).
    cbn [mAcquired mIsFirstRenderPass mCurrentImageReadyIndex mImageReady].
    split_and!; try done.
    intros resized' sc2 resized2 w2. rewrite acquire_unacquired by done.
    destruct (acquire_prepare _ w1) as [[sc' r'] w'] eqn:Ep.
    destruct (acquire_prepare_keeps _ _ _ _ _ Ep) as (_ & _ & _ & _ & more & Hc & _).
    cbn [swapChain] in Hc. cbn zeta.
    destruct (mImageReady sc' !! _) as [sem|]; [|done].
    unfold platform_acquire.
    destruct (hd _ _) as [[] i]; try done; intros [= _ _ <-];
      destruct (negb (sem =? VK_NULL_HANDLE)); cbn; rewrite Hc;
      rewrite <- ?app_assoc; cbn; by eexists.
Qed.

(** X20. The semaphore that waits for the image rotates: on a chain
    that has its [COUNT] semaphores and an index within them, an [acquire]
    that asks the platform never reads outside the array; when it
    completes, the index has moved to the next one, modulo [COUNT], the
    semaphores are those of before, the platform was asked with the
    semaphore at the new index, and the chain is marked acquired. *)
Theorem swapchain_semaphore_rotates resized sc w :
  swapchain_sound COUNT sc →
  mAcquired sc = false →
  acquire COUNT resized sc w ≠ Abort UndefinedBehaviour
  ∧ ∀ sc1 resized1 w1,
      acquire COUNT resized sc w = Done (sc1, resized1, w1) →
      mCurrentImageReadyIndex sc1 = ((mCurrentImageReadyIndex sc + 1) mod COUNT)%nat
      ∧ mImageReady sc1 = mImageReady sc
      ∧ swapchain_sound COUNT sc1
      ∧ mAcquired sc1 = true
      ∧ ∃ imageReady,
          mImageReady sc !! mCurrentImageReadyIndex sc1 = Some imageReady
          ∧ PlatformAcquire (swapChain sc) imageReady ∈ calls w1.
Proof.
  intros [Hlen Hidx] Hacq. rewrite acquire_unacquired by done.
  destruct (acquire_prepare sc w) as [[sc' r'] w'] eqn:Ep.
  destruct (acquire_prepare_keeps _ _ _ _ _ Ep) as (Hready & Hi & Hs & _ & _).
  cbn zeta. rewrite Hready, Hi, Hs.
  assert (Hmod : ((mCurrentImageReadyIndex sc + 1) mod COUNT < COUNT)%nat).
  { apply Nat.mod_upper_bound. lia. }
  destruct (lookup_lt_is_Some_2 (mImageReady sc)
              ((mCurrentImageReadyIndex sc + 1) mod COUNT)%nat) as [sem Hsem]; [lia|].
  rewrite Hsem. unfold platform_acquire.
  destruct (hd _ _) as [[] i]; (split; [done|]);
    intros sc1 resized1 w1 [=]; subst; cbn [mCurrentImageReadyIndex mImageReady mAcquired];
    unfold swapchain_sound; cbn [mCurrentImageReadyIndex mImageReady];
    (split_and!; try done); exists sem; (split; [done|]);
    destruct (negb (sem =? VK_NULL_HANDLE)); cbn;
    rewrite ?elem_of_app, ?list_elem_of_singleton; auto.
Qed.

(** X21. A headless swap chain keeps away from presentation. The
    constructor makes the chain headless exactly for a null window and an
    extent that is not empty, and then leaves every entry of the array of
    semaphores null without creating one; [present] on a headless chain
    only flushes the commands; and an [acquire] on a chain whose
    semaphores are all null injects no dependency. *)
Theorem swapchain_headless_keeps_away :
  (∀ (flushAndWait : bool) (nativeWindow flags : Z) (size : Z * Z) w sc w',
     create COUNT flushAndWait nativeWindow flags size w = Done (sc, w') →
     mHeadless sc = negb (size.1 =? 0) && negb (size.2 =? 0) && (nativeWindow =? 0)
     ∧ (mHeadless sc = true →
        mImageReady sc = replicate COUNT VK_NULL_HANDLE
        ∧ ∃ more, calls w' = calls w ++ more ∧ quiet more))
  ∧ (∀ sc w, mHeadless sc = true →
       ∃ sc', present sc w = Done (sc', emit CommandsFlush w))
  ∧ (∀ resized sc w sc1 resized1 w1,
       Forall (λ semaphore, semaphore = VK_NULL_HANDLE) (mImageReady sc) →
       acquire COUNT resized sc w = Done (sc1, resized1, w1) →
       ∃ more, calls w1 = calls w ++ more ∧ quiet more).
Proof.
  split_and!.
  - intros flushAndWait nativeWindow flags size w sc w'. unfold create.
    destruct (createSwapChain _ _ _ _) as [handle w0] eqn:Ec.
    assert (Hc0 : calls w0 = calls w ++ [PlatformCreateSwapChain nativeWindow flags size]).
    { unfold createSwapChain in Ec. by injection Ec as _ <-. }
    destruct (handle =? 0); [done|].
    destruct (negb (size.1 =? 0) && negb (size.2 =? 0) && (nativeWindow =? 0)).
    + cbn [mbind outcome_bind].
      set (sc0 := mk true _ _ _ _ _ _ _ _ _ _).
      pose proof (update_keeps sc0 w0) as (H1 & _ & H3 & _).
      pose proof (update_calls sc0 w0) as [(more & Hm & Hq) _].
      destruct (update sc0 w0) as [sc1 w1]. intros [= <- <-]. cbn [fst snd] in *.
      rewrite H1, H3. split; [done|]. intros _. split; [done|].
      rewrite Hm, Hc0, <- app_assoc. eexists. split; [reflexivity|].
      by constructor.
    + destruct (create_semaphores COUNT w0) as [[ready w1]|]; [|done].
      cbn [mbind outcome_bind].
      set (sc0 := mk false _ _ _ _ _ _ _ _ _ _).
      pose proof (update_keeps sc0 w1) as (_ & _ & H3 & _).
      destruct (update sc0 w1) as [sc1 w2]. intros [= <- <-]. cbn [fst] in *.
      rewrite H3. done.
  - intros sc w Hh. unfold present. rewrite Hh. cbn. by eexists.
  - intros resized sc w sc1 resized1 w1 Hnull.
    destruct (mAcquired sc) eqn:Hacq.
    { unfold acquire. rewrite Hacq. intros [= <- <- <-].
      exists []. split; [by rewrite app_nil_r | constructor]. }
    rewrite acquire_unacquired by done.
    destruct (acquire_prepare sc w) as [[sc' r'] w'] eqn:Ep.
    destruct (acquire_prepare_keeps _ _ _ _ _ Ep)
      as (Hready & _ & _ & _ & more & Hc & Hq).
    cbn zeta. rewrite Hready.
    destruct (mImageReady sc !! _) as [sem|] eqn:Hsem; [|done].
    assert (sem = VK_NULL_HANDLE) as ->.
    { rewrite Forall_forall in Hnull. by eapply Hnull, list_elem_of_lookup_2. }
    unfold platform_acquire.
    destruct (hd _ _) as [[] i]; try done; intros [= _ _ <-]; cbn;
      rewrite Hc, <- app_assoc; cbn; (eexists; split; [reflexivity|]);
      (constructor; [done|]); (apply Forall_app; split; [done|]); by constructor.
Qed.

(** X22. Which answers of the platform let the swap chain go on. An
    [acquire] that asks the platform completes only on [VK_SUCCESS] or
    [VK_SUBOPTIMAL_KHR], and then takes the image index the platform
    gave; any other answer, an out-of-date swap chain included, stops the
    process. [present] on a window goes on with an out-of-date swap chain
    as well: it completes exactly when the current image exists and the
    platform answers one of these three. *)
Theorem swapchain_accepted_results resized sc w :
  (∀ sc1 resized1 w1,
     acquire COUNT resized sc w = Done (sc1, resized1, w1) →
     mAcquired sc = true
     ∨ ∃ index : nat,
         mCurrentSwapIndex sc1 = index
         ∧ (hd (VK_ERROR_DEVICE_LOST, 0%nat) (acquires w) = (VK_SUCCESS, index)
            ∨ hd (VK_ERROR_DEVICE_LOST, 0%nat) (acquires w) = (VK_SUBOPTIMAL_KHR, index)))
  ∧ (mHeadless sc = false →
     ((∃ sc1 w1, present sc w = Done (sc1, w1))
      ↔ is_Some (mColors sc !! mCurrentSwapIndex sc)
        ∧ (hd VK_ERROR_DEVICE_LOST (presents w) = VK_SUCCESS
           ∨ hd VK_ERROR_DEVICE_LOST (presents w) = VK_SUBOPTIMAL_KHR
           ∨ hd VK_ERROR_DEVICE_LOST (presents w) = VK_ERROR_OUT_OF_DATE_KHR))).
Proof.
  split.
  - intros sc1 resized1 w1.
    destruct (mAcquired sc) eqn:Hacq; [by left|]. right. revert H.
    rewrite acquire_unacquired by done.
    destruct (acquire_prepare sc w) as [[sc' r'] w'] eqn:Ep.
    destruct (acquire_prepare_keeps _ _ _ _ _ Ep) as (_ & _ & _ & Ha & _).
    cbn zeta. destruct (mImageReady sc' !! _) as [sem|]; [|done].
    unfold platform_acquire. cbn [acquires emit]. rewrite Ha.
    destruct (hd _ (acquires w)) as [[] i]; try done; intros [= <- _ _];
      exists i; cbn; auto.
  - intros Hh. unfold present. rewrite Hh. cbn [negb].
    destruct (mColors sc !! mCurrentSwapIndex sc) as [image|].
    2:{ cbn. split; [by intros (? & ? & ?) | by intros [[? ?] _]]. }
    cbn [mbind outcome_bind]. unfold acquireFinishedSignal, platform_present.
    cbn [presents emit].
    destruct (hd VK_ERROR_DEVICE_LOST (presents w)); cbn [mbind outcome_bind];
      (split; [intros (? & ? & ?) | intros [_ [?|[?|?]]]]); try done;
      try (split; [by eexists | auto]); by do 2 eexists.
Qed.

Lemma create_semaphores_done n : ∀ w ready w',
  create_semaphores n w = Done (ready, w') →
  length ready = n
  ∧ pair VK_SUCCESS <$> ready = take n (semaphores w)
  ∧ semaphores w' = drop n (semaphores w).
Proof.
  induction n as [|n IH]; intros w ready w'; cbn [create_semaphores].
  { intros [= <- <-]. by rewrite take_0, drop_0. }
  unfold vkCreateSemaphore. cbn [semaphores emit].
  destruct (semaphores w) as [|[result semaphore] rest] eqn:Hs; [done|].
  cbn [hd tl]. destruct result; try done.
  set (w1 := Build_World _ _ _ _ _ _ _ _).
  specialize (IH w1). destruct (create_semaphores n w1) as [[rest' w2]|]; [|done].
  cbn [mbind outcome_bind]. intros [= <- <-].
  destruct (IH _ _ eq_refl) as (Hlen & Htake & Hdrop). subst w1. cbn in Htake, Hdrop.
  cbn [length fmap list_fmap take drop]. by rewrite Hlen, Htake, Hdrop.
Qed.

(** X23. What the constructor leaves. When it returns, the swap chain
    holds a handle that is not null and an array of semaphores of the
    right length, it has not acquired, it is before its first render
    pass, and its first semaphore is the current one. On a window its
    semaphores are the ones the driver gave, each with [VK_SUCCESS], in
    the order of the calls. *)
Theorem swapchain_create_sound (flushAndWait : bool) (nativeWindow flags : Z)
    (size : Z * Z) w sc w' :
  (0 < COUNT)%nat →
  create COUNT flushAndWait nativeWindow flags size w = Done (sc, w') →
  swapchain_sound COUNT sc
  ∧ swapChain sc ≠ VK_NULL_HANDLE
  ∧ mAcquired sc = false
  ∧ mIsFirstRenderPass sc = true
  ∧ mCurrentImageReadyIndex sc = 0%nat
  ∧ (mHeadless sc = false →
     pair VK_SUCCESS <$> mImageReady sc = take COUNT (semaphores w)).
Proof.
  intros Hpos. unfold create.
  destruct (createSwapChain _ _ _ _) as [handle w0] eqn:Ec.
  assert (Hs0 : semaphores w0 = semaphores w).
  { unfold createSwapChain in Ec. by injection Ec as _ <-. }
  destruct (Z.eqb_spec handle 0) as [|Hhandle]; [done|].
  set (headless := negb (size.1 =? 0) && negb (size.2 =? 0) && (nativeWindow =? 0)).
  assert (Hready : ∀ ready w1,
    (if headless then Done (replicate COUNT VK_NULL_HANDLE, w0)
     else create_semaphores COUNT w0) = Done (ready, w1) →
    length ready = COUNT
    ∧ (headless = false → pair VK_SUCCESS <$> ready = take COUNT (semaphores w))).
  { intros ready w1. destruct headless.
    - intros [= <- <-]. by rewrite length_replicate.
    - intros (? & ? & _)%create_semaphores_done. by rewrite <- Hs0. }
  destruct (if headless then _ else _) as [[ready w1]|]; [|done].
  destruct (Hready _ _ eq_refl) as [Hlen Hgiven].
  cbn [mbind outcome_bind]. unfold update.
  destruct (getSwapChainBundle _ _) as [bundle w2]. intros [= <- <-].
  cbn. unfold swapchain_sound. cbn. by split_and!.
Qed.

Lemma destroy_semaphores_calls (l : list Z) : ∀ w,
  calls (fold_left
           (λ w semaphore,
              if semaphore =? VK_NULL_HANDLE then w
              else emit (VkDestroySemaphore semaphore) w) l w)
  = calls w
    ++ (VkDestroySemaphore <$> filter (λ semaphore, semaphore ≠ VK_NULL_HANDLE) l).
Proof.
  induction l as [|semaphore l IH]; intros w; cbn [fold_left].
  { by rewrite app_nil_r. }
  rewrite IH. destruct (Z.eqb_spec semaphore VK_NULL_HANDLE) as [Heq|Hne].
  - by rewrite filter_cons_False by (by intros ?).
  - rewrite filter_cons_True by done. cbn. by rewrite <- app_assoc.
Qed.

(** X24. What the destructor asks of its collaborators: it flushes the
    commands and waits for them, has the platform destroy the swap
    chain, and then destroys each semaphore of the array that is not
    null, once, in the order of the array. *)
Theorem swapchain_destroy_releases sc w :
  length (mImageReady sc) = COUNT →
  calls (destroy COUNT sc w)
  = calls w
    ++ [CommandsFlush; CommandsWait; PlatformDestroy (swapChain sc)]
    ++ (VkDestroySemaphore
          <$> filter (λ semaphore, semaphore ≠ VK_NULL_HANDLE) (mImageReady sc)).
Proof.
  intros Hlen. unfold destroy.
  rewrite destroy_semaphores_calls, take_ge by lia.
  cbn. by rewrite <- !app_assoc.
Qed.

End SwapChainFacts.

Lemma swapchain_acquires_once_per_frame_witness :
  ∃ sc1 w1,
    VulkanSwapChain.acquire SwapSample.COUNT false SwapSample.windowed SwapSample.world
    = Done (sc1, false, w1)
    ∧ VulkanSwapChain.acquire SwapSample.COUNT true sc1 w1 = Done (sc1, true, w1).
Proof.
  do 2 eexists. split; [reflexivity|].
  destruct (swapchain_acquires_once_per_frame SwapSample.COUNT false SwapSample.windowed
              SwapSample.world) as [H _].
  apply (H _ false _ eq_refl).
Defined.

Lemma swapchain_semaphore_rotates_witness :
  ∃ sc1 w1,
    VulkanSwapChain.acquire SwapSample.COUNT false SwapSample.windowed SwapSample.world
    = Done (sc1, false, w1)
    ∧ VulkanSwapChain.mCurrentImageReadyIndex sc1 = 1%nat
    ∧ VulkanSwapChain.PlatformAcquire 11 22 ∈ VulkanSwapChain.calls w1.
Proof.
  do 2 eexists. split; [reflexivity|].
  destruct (swapchain_semaphore_rotates SwapSample.COUNT false SwapSample.windowed
              SwapSample.world) as [_ H].
  - split; [reflexivity | cbn; unfold SwapSample.COUNT; lia].
  - reflexivity.
  - destruct (H _ _ _ eq_refl) as (Hi & _ & _ & _ & sem & Hsem & Hin).
    split; [exact Hi|]. rewrite Hi in Hsem. injection Hsem as <-. exact Hin.
Defined.

Lemma swapchain_headless_keeps_away_witness :
  ∃ sc',
    VulkanSwapChain.present SwapSample.headless SwapSample.world
    = Done (sc', VulkanSwapChain.emit VulkanSwapChain.CommandsFlush SwapSample.world).
Proof.
  destruct (swapchain_headless_keeps_away SwapSample.COUNT) as (_ & H & _).
  apply H. reflexivity.
Defined.

Lemma swapchain_create_sound_witness :
  ∃ sc w',
    VulkanSwapChain.create SwapSample.COUNT false 5 0 (640, 480) SwapSample.world
    = Done (sc, w')
    ∧ swapchain_sound SwapSample.COUNT sc
    ∧ VulkanSwapChain.mImageReady sc = [21; 22; 23].
Proof.
  do 2 eexists. split; [vm_compute; reflexivity|].
  destruct (swapchain_create_sound SwapSample.COUNT false 5 0 (640, 480)
              SwapSample.world _ _ ltac:(unfold SwapSample.COUNT; lia) eq_refl)
    as (Hsound & _).
  split; [exact Hsound | reflexivity].
Defined.

Lemma swapchain_destroy_releases_witness :
  VulkanSwapChain.calls
    (VulkanSwapChain.destroy SwapSample.COUNT SwapSample.windowed SwapSample.world)
  = [ VulkanSwapChain.CommandsFlush; VulkanSwapChain.CommandsWait;
      VulkanSwapChain.PlatformDestroy 11; VulkanSwapChain.VkDestroySemaphore 21;
      VulkanSwapChain.VkDestroySemaphore 22; VulkanSwapChain.VkDestroySemaphore 23 ].
Proof.
  rewrite (swapchain_destroy_releases SwapSample.COUNT SwapSample.windowed
             SwapSample.world); reflexivity.
Defined.

Lemma swapchain_accepted_results_witness :
  VulkanSwapChain.acquire SwapSample.COUNT false SwapSample.windowed
    SwapSample.stale_world
  = Abort PostconditionPanic
  ∧ ∃ sc1 w1,
      VulkanSwapChain.present SwapSample.windowed SwapSample.stale_world
      = Done (sc1, w1).
Proof.
  split; [reflexivity|].
  destruct (swapchain_accepted_results SwapSample.COUNT false SwapSample.windowed
              SwapSample.stale_world) as [_ H].
  apply H; [reflexivity|]. split; [by eexists | auto].
Defined.

(* ===================================================================== *)
(** ** Properties of [getDescriptorName] *)

Section DescriptorNames.

Import DescriptorSets.

Lemma small_binding (binding : Z) (n : nat) :
  0 ≤ binding < Z.of_nat n → binding ∈ (Z.of_nat <$> seq 0 n).
Proof.
  intros H. apply list_elem_of_fmap. exists (Z.to_nat binding).
  split; [lia | apply elem_of_seq; lia].
Qed.

Lemma getDescriptorName_in_range set binding name :
  0 ≤ binding →
  getDescriptorName set binding = Done name →
  binding ∈ (Z.of_nat <$> seq 0 (Z.to_nat (name_count set))).
Proof.
  intros H0 H. apply small_binding. split; [done|].
  destruct set; unfold getDescriptorName, assert_invariant in H;
    case_bool_decide; try done; cbn; cbn in *; lia.
Qed.

(** X25. [getDescriptorName] never reads outside its tables of names:
    for an unsigned binding it returns a name when the binding is below
    the size of the layout of the set (below 1 for the material's set),
    and the assertion fails otherwise. No two pairs of set and binding
    have the same name. *)
Theorem getDescriptorName_guarded_and_injective set binding :
  0 ≤ binding →
  (if bool_decide (binding < name_count set)
   then ∃ name, getDescriptorName set binding = Done name
   else getDescriptorName set binding = Abort InvariantPanic)
  ∧ ∀ set' binding' name,
      0 ≤ binding' →
      getDescriptorName set binding = Done name →
      getDescriptorName set' binding' = Done name →
      set' = set ∧ binding' = binding.
Proof.
  intros H0. split.
  - case_bool_decide as Hlt.
    + assert (Hin : binding ∈ (Z.of_nat <$> seq 0 (Z.to_nat (name_count set)))).
      { apply small_binding. destruct set; cbn in *; lia. }
      destruct set; each_binding Hin; by eexists.
    + destruct set; unfold getDescriptorName, assert_invariant;
        cbn in Hlt; cbn; case_bool_decide; done || lia.
  - intros set' binding' name H0' H H'.
    pose proof (getDescriptorName_in_range _ _ _ H0 H) as Hin.
    pose proof (getDescriptorName_in_range _ _ _ H0' H') as Hin'.
    destruct set; each_binding Hin; vm_compute in H; injection H as <-;
      destruct set'; each_binding Hin'; by vm_compute in H'.
Qed.

End DescriptorNames.

Lemma getDescriptorName_guarded_and_injective_witness :
  DescriptorSets.getDescriptorName PER_RENDERABLE 5
  = Done "sampler1_indicesAndWeights"%string
  ∧ DescriptorSets.getDescriptorName PER_RENDERABLE 6 = Abort InvariantPanic.
Proof.
  split; [reflexivity|].
  destruct (getDescriptorName_guarded_and_injective PER_RENDERABLE 6) as [H _];
    [lia | exact H].
Defined.

(* ===================================================================== *)
(** ** Properties of [SamplerBindingMap] *)

Section EnterFacts.

Import SamplerBindingMap.

Lemma enter_spec es : ∀ m,
  match enter m es with
  | Ready m' => entered es m m'
  | AssertInvariant => ¬ (NoDup es.*1 ∧ ∀ k, k ∈ es.*1 → m !! k = None)
  | PreconditionPanic _ => False
  end.
Proof.
  induction es as [|[k v] rest IH]; intros m; cbn [enter].
  - split_and!; [cbn; constructor | by intros k ?%elem_of_nil |].
    intros k v. split; [auto|].
    intros [?|H]; [done | by apply elem_of_nil in H].
  - destruct (m !! k) as [old|] eqn:Hk.
    { intros [_ H]. specialize (H k). cbn in H. rewrite Hk in H.
      discriminate H. apply elem_of_cons. by left. }
    specialize (IH (<[k := v]> m)).
    destruct (enter (<[k := v]> m) rest) as [m'| |]; [| |done].
    + destruct IH as (Hnd & Hnew & Hm'). split_and!.
      * cbn. constructor; [|done]. intros Hin. apply Hnew in Hin.
        by rewrite lookup_insert_eq in Hin.
      * intros k' [->|Hin]%elem_of_cons; [done|].
        apply Hnew in Hin. by apply lookup_insert_None in Hin as [? _].
      * intros k' v'. rewrite Hm', lookup_insert_Some, elem_of_cons. split.
        -- intros [[[-> ->]|[_ ?]]|?]; auto.
        -- intros [H|[[= -> ->]|?]]; auto. left. right. split; [|done].
           intros ->. congruence.
    + intros [Hnd Hnew]. apply IH. cbn in Hnd. apply NoDup_cons in Hnd as [Hk' Hnd].
      split; [done|]. intros k' Hin. apply lookup_insert_None. split.
      * apply Hnew. apply elem_of_cons. by right.
      * by intros ->.
Qed.

Lemma enter_app es1 es2 : ∀ m,
  enter m (es1 ++ es2) = (m1 ← enter m es1; enter m1 es2).
Proof.
  induction es1 as [|[k v] rest IH]; intros m; [done|].
  cbn [app enter]. destruct (m !! k); [done|]. apply IH.
Qed.

Lemma insert_samplers_enter set l : ∀ m,
  insert_samplers set m l
  = enter m ((λ info, ((set, binding info), uniformName info)) <$> l).
Proof.
  induction l as [|info rest IH]; intros m; [done|].
  cbn [insert_samplers fmap list_fmap enter]. unfold insert_sampler.
  destruct (m !! (set, binding info)); [done|]. cbn. apply IH.
Qed.

Lemma size_t_add_l a b : size_t (size_t a + b) = size_t (a + b).
Proof. unfold size_t. by rewrite Zplus_mod_idemp_l. Qed.

End EnterFacts.

Section SamplerBindingMapFacts.

Import SamplerBindingMap.

Context (getSib : DescriptorSetBindingPoints → option SamplerInterfaceBlock)
        (set_value : DescriptorSetBindingPoints → Z)
        (VERTEX FRAGMENT : Z)
        (MAX_SAMPLER_COUNT MAX_VERTEX_SAMPLER_COUNT MAX_FRAGMENT_SAMPLER_COUNT : Z).

Lemma group_entries sib set :
  sampler_entry set_value <$> group_samplers getSib sib set
  = match sib_of getSib sib set with
    | Some b => (λ info, ((set_value set, binding info), uniformName info))
                  <$> getSamplerInfoList b
    | None => []
    end.
Proof.
  unfold group_samplers. destruct (sib_of getSib sib set); [|done].
  by rewrite <- list_fmap_compose.
Qed.

Lemma processSamplerGroup_spec sib set st V F :
  vertexSamplerCount st = size_t V →
  fragmentSamplerCount st = size_t F →
  match processSamplerGroup getSib set_value VERTEX FRAGMENT sib set st with
  | Ready st' =>
      enter (mSamplerNamesBindingMap st)
        (sampler_entry set_value <$> group_samplers getSib sib set)
      = Ready (mSamplerNamesBindingMap st')
      ∧ vertexSamplerCount st' = size_t (V + group_total getSib sib VERTEX set)
      ∧ fragmentSamplerCount st' = size_t (F + group_total getSib sib FRAGMENT set)
  | AssertInvariant =>
      enter (mSamplerNamesBindingMap st)
        (sampler_entry set_value <$> group_samplers getSib sib set)
      = AssertInvariant
  | PreconditionPanic _ => False
  end.
Proof.
  intros HV HF. rewrite group_entries. unfold processSamplerGroup, group_total.
  replace (if decide (set = PER_MATERIAL) then Some sib else getSib set)
    with (sib_of getSib sib set) by (by destruct set).
  destruct (sib_of getSib sib set) as [b|].
  - rewrite insert_samplers_enter.
    pose proof (enter_spec
      ((λ info, ((set_value set, binding info), uniformName info))
         <$> getSamplerInfoList b) (mSamplerNamesBindingMap st)) as Hs.
    destruct (enter _ _) as [m'| |]; cbn; [|done|done].
    split_and!; [done| |].
    + rewrite HV. destruct (any_stage _ VERTEX);
        [apply size_t_add_l | by rewrite Z.add_0_r].
    + rewrite HF. destruct (any_stage _ FRAGMENT);
        [apply size_t_add_l | by rewrite Z.add_0_r].
  - cbn. by rewrite HV, HF, !Z.add_0_r.
Qed.

Lemma process_groups_spec sib sets : ∀ st V F,
  vertexSamplerCount st = size_t V →
  fragmentSamplerCount st = size_t F →
  match process_groups getSib set_value VERTEX FRAGMENT sib sets st with
  | Ready st' =>
      enter (mSamplerNamesBindingMap st)
        (sampler_entry set_value <$> (sets ≫= group_samplers getSib sib))
      = Ready (mSamplerNamesBindingMap st')
      ∧ vertexSamplerCount st' = size_t (V + stage_total_in getSib sib VERTEX sets)
      ∧ fragmentSamplerCount st' = size_t (F + stage_total_in getSib sib FRAGMENT sets)
  | AssertInvariant =>
      enter (mSamplerNamesBindingMap st)
        (sampler_entry set_value <$> (sets ≫= group_samplers getSib sib))
      = AssertInvariant
  | PreconditionPanic _ => False
  end.
Proof.
  induction sets as [|set rest IH]; intros st V F HV HF.
  - cbn. by rewrite HV, HF, !Z.add_0_r.
  - cbn [process_groups mbind list_bind]. rewrite fmap_app, enter_app.
    pose proof (processSamplerGroup_spec sib set st V F HV HF) as Hg.
    destruct (processSamplerGroup _ _ _ _ _ _ _) as [st1| |]; [| |done].
    + destruct Hg as (-> & HV1 & HF1). cbn [mbind checked_bind].
      specialize (IH st1 _ _ HV1 HF1).
      destruct (process_groups getSib set_value VERTEX FRAGMENT sib rest st1)
        as [st2| |]; [| |done].
      * destruct IH as (? & -> & ->). split_and!; [done|..];
          unfold stage_total_in; cbn [fmap list_fmap foldr]; f_equal; lia.
      * done.
    + cbn [mbind checked_bind]. by rewrite Hg.
Qed.

Lemma init_unfold materialDomain sib m :
  init getSib set_value VERTEX FRAGMENT MAX_SAMPLER_COUNT
    MAX_VERTEX_SAMPLER_COUNT MAX_FRAGMENT_SAMPLER_COUNT materialDomain sib m
  = (st ← process_groups getSib set_value VERTEX FRAGMENT sib
           (groups materialDomain)
           {| mSamplerNamesBindingMap := m;
              vertexSamplerCount := 0; fragmentSamplerCount := 0 |};
     if negb (size_t (vertexSamplerCount st + fragmentSamplerCount st)
              <=? MAX_SAMPLER_COUNT)
     then PreconditionPanic "material using too many samplers"
     else if negb (vertexSamplerCount st <=? MAX_VERTEX_SAMPLER_COUNT)
     then PreconditionPanic "material using too many samplers in vertex shader"
     else if negb (fragmentSamplerCount st <=? MAX_FRAGMENT_SAMPLER_COUNT)
     then PreconditionPanic "material using too many samplers in fragment shader"
     else Ready (mSamplerNamesBindingMap st)).
Proof.
  unfold init.
  destruct materialDomain; cbn [groups process_groups];
    repeat (destruct (processSamplerGroup _ _ _ _ _ _ _) as [?| |];
            cbn [mbind checked_bind]; try done).
Qed.

(** What [init] does to the map, in one list. *)
Lemma init_enter materialDomain sib m :
  match init getSib set_value VERTEX FRAGMENT MAX_SAMPLER_COUNT
    MAX_VERTEX_SAMPLER_COUNT MAX_FRAGMENT_SAMPLER_COUNT materialDomain sib m with
  | Ready m' =>
      enter m (sampler_entry set_value <$> samplers_of getSib sib materialDomain)
      = Ready m'
      ∧ within_limits MAX_SAMPLER_COUNT MAX_VERTEX_SAMPLER_COUNT
          MAX_FRAGMENT_SAMPLER_COUNT
          (size_t (stage_total getSib sib materialDomain VERTEX))
          (size_t (stage_total getSib sib materialDomain FRAGMENT))
  | AssertInvariant =>
      enter m (sampler_entry set_value <$> samplers_of getSib sib materialDomain)
      = AssertInvariant
  | PreconditionPanic _ =>
      (∃ m', enter m (sampler_entry set_value <$> samplers_of getSib sib materialDomain)
             = Ready m')
      ∧ ¬ within_limits MAX_SAMPLER_COUNT MAX_VERTEX_SAMPLER_COUNT
            MAX_FRAGMENT_SAMPLER_COUNT
            (size_t (stage_total getSib sib materialDomain VERTEX))
            (size_t (stage_total getSib sib materialDomain FRAGMENT))
  end.
Proof.
  rewrite init_unfold. unfold samplers_of, stage_total, within_limits.
  pose proof (process_groups_spec sib (groups materialDomain)
    {| mSamplerNamesBindingMap := m;
       vertexSamplerCount := 0; fragmentSamplerCount := 0 |} 0 0 eq_refl eq_refl) as Hp.
  destruct (process_groups getSib set_value VERTEX FRAGMENT sib
              (groups materialDomain) _) as [st| |]; [| |done].
  - cbn [mbind checked_bind]. destruct Hp as (Hm & HV & HF).
    cbn [mSamplerNamesBindingMap] in Hm. rewrite Z.add_0_l in HV, HF.
    rewrite <- HV, <- HF.
    destruct (Z.leb_spec (size_t (vertexSamplerCount st + fragmentSamplerCount st))
                MAX_SAMPLER_COUNT); cbn [negb].
    2:{ split; [by eexists | lia]. }
    destruct (Z.leb_spec (vertexSamplerCount st) MAX_VERTEX_SAMPLER_COUNT); cbn [negb].
    2:{ split; [by eexists | lia]. }
    destruct (Z.leb_spec (fragmentSamplerCount st) MAX_FRAGMENT_SAMPLER_COUNT);
      cbn [negb].
    2:{ split; [by eexists | lia]. }
    done.
  - done.
Qed.

Lemma entries_keys (l : list (DescriptorSetBindingPoints * SamplerInfo)) :
  (sampler_entry set_value <$> l).*1 = sampler_key set_value <$> l.
Proof. by rewrite <- list_fmap_compose. Qed.

(** X26. After an [init] of an empty map that returns, [getSamplerName]
    finds exactly the samplers of the groups of the material domain: the
    name under a set and a binding is the name of the sampler of that
    group with that binding, and there is only one such sampler. *)
Theorem init_then_getSamplerName materialDomain sib m :
  init getSib set_value VERTEX FRAGMENT MAX_SAMPLER_COUNT
    MAX_VERTEX_SAMPLER_COUNT MAX_FRAGMENT_SAMPLER_COUNT materialDomain sib ∅
  = Ready m →
  NoDup (sampler_key set_value <$> samplers_of getSib sib materialDomain)
  ∧ ∀ set binding name,
      getSamplerName m set binding = Some name
      ↔ ∃ entry,
          entry ∈ samplers_of getSib sib materialDomain
          ∧ sampler_key set_value entry = (set, binding)
          ∧ uniformName entry.2 = name.
Proof.
  intros Hinit. pose proof (init_enter materialDomain sib ∅) as H.
  rewrite Hinit in H. destruct H as [H _].
  pose proof (enter_spec
    (sampler_entry set_value <$> samplers_of getSib sib materialDomain) ∅) as Hs.
  rewrite H in Hs. destruct Hs as (Hnd & _ & Hm).
  rewrite entries_keys in Hnd. split; [done|].
  intros set b name.
  assert (getSamplerName m set b = m !! (set, b)) as ->.
  { unfold getSamplerName. by destruct (m !! (set, b)). }
  rewrite Hm, lookup_empty, list_elem_of_fmap. split.
  - intros [?|(entry & Heq & Hin)]; [done|]. exists entry.
    unfold sampler_entry, sampler_key in *. by injection Heq as -> -> ->.
  - intros (entry & Hin & Hkey & <-). right. exists entry. split; [|done].
    unfold sampler_entry. congruence.
Qed.

(** X27. [init] enters into the map it is given and never overwrites:
    entries that were in the map stay, and a second [init] on the map
    that a first one returned fails its assertion as soon as the domain
    has a sampler. *)
Theorem init_twice_asserts materialDomain sib m0 m :
  init getSib set_value VERTEX FRAGMENT MAX_SAMPLER_COUNT
    MAX_VERTEX_SAMPLER_COUNT MAX_FRAGMENT_SAMPLER_COUNT materialDomain sib m0
  = Ready m →
  m0 ⊆ m
  ∧ (samplers_of getSib sib materialDomain ≠ [] →
     init getSib set_value VERTEX FRAGMENT MAX_SAMPLER_COUNT
       MAX_VERTEX_SAMPLER_COUNT MAX_FRAGMENT_SAMPLER_COUNT materialDomain sib m
     = AssertInvariant).
Proof.
  intros Hinit. pose proof (init_enter materialDomain sib m0) as H.
  rewrite Hinit in H. destruct H as [H _].
  pose proof (enter_spec
    (sampler_entry set_value <$> samplers_of getSib sib materialDomain) m0) as Hs.
  rewrite H in Hs. destruct Hs as (_ & _ & Hm). split.
  - apply map_subseteq_spec. intros k v Hk. apply Hm. by left.
  - intros Hne.
    pose proof (init_enter materialDomain sib m) as H2.
    destruct (samplers_of getSib sib materialDomain) as [|entry rest]; [done|].
    assert (Hhit : enter m (sampler_entry set_value <$> entry :: rest)
                   = AssertInvariant).
    { cbn [fmap list_fmap enter]. unfold sampler_entry at 1.
      assert (m !! sampler_key set_value entry = Some (uniformName entry.2)) as ->;
        [|done].
      apply Hm. right. apply elem_of_cons. by left. }
    rewrite Hhit in H2.
    destruct (init getSib set_value VERTEX FRAGMENT MAX_SAMPLER_COUNT
     MAX_VERTEX_SAMPLER_COUNT MAX_FRAGMENT_SAMPLER_COUNT materialDomain sib m)
      as [?| |?];
      [by destruct H2 | done | by destruct H2 as [[? ?] _]].
Qed.

(** X28. How an [init] of an empty map ends. The assertion fails exactly
    when two samplers of the domain have the same set and binding.
    Otherwise [init] returns exactly when the three counts are within
    their limits: the samplers of the groups with the vertex stage, those
    of the groups with the fragment stage, and their sum, all three as
    [size_t] values. *)
Theorem init_outcome materialDomain sib :
  (init getSib set_value VERTEX FRAGMENT MAX_SAMPLER_COUNT
     MAX_VERTEX_SAMPLER_COUNT MAX_FRAGMENT_SAMPLER_COUNT materialDomain sib ∅
   = AssertInvariant
   ↔ ¬ NoDup (sampler_key set_value <$> samplers_of getSib sib materialDomain))
  ∧ ((∃ m, init getSib set_value VERTEX FRAGMENT MAX_SAMPLER_COUNT
             MAX_VERTEX_SAMPLER_COUNT MAX_FRAGMENT_SAMPLER_COUNT materialDomain sib ∅
           = Ready m)
     ↔ NoDup (sampler_key set_value <$> samplers_of getSib sib materialDomain)
       ∧ within_limits MAX_SAMPLER_COUNT MAX_VERTEX_SAMPLER_COUNT
           MAX_FRAGMENT_SAMPLER_COUNT
           (size_t (stage_total getSib sib materialDomain VERTEX))
           (size_t (stage_total getSib sib materialDomain FRAGMENT))).
Proof.
  pose proof (init_enter materialDomain sib ∅) as H.
  pose proof (enter_spec
    (sampler_entry set_value <$> samplers_of getSib sib materialDomain) ∅) as Hs.
  unfold entered in Hs. rewrite entries_keys in Hs.
  destruct (init getSib set_value VERTEX FRAGMENT MAX_SAMPLER_COUNT
     MAX_VERTEX_SAMPLER_COUNT MAX_FRAGMENT_SAMPLER_COUNT materialDomain sib ∅)
    as [m| |message].
  - destruct H as [H Hl]. rewrite H in Hs. destruct Hs as (Hnd & _).
    split; split; try done. by eexists.
  - rewrite H in Hs. split; split; try done.
    + intros _ Hnd. apply Hs. split; [done|]. intros; apply lookup_empty.
    + by intros [? ?].
    + intros [Hnd _]. exfalso. apply Hs. split; [done|]. intros; apply lookup_empty.
  - destruct H as [[m' H] Hl]. rewrite H in Hs. destruct Hs as (Hnd & _).
    split; split; try done.
    + by intros [? ?].
    + by intros [_ ?].
Qed.

End SamplerBindingMapFacts.

Lemma init_then_getSamplerName_witness :
  ∃ m,
    SamplerBindingMap.init NameSample.getSib NameSample.set_value 1 2 62 16 31
      SamplerBindingMap.SURFACE NameSample.material ∅ = SamplerBindingMap.Ready m
    ∧ SamplerBindingMap.getSamplerName m 2 1 = Some "materialParams_albedo"%string.
Proof.
  eexists. split; [vm_compute; reflexivity|].
  eapply (init_then_getSamplerName NameSample.getSib NameSample.set_value 1 2 62 16 31
            SamplerBindingMap.SURFACE NameSample.material).
  - vm_compute; reflexivity.
  - exists (PER_MATERIAL, {| SamplerBindingMap.binding := 1;
                             SamplerBindingMap.uniformName := "materialParams_albedo" |}).
    split_and!; [|done|done]. vm_compute. do 3 right. left.
Defined.

Lemma init_twice_asserts_witness :
  ∃ m,
    SamplerBindingMap.init NameSample.getSib NameSample.set_value 1 2 62 16 31
      SamplerBindingMap.COMPUTE NameSample.material ∅ = SamplerBindingMap.Ready m
    ∧ SamplerBindingMap.init NameSample.getSib NameSample.set_value 1 2 62 16 31
        SamplerBindingMap.COMPUTE NameSample.material m
      = SamplerBindingMap.AssertInvariant.
Proof.
  eexists. split; [vm_compute; reflexivity|].
  eapply (init_twice_asserts NameSample.getSib NameSample.set_value 1 2 62 16 31
            SamplerBindingMap.COMPUTE NameSample.material ∅).
  - vm_compute; reflexivity.
  - discriminate.
Defined.

Lemma init_outcome_witness :
  SamplerBindingMap.init NameSample.getSib NameSample.set_value 1 2 62 16 31
    SamplerBindingMap.POST_PROCESS NameSample.clashing ∅
  = SamplerBindingMap.AssertInvariant.
Proof.
  destruct (init_outcome NameSample.getSib NameSample.set_value 1 2 62 16 31
              SamplerBindingMap.POST_PROCESS NameSample.clashing) as [[_ H] _].
  apply H. vm_compute. intros Hnd. apply NoDup_cons in Hnd as [Hin _].
  apply Hin. left.
Defined.
